(** * ACLAS PS6X scale middleware: the scale-reading pipeline

    A shallow embedding of [docs/middleware/scale_middleware.py]: the frame
    parser ([AclasPS6XParser]), the stability and duplicate filter
    ([StabilityBuffer]), the two sinks ([ScaleWebSocketServer.broadcast],
    [TransactionLogger.log]) and the orchestration ([ScaleMiddleware]),
    with what the program calls of the modules [re] and [json].

    Python [float] is IEEE binary64 and is modelled by the kernel's primitive
    [float]; [int] is [Z]; [str] after the ASCII decoding is [list ascii];
    [bytes] is [list byte]; the PLU price [dict] is a [gmap]. Code that can
    raise lives in a state-and-exception monad in which, as in Python, the
    state reached before the [raise] is kept. What the program meets outside
    itself (the clock, the serial port, the log file, the listeners) is an
    argument of the function that meets it.

    The first part holds the definitions, module by class of the source;
    the second part the properties. *)

From Stdlib Require Import ZArith Floats Ascii String Strings.Byte List Bool Lia.
From stdpp Require Import base option list gmap strings.
Import ListNotations.

Set Warnings "-inexact-float".
#[local] Open Scope Z_scope.

(** ** Python numerics *)

Module Py.

(** Quotient of [n] by [d] (with [0 <= n], [0 < d]) rounded to the nearest
    integer, ties to even. *)
Definition round_half_even_div (n d : Z) : Z :=
  let q := n / d in
  match 2 * (n mod d) ?= d with
  | Lt => q
  | Gt => q + 1
  | Eq => if Z.even q then q else q + 1
  end.

(** [n / (d * 2^e)] as a fraction of integers, for either sign of [e]. *)
Definition scaled (n d e : Z) : Z * Z :=
  if 0 <=? e then (n, d * 2 ^ e) else (n * 2 ^ (- e), d).

(** The binary64 number nearest to [n / d] (ties to even), for [0 <= n] and
    [0 < d]: the significand is the quotient scaled into [2^52, 2^53], or
    below when the result is subnormal; too large a quotient gives
    [infinity]. This is the correctly rounded conversion CPython performs
    in [float(str)], in [int / int] and at the end of [round(x, n)]. *)
Definition float_of_pos_ratio (n d : Z) : float :=
  if n =? 0 then 0%float else
  let e0 := Z.max (-1074) (Z.log2 n - Z.log2 d - 53) in
  let '(a, b) := scaled n d e0 in
  let e := if 2 ^ 53 <=? a / b then e0 + 1 else e0 in
  let '(a, b) := scaled n d e in
  Z.ldexp (of_uint63 (Uint63.of_Z (round_half_even_div a b))) e.

Definition float_of_ratio (n d : Z) : float :=
  if n <? 0 then (- float_of_pos_ratio (- n) d)%float
  else float_of_pos_ratio n d.

(** [round(x, ndigits)] on a float, for [0 <= ndigits]: the exact binary
    value is rounded half-even to [ndigits] decimals and converted back;
    infinities and NaN round to themselves. *)
Definition round (x : float) (ndigits : Z) : float :=
  match Prim2SF x with
  | S754_finite s m e =>
      let p := 10 ^ ndigits in
      let k := if 0 <=? e then Zpos m * 2 ^ e * p
               else round_half_even_div (Zpos m * p) (2 ^ (- e)) in
      let r := float_of_pos_ratio k p in
      if s then (- r)%float else r
  | _ => x
  end.

(** Exceptions of the Python run time that the modelled code can meet. *)
Inductive exn : Type :=
| ValueError
| OSError
| RuntimeError
| ConnectionClosed.

Inductive result (A : Type) : Type :=
| Ok (a : A)
| Raise (e : exn).
Arguments Ok {A} a.
Arguments Raise {A} e.

#[global] Instance result_ret : MRet result := fun _ a => Ok a.
#[global] Instance result_bind : MBind result := fun _ _ f m =>
  match m with
  | Ok a => f a
  | Raise e => Raise e
  end.

(** [max(l)] and [min(l)]: the first extremal item, compared with [>] and
    [<]; [ValueError] on an empty sequence. *)
Definition max (l : list float) : result float :=
  match l with
  | [] => Raise ValueError
  | x :: l' => Ok (fold_left (fun m y => if (m <? y)%float then y else m) l' x)
  end.

Definition min (l : list float) : result float :=
  match l with
  | [] => Raise ValueError
  | x :: l' => Ok (fold_left (fun m y => if (y <? m)%float then y else m) l' x)
  end.

(** [min(a, b)] on two arguments. *)
Definition min2 (a b : float) : float := if (b <? a)%float then b else a.

(** [sum(l)]: additions from [0], left to right (CPython 3.10 and 3.11). *)
Definition sum (l : list float) : float :=
  fold_left (fun acc y => (acc + y)%float) l 0%float.

(** [l[i:]]: a negative start counts from the end, and is clipped. *)
Definition slice_from {A} (l : list A) (i : Z) : list A :=
  let len := Z.of_nat (length l) in
  if i <? 0 then drop (Z.to_nat (Z.max 0 (len + i))) l
  else drop (Z.to_nat (Z.min i len)) l.

(** [datetime] with its microsecond resolution, as microseconds since an
    epoch; [(a - b).total_seconds()] divides the microseconds by [10**6]. *)
Definition datetime : Type := Z.

Definition total_seconds (a b : datetime) : float :=
  float_of_ratio (a - b) (10 ^ 6).

(** *** Text *)

Definition isdigit (c : ascii) : bool :=
  let n := N_of_ascii c in ((48 <=? n) && (n <=? 57))%N.

(** [str.isspace] on the ASCII range: TAB, LF, VT, FF, CR, FS, GS, RS, US
    and space. *)
Definition isspace (c : ascii) : bool :=
  let n := N_of_ascii c in
  (((9 <=? n) && (n <=? 13)) || ((28 <=? n) && (n <=? 32)))%N.

Fixpoint lstrip (s : list ascii) : list ascii :=
  match s with
  | c :: s' => if isspace c then lstrip s' else s
  | [] => []
  end.

Definition rstrip (s : list ascii) : list ascii := rev (lstrip (rev s)).

Definition strip (s : list ascii) : list ascii := rstrip (lstrip s).

(** [bytes.decode('ascii', errors='ignore')]: bytes above 0x7f are dropped. *)
Definition is_ascii (b : Byte.byte) : bool := (Byte.to_N b <? 128)%N.

Definition decode_ascii_ignore (data : list Byte.byte) : list ascii :=
  map ascii_of_byte (filter (fun b => is_ascii b = true) data).

(** The longest prefix of decimal digits, and what follows it. *)
Fixpoint span_digits (s : list ascii) : list ascii * list ascii :=
  match s with
  | c :: s' =>
      if isdigit c then let '(ds, rest) := span_digits s' in (c :: ds, rest)
      else ([], s)
  | [] => ([], [])
  end.

Definition digit_value (c : ascii) : Z := Z.of_N (N_of_ascii c) - 48.

Definition digits_value (ds : list ascii) : Z :=
  fold_left (fun acc c => 10 * acc + digit_value c) ds 0.

(** A leading sign, and whether it is a minus. *)
Definition split_sign (s : list ascii) : bool * list ascii :=
  match s with
  | "+"%char :: r => (false, r)
  | "-"%char :: r => (true, r)
  | _ => (false, s)
  end.

(** The digits after a decimal point, if [s] begins with one. *)
Definition split_fraction (s : list ascii) : list ascii * list ascii :=
  match s with
  | "."%char :: r => span_digits r
  | _ => ([], s)
  end.

(** [float(s)] on a plain decimal literal: an optional sign, digits, an
    optional point and digits, with a digit somewhere; everything else is a
    [ValueError] here. (Python also accepts exponents, underscores, [inf],
    [nan] and blanks around the literal; no group of [PATTERNS] can hold
    one of these.) *)
Definition float_of_str (s : list ascii) : result float :=
  let '(neg, s1) := split_sign s in
  let '(ip, s2) := span_digits s1 in
  let '(fp, s3) := split_fraction s2 in
  match s3, ip ++ fp with
  | [], _ :: _ =>
      let v := float_of_pos_ratio (digits_value (ip ++ fp))
                 (10 ^ Z.of_nat (length fp)) in
      Ok (if neg then (- v)%float else v)
  | _, _ => Raise ValueError
  end.

(** *** [float] on a text with an exponent *)

(** [n / d * b^x] as a fraction of integers, for either sign of [x]. *)
Definition times_pow (b x : Z) (r : Z * Z) : Z * Z :=
  let '(n, d) := r in
  if 0 <=? x then (n * b ^ x, d) else (n, d * b ^ (- x)).

(** The exponent part, if [s] begins with one: [e] or [E], an optional
    sign and digits. *)
Definition split_exponent (s : list ascii) : Z * list ascii :=
  match s with
  | c :: r =>
      if Ascii.eqb c "e" || Ascii.eqb c "E" then
        let '(neg, r1) := split_sign r in
        let '(ds, r2) := span_digits r1 in
        match ds with
        | [] => (0, s)
        | _ :: _ => (if neg then - digits_value ds else digits_value ds, r2)
        end
      else (0, s)
  | [] => (0, [])
  end.

(** The binary64 number nearest to [k * 10^x], for [0 <= k]. *)
Definition float_of_decimal (k x : Z) : float :=
  let '(n, d) := times_pow 10 x (k, 1) in float_of_pos_ratio n d.

(** [float(s)] on a decimal literal that may have an exponent, as the
    numbers of a JSON text and of [repr] have: an optional sign, digits, an
    optional point and digits, with a digit somewhere, and an optional
    exponent; everything else is a [ValueError] here. On a literal without
    exponent this is [float_of_str]. *)
Definition float_of_literal (s : list ascii) : result float :=
  let '(neg, s1) := split_sign s in
  let '(ip, s2) := span_digits s1 in
  let '(fp, s3) := split_fraction s2 in
  let '(ex, s4) := split_exponent s3 in
  match s4, ip ++ fp with
  | [], _ :: _ =>
      let v := float_of_decimal (digits_value (ip ++ fp))
                 (ex - Z.of_nat (length fp)) in
      Ok (if neg then (- v)%float else v)
  | _, _ => Raise ValueError
  end.

(** *** [repr] of a float *)

(** A decimal literal: sign, integer digits, fraction digits after a point
    and exponent (its sign and digits) after [e]. *)
Record Literal : Type := mkLiteral {
  minus : bool;
  int_part : list ascii;
  frac_part : option (list ascii);
  exponent : option (bool * list ascii)
}.

Definition render (l : Literal) : list ascii :=
  (if minus l then ["-"%char] else [])
  ++ int_part l
  ++ match frac_part l with
     | Some fp => "."%char :: fp
     | None => []
     end
  ++ match exponent l with
     | Some (neg, ds) => "e"%char :: (if neg then "-"%char else "+"%char) :: ds
     | None => []
     end.

Definition digit_char (d : Z) : ascii := ascii_of_N (Z.to_N (48 + d)).

Fixpoint digits_of_fuel (fuel : nat) (k : Z) (acc : list ascii) : list ascii :=
  match fuel with
  | O => acc
  | S fuel' =>
      let acc' := digit_char (k mod 10) :: acc in
      if k <? 10 then acc' else digits_of_fuel fuel' (k / 10) acc'
  end.

(** [str(k)] for [0 <= k]. *)
Definition digits_of (k : Z) : list ascii :=
  digits_of_fuel (S (Z.to_nat (Z.log2 k))) k [].

(** [k * 10^z] without the factors of ten of [k]. *)
Fixpoint strip10 (fuel : nat) (k z : Z) : Z * Z :=
  match fuel with
  | O => (k, z)
  | S fuel' =>
      if k mod 10 =? 0 then strip10 fuel' (k / 10) (z + 1) else (k, z)
  end.

Definition zeros (n : nat) : list ascii := replicate n "0"%char.

(** [float_repr_style] 'r' of CPython: the digits [ds], read as
    [0.ds * 10^decpt], in positional notation when [-4 < decpt <= 16] and
    with an exponent of two digits at least otherwise. *)
Definition format_short (ds : list ascii) (decpt : Z) : Literal :=
  if (decpt <=? -4) || (16 <? decpt) then
    let e := decpt - 1 in
    let ex := digits_of (Z.abs e) in
    mkLiteral false (take 1 ds)
      (match drop 1 ds with [] => None | fp => Some fp end)
      (Some (e <? 0, if (length ex <? 2)%nat then "0"%char :: ex else ex))
  else if decpt <=? 0 then
    mkLiteral false ["0"%char] (Some (zeros (Z.to_nat (- decpt)) ++ ds)) None
  else if Z.of_nat (length ds) <=? decpt then
    mkLiteral false (ds ++ zeros (Z.to_nat decpt - length ds))
      (Some ["0"%char]) None
  else
    mkLiteral false (take (Z.to_nat decpt) ds)
      (Some (drop (Z.to_nat decpt) ds)) None.

(** The literal of [k * 10^j], for [0 < k]. *)
Definition literal_of (k j : Z) : Literal :=
  let '(k', j') := strip10 18 k j in
  let ds := digits_of k' in
  format_short ds (j' + Z.of_nat (length ds)).

(** [m * 2^e / 10^j] as a fraction of integers. *)
Definition decimal_scaled (m e j : Z) : Z * Z :=
  times_pow 10 (- j) (times_pow 2 e (m, 1)).

(** [m * 2^e < 10^p] *)
Definition below (m e p : Z) : bool :=
  let '(a, b) := decimal_scaled m e p in a <? b.

(** The least [p], from [p0] on, with [m * 2^e] below [10^p]. *)
Fixpoint find_point (fuel : nat) (m e p : Z) : Z :=
  match fuel with
  | O => p
  | S fuel' => if below m e p then p else find_point fuel' m e (p + 1)
  end.

(** The position of the decimal point of [m * 2^e]: the [p] with
    [10^(p-1) <= m * 2^e < 10^p], looked for from an estimate by the binary
    logarithm, or from the least exponent when the estimate is too high. *)
Definition decimal_point (m e : Z) : Z :=
  let p0 := (Z.log2 m + e) * 30103 / 100000 in
  find_point 640 m e (if below m e (p0 - 1) then -323 else p0).

(** The decimals of [n] digits next to [m * 2^e]: the nearest, the one
    below and the one above, as [k * 10^j]. *)
Definition neighbours (m e p : Z) (n : nat) : list (Z * Z) :=
  let j := p - Z.of_nat n in
  let '(a, b) := decimal_scaled m e j in
  [(round_half_even_div a b, j); (a / b, j); (a / b + 1, j)].

Definition parses_to (x : float) (l : Literal) : bool :=
  match float_of_literal (render l) with
  | Ok y => PrimFloat.Leibniz.eqb y x
  | Raise _ => false
  end.

(** The shortest literal that [float] reads back as [m * 2^e], and among
    those of that length the nearest: what [repr] prints. Seventeen digits
    always do. *)
Definition shortest (m : positive) (e : Z) : Literal :=
  let x := SF2Prim (S754_finite false m e) in
  let p := decimal_point (Z.pos m) e in
  let literals n :=
    map (fun '(k, j) => literal_of k j) (neighbours (Z.pos m) e p n) in
  match find (parses_to x) (flat_map literals (seq 1 17)) with
  | Some l => l
  | None =>
      match neighbours (Z.pos m) e p 17 with
      | (k, j) :: _ => literal_of k j
      | [] => literal_of 0 0
      end
  end.

Definition negate (l : Literal) : Literal :=
  mkLiteral true (int_part l) (frac_part l) (exponent l).

(** [float.__repr__] *)
Definition float_repr (x : float) : list ascii :=
  match Prim2SF x with
  | S754_zero false => list_ascii_of_string "0.0"
  | S754_zero true => list_ascii_of_string "-0.0"
  | S754_infinity false => list_ascii_of_string "inf"
  | S754_infinity true => list_ascii_of_string "-inf"
  | S754_nan => list_ascii_of_string "nan"
  | S754_finite s m e =>
      let l := shortest m e in render (if s then negate l else l)
  end.

(** *** [datetime.isoformat] *)

(** [n] in decimal, with zeros in front up to [width] digits. *)
Definition zero_padded (width : nat) (n : Z) : list ascii :=
  let ds := digits_of n in zeros (width - length ds) ++ ds.

(** Year, month and day of the day [days] after 0001-01-01, in the
    proleptic Gregorian calendar of [datetime]. *)
Definition civil_of_days (days : Z) : Z * Z * Z :=
  let z := days + 306 in
  let era := z / 146097 in
  let doe := z mod 146097 in
  let yoe := (doe - doe / 1460 + doe / 36524 - doe / 146096) / 365 in
  let doy := doe - (365 * yoe + yoe / 4 - yoe / 100) in
  let mp := (5 * doy + 2) / 153 in
  let d := doy - (153 * mp + 2) / 5 + 1 in
  let m := if mp <? 10 then mp + 3 else mp - 9 in
  let y := yoe + era * 400 + (if m <=? 2 then 1 else 0) in
  (y, m, d).

(** [t.isoformat()], the epoch of [datetime] being 0001-01-01T00:00:00:
    [YYYY-MM-DDTHH:MM:SS], and [.ffffff] unless the microseconds are zero. *)
Definition isoformat (t : datetime) : string :=
  let us := t mod 1000000 in
  let s := t / 1000000 in
  let '(y, m, d) := civil_of_days (s / 86400) in
  let sod := s mod 86400 in
  string_of_list_ascii
    (zero_padded 4 y ++ "-"%char :: zero_padded 2 m
     ++ "-"%char :: zero_padded 2 d
     ++ "T"%char :: zero_padded 2 (sod / 3600)
     ++ ":"%char :: zero_padded 2 (sod mod 3600 / 60)
     ++ ":"%char :: zero_padded 2 (sod mod 60)
     ++ (if us =? 0 then [] else "."%char :: zero_padded 6 us)).

End Py.

(** ** The [json] module

    Texts are strings of 8-bit characters: a [\u] escape above [00ff] is
    outside the model, and read as an error. *)

#[local] Set Warnings "-register-all".

Module Json.

Definition quote : ascii := "034"%char.
Definition backslash : ascii := "092"%char.

(** What [json.load] and [json.loads] return: [None], [bool], [int],
    [float], [str], [list] and [dict]. *)
Inductive value : Type :=
| VNone
| VBool (b : bool)
| VInt (n : Z)
| VFloat (x : float)
| VStr (s : string)
| VList (l : list value)
| VDict (d : gmap string value).

(** How [json.loads(text)] ends: with a value, with
    [json.JSONDecodeError], or with another exception. *)
Inductive Loads : Type :=
| Loaded (data : value)
| JSONDecodeError
| LoadsRaises (e : Py.exn).

(** A value as [json.dumps] walks it: a [dict] gives its items in the
    order in which they were inserted. *)
Inductive tree : Type :=
| TNone
| TBool (b : bool)
| TInt (n : Z)
| TFloat (x : float)
| TStr (s : string)
| TList (l : list tree)
| TDict (items : list (string * tree)).

(** The value that a tree is; two [dict]s with the same items are equal,
    in whatever order they hold them. *)
Fixpoint denote (t : tree) : value :=
  match t with
  | TNone => VNone
  | TBool b => VBool b
  | TInt n => VInt n
  | TFloat x => VFloat x
  | TStr s => VStr s
  | TList l => VList (map denote l)
  | TDict items =>
      VDict (fold_left (fun d kv => <[fst kv := snd kv]> d)
               (map (fun kv => (fst kv, denote (snd kv))) items) ∅)
  end.

(** *** Encoding *)

Definition hex_digit (n : N) : ascii :=
  if (n <? 10)%N then ascii_of_N (48 + n) else ascii_of_N (87 + n).

(** [ESCAPE_DCT] and the [\uXXXX] of [py_encode_basestring_ascii]: every
    character outside [' '..'~'] is escaped. *)
Definition escape (c : ascii) : list ascii :=
  if Ascii.eqb c quote then [backslash; quote]
  else if Ascii.eqb c backslash then [backslash; backslash]
  else if Ascii.eqb c "010" then [backslash; "n"%char]
  else if Ascii.eqb c "013" then [backslash; "r"%char]
  else if Ascii.eqb c "009" then [backslash; "t"%char]
  else if Ascii.eqb c "008" then [backslash; "b"%char]
  else if Ascii.eqb c "012" then [backslash; "f"%char]
  else
    let n := N_of_ascii c in
    if ((32 <=? n) && (n <=? 126))%N then [c]
    else [backslash; "u"%char; "0"%char; "0"%char;
          hex_digit (n / 16); hex_digit (n mod 16)].

Definition encode_basestring_ascii (s : list ascii) : list ascii :=
  quote :: flat_map escape s ++ [quote].

(** [floatstr]: [NaN], [Infinity] and [-Infinity], or [float.__repr__]. *)
Definition floatstr (x : float) : list ascii :=
  match Prim2SF x with
  | S754_nan => list_ascii_of_string "NaN"
  | S754_infinity false => list_ascii_of_string "Infinity"
  | S754_infinity true => list_ascii_of_string "-Infinity"
  | _ => Py.float_repr x
  end.

(** [int.__repr__] *)
Definition intstr (n : Z) : list ascii :=
  if n <? 0 then "-"%char :: Py.digits_of (- n) else Py.digits_of n.

(** [', '.join(parts)] *)
Fixpoint join (parts : list (list ascii)) : list ascii :=
  match parts with
  | [] => []
  | [p] => p
  | p :: parts' => p ++ ","%char :: " "%char :: join parts'
  end.

(** [json.dumps(v)] with its default separators [', '] and [': ']. *)
Fixpoint encode (t : tree) : list ascii :=
  match t with
  | TNone => list_ascii_of_string "null"
  | TBool true => list_ascii_of_string "true"
  | TBool false => list_ascii_of_string "false"
  | TInt n => intstr n
  | TFloat x => floatstr x
  | TStr s => encode_basestring_ascii (list_ascii_of_string s)
  | TList l => "["%char :: join (map encode l) ++ ["]"%char]
  | TDict items =>
      "{"%char
      :: join (map (fun kv =>
                 encode_basestring_ascii (list_ascii_of_string (fst kv))
                 ++ ":"%char :: " "%char :: encode (snd kv)) items)
      ++ ["}"%char]
  end.

Definition dumps (t : tree) : string := string_of_list_ascii (encode t).

(** *** Decoding *)

(** [WHITESPACE]: blank, tab, line feed and carriage return. *)
Definition is_ws (c : ascii) : bool :=
  Ascii.eqb c " " || Ascii.eqb c "009" || Ascii.eqb c "010"
  || Ascii.eqb c "013".

Fixpoint skip_ws (s : list ascii) : list ascii :=
  match s with
  | c :: s' => if is_ws c then skip_ws s' else s
  | [] => []
  end.

Definition hex_value (c : ascii) : option N :=
  let n := N_of_ascii c in
  if ((48 <=? n) && (n <=? 57))%N then Some (n - 48)%N
  else if ((97 <=? n) && (n <=? 102))%N then Some (n - 87)%N
  else if ((65 <=? n) && (n <=? 70))%N then Some (n - 55)%N
  else None.

(** The four hexadecimal digits of a [\u] escape. *)
Definition hex4 (h1 h2 h3 h4 : ascii) : option N :=
  a ← hex_value h1; b ← hex_value h2; c ← hex_value h3; d ← hex_value h4;
  Some (((a * 16 + b) * 16 + c) * 16 + d)%N.

(** [BACKSLASH]: the character after a backslash, other than [u]. *)
Definition unescape (c : ascii) : option ascii :=
  if Ascii.eqb c quote then Some quote
  else if Ascii.eqb c backslash then Some backslash
  else if Ascii.eqb c "/" then Some "/"%char
  else if Ascii.eqb c "b" then Some "008"%char
  else if Ascii.eqb c "f" then Some "012"%char
  else if Ascii.eqb c "n" then Some "010"%char
  else if Ascii.eqb c "r" then Some "013"%char
  else if Ascii.eqb c "t" then Some "009"%char
  else None.

(** [scanstring] (strict), from the character after the opening quote: the
    text of the string and what follows its closing quote. *)
Fixpoint scanstring (s : list ascii) : Py.result (list ascii * list ascii) :=
  match s with
  | [] => Py.Raise Py.ValueError
  | c :: r =>
      if Ascii.eqb c quote then Py.Ok ([], r)
      else if Ascii.eqb c backslash then
        match r with
        | e :: r1 =>
            if Ascii.eqb e "u" then
              match r1 with
              | h1 :: h2 :: h3 :: h4 :: r2 =>
                  match hex4 h1 h2 h3 h4 with
                  | Some n =>
                      if (n <? 256)%N then
                        '(text, rest) ← scanstring r2;
                        Py.Ok (ascii_of_N n :: text, rest)
                      else Py.Raise Py.ValueError
                  | None => Py.Raise Py.ValueError
                  end
              | _ => Py.Raise Py.ValueError
              end
            else
              match unescape e with
              | Some ch =>
                  '(text, rest) ← scanstring r1;
                  Py.Ok (ch :: text, rest)
              | None => Py.Raise Py.ValueError
              end
        | [] => Py.Raise Py.ValueError
        end
      else if (N_of_ascii c <? 32)%N then Py.Raise Py.ValueError
      else
        '(text, rest) ← scanstring r;
        Py.Ok (c :: text, rest)
  end.

(** The fraction of [NUMBER_RE] at the head of [s]: a point and digits. *)
Definition skip_fraction (s : list ascii) : bool * list ascii :=
  match s with
  | c :: r =>
      if Ascii.eqb c "." then
        match Py.span_digits r with
        | ([], _) => (false, s)
        | (_ :: _, r') => (true, r')
        end
      else (false, s)
  | [] => (false, s)
  end.

(** The exponent of [NUMBER_RE] at the head of [s]: [e] or [E], an
    optional sign and digits. *)
Definition skip_exponent (s : list ascii) : bool * list ascii :=
  match s with
  | c :: r =>
      if Ascii.eqb c "e" || Ascii.eqb c "E" then
        match Py.span_digits (snd (Py.split_sign r)) with
        | ([], _) => (false, s)
        | (_ :: _, r') => (true, r')
        end
      else (false, s)
  | [] => (false, s)
  end.

(** [NUMBER_RE.match]: an optional minus, [0] or digits that do not begin
    with [0], an optional fraction, an optional exponent. The number is a
    [float], read by [float()] from the matched text, when it has a
    fraction or an exponent, and an [int] otherwise. *)
Definition scan_number (s : list ascii) : option (value * list ascii) :=
  let '(neg, s1) :=
    match s with
    | c :: r => if Ascii.eqb c "-" then (true, r) else (false, s)
    | [] => (false, s)
    end in
  let '(ip, s2) :=
    match s1 with
    | c :: r => if Ascii.eqb c "0" then ([c], r) else Py.span_digits s1
    | [] => ([], s1)
    end in
  match ip with
  | [] => None
  | _ :: _ =>
      let '(frac, s3) := skip_fraction s2 in
      let '(exp, s4) := skip_exponent s3 in
      if frac || exp then
        match Py.float_of_literal (take (length s - length s4) s) with
        | Py.Ok x => Some (VFloat x, s4)
        | Py.Raise _ => None
        end
      else
        let n := Py.digits_value ip in
        Some (VInt (if neg then - n else n), s4)
  end.

(** [s] without the prefix [p], if it begins with it. *)
Fixpoint after_prefix (p s : list ascii) : option (list ascii) :=
  match p, s with
  | [], _ => Some s
  | a :: p', b :: s' => if Ascii.eqb a b then after_prefix p' s' else None
  | _ :: _, [] => None
  end.

(** [scan_once], [JSONObject] and [JSONArray] of [json.scanner] and
    [json.decoder]; [fuel] bounds the nesting and the number of items. *)
Fixpoint scan_once (fuel : nat) (s : list ascii)
    : Py.result (value * list ascii) :=
  match fuel with
  | O => Py.Raise Py.RuntimeError
  | S fuel' =>
      match s with
      | [] => Py.Raise Py.ValueError
      | c :: r =>
          if Ascii.eqb c quote then
            '(text, rest) ← scanstring r;
            Py.Ok (VStr (string_of_list_ascii text), rest)
          else if Ascii.eqb c "{" then
            match skip_ws r with
            | c1 :: r1 =>
                if Ascii.eqb c1 "}" then Py.Ok (VDict ∅, r1)
                else scan_members fuel' (c1 :: r1) ∅
            | [] => Py.Raise Py.ValueError
            end
          else if Ascii.eqb c "[" then
            match skip_ws r with
            | c1 :: r1 =>
                if Ascii.eqb c1 "]" then Py.Ok (VList [], r1)
                else scan_items fuel' (c1 :: r1) []
            | [] => Py.Raise Py.ValueError
            end
          else
            match after_prefix (list_ascii_of_string "null") s,
                  after_prefix (list_ascii_of_string "true") s,
                  after_prefix (list_ascii_of_string "false") s with
            | Some rest, _, _ => Py.Ok (VNone, rest)
            | _, Some rest, _ => Py.Ok (VBool true, rest)
            | _, _, Some rest => Py.Ok (VBool false, rest)
            | None, None, None =>
                match scan_number s with
                | Some r => Py.Ok r
                | None =>
                    match after_prefix (list_ascii_of_string "NaN") s,
                          after_prefix (list_ascii_of_string "Infinity") s,
                          after_prefix (list_ascii_of_string "-Infinity") s
                    with
                    | Some rest, _, _ => Py.Ok (VFloat nan, rest)
                    | _, Some rest, _ => Py.Ok (VFloat infinity, rest)
                    | _, _, Some rest => Py.Ok (VFloat neg_infinity, rest)
                    | None, None, None => Py.Raise Py.ValueError
                    end
                end
            end
      end
  end
with scan_members (fuel : nat) (s : list ascii) (pairs : gmap string value)
    : Py.result (value * list ascii) :=
  match fuel with
  | O => Py.Raise Py.RuntimeError
  | S fuel' =>
      match s with
      | c :: r =>
          if Ascii.eqb c quote then
            '(key, r1) ← scanstring r;
            match skip_ws r1 with
            | c2 :: r2 =>
                if Ascii.eqb c2 ":" then
                  '(v, r3) ← scan_once fuel' (skip_ws r2);
                  let pairs := <[string_of_list_ascii key := v]> pairs in
                  match skip_ws r3 with
                  | c4 :: r4 =>
                      if Ascii.eqb c4 "}" then Py.Ok (VDict pairs, r4)
                      else if Ascii.eqb c4 ","
                      then scan_members fuel' (skip_ws r4) pairs
                      else Py.Raise Py.ValueError
                  | [] => Py.Raise Py.ValueError
                  end
                else Py.Raise Py.ValueError
            | [] => Py.Raise Py.ValueError
            end
          else Py.Raise Py.ValueError
      | [] => Py.Raise Py.ValueError
      end
  end
with scan_items (fuel : nat) (s : list ascii) (values : list value)
    : Py.result (value * list ascii) :=
  match fuel with
  | O => Py.Raise Py.RuntimeError
  | S fuel' =>
      '(v, r1) ← scan_once fuel' s;
      let values := values ++ [v] in
      match skip_ws r1 with
      | c2 :: r2 =>
          if Ascii.eqb c2 "]" then Py.Ok (VList values, r2)
          else if Ascii.eqb c2 ","
          then scan_items fuel' (skip_ws r2) values
          else Py.Raise Py.ValueError
      | [] => Py.Raise Py.ValueError
      end
  end.

(** [JSONDecoder.decode]: one value, with blanks around it at most. *)
Definition decode (text : list ascii) : Py.result value :=
  let text := skip_ws text in
  '(v, rest) ← scan_once (S (length text)) text;
  match skip_ws rest with
  | [] => Py.Ok v
  | _ :: _ => Py.Raise Py.ValueError
  end.

(** [json.loads(s)]; [json.JSONDecodeError] is what [ValueError] stands for
    in the scanner. *)
Definition loads (s : string) : Loads :=
  match decode (list_ascii_of_string s) with
  | Py.Ok v => Loaded v
  | Py.Raise Py.ValueError => JSONDecodeError
  | Py.Raise e => LoadsRaises e
  end.

End Json.

(** ** [load_config] *)

Module Configuration.
Import Json.

(** The contents of the four [dict] objects that [DEFAULT_CONFIG] holds
    under its keys. [DEFAULT_CONFIG] itself is never written to, so a key
    stands for its object; the objects are updated in place, so their
    contents are state. *)
Abbreviation Defaults := (gmap string (gmap string value)).

Definition DEFAULT_CONFIG : Defaults :=
  {[ "serial" :=
       {[ "port" := VStr "COM3"; "baud_rate" := VInt 9600;
          "data_bits" := VInt 8; "parity" := VStr "N";
          "stop_bits" := VInt 1; "timeout" := VFloat 1.0 ]};
     "websocket" := {[ "host" := VStr "localhost"; "port" := VInt 8765 ]};
     "scale" :=
       {[ "stability_threshold" := VFloat 0.01;
          "stability_readings" := VInt 3;
          "duplicate_timeout" := VFloat 2.0 ]};
     "plu_prices" :=
       {[ "0001" := VFloat 850.00; "0002" := VFloat 1200.00;
          "0003" := VFloat 650.00; "0004" := VFloat 480.00;
          "0005" := VFloat 950.00 ]} ]}.

(** What a key of the returned [dict] holds: the object that
    [DEFAULT_CONFIG] holds under [key], or a value of its own. *)
Inductive entry : Type :=
| Shared (key : string)
| Own (v : value).

Abbreviation Config := (gmap string entry).

(** [DEFAULT_CONFIG.copy()]: a new [dict] that holds the same objects. *)
Definition copy (defaults : Defaults) : Config :=
  map_imap (fun key _ => Some (Shared key)) defaults.

(** One turn of [for key, value in user_config.items()], on the [dict]
    being built and the contents of the shared objects; no [dict] is left
    once a turn has raised. *)
Definition merge_item (key : string) (v : value)
    (st : option Config * Defaults) : option Config * Defaults :=
  match st with
  | (None, defaults) => (None, defaults)
  | (Some config, defaults) =>
      match v, config !! key with
      | VDict items, Some (Shared k) =>
          (* config[key].update(value) *)
          match defaults !! k with
          | Some d => (Some config, <[k := items ∪ d]> defaults)
          | None => (None, defaults)
          end
      | VDict items, Some (Own (VDict d)) =>
          (Some (<[key := Own (VDict (items ∪ d))]> config), defaults)
      | VDict items, Some (Own _) => (None, defaults)
      | _, _ => (Some (<[key := Own v]> config), defaults)
      end
  end.

(** What [load_config] finds under [CONFIG_FILE]. *)
Inductive ConfigFile : Type :=
| Absent
| Unreadable
| Holds (user_config : value).

(** [load_config]: the [dict] it returns and the contents of the objects
    of [DEFAULT_CONFIG] afterwards. Whatever is raised on the way is
    caught, and the copy of the defaults returned. *)
Definition load_config (file : ConfigFile) (defaults : Defaults)
    : Config * Defaults :=
  match file with
  | Holds (VDict items) =>
      match map_fold merge_item (Some (copy defaults), defaults) items with
      | (Some config, defaults') => (config, defaults')
      | (None, defaults') => (copy defaults', defaults')
      end
  | _ => (copy defaults, defaults)
  end.

(** [config[key]], the shared objects being read where they are. *)
Definition item (key : string) (config : Config) (defaults : Defaults)
    : option value :=
  match config !! key with
  | Some (Shared k) => VDict <$> defaults !! k
  | Some (Own v) => Some v
  | None => None
  end.

End Configuration.

(** ** The [re] module, as far as [PATTERNS] uses it *)

Module Re.

Definition charset : Type := ascii -> bool.

(** Quantifiers apply to single characters only, as everywhere in
    [PATTERNS]; they are greedy. *)
Inductive regex : Type :=
| Chr (cs : charset)
| Rep (cs : charset) (lo : nat) (hi : option nat)
| Grp (r : regex)
| Seq (r1 r2 : regex)
| Alt (r1 r2 : regex).

(** Length of the run of [cs] characters at the head of [s], stopped at the
    quantifier's upper bound. *)
Fixpoint run_length (cs : charset) (hi : option nat) (s : list ascii) : nat :=
  match hi, s with
  | Some O, _ => O
  | _, [] => O
  | _, c :: s' =>
      if cs c then S (run_length cs (pred <$> hi) s') else O
  end.

(** Greedy choice with backtracking: [n] repetitions first, then fewer, down
    to [lo]. *)
Fixpoint try_down {R} (n lo : nat) (s : list ascii)
    (k : list ascii -> option R) : option R :=
  if (n <? lo)%nat then None else
  match k (drop n s) with
  | Some r => Some r
  | None =>
      match n with
      | O => None
      | S n' => try_down n' lo s k
      end
  end.

(** The backtracking matcher, in continuation-passing style: [k] receives
    what is left of the subject and the groups closed so far. *)
Fixpoint exec {R} (r : regex) (s : list ascii) (caps : list (list ascii))
    (k : list ascii -> list (list ascii) -> option R) : option R :=
  match r with
  | Chr cs =>
      match s with
      | c :: s' => if cs c then k s' caps else None
      | [] => None
      end
  | Rep cs lo hi =>
      try_down (run_length cs hi s) lo s (fun s' => k s' caps)
  | Grp r1 =>
      exec r1 s caps
        (fun s' caps' => k s' (caps' ++ [take (length s - length s') s]))
  | Seq r1 r2 => exec r1 s caps (fun s' caps' => exec r2 s' caps' k)
  | Alt r1 r2 =>
      match exec r1 s caps k with
      | Some x => Some x
      | None => exec r2 s caps k
      end
  end.

(** [pattern.match(s)]: the groups of a match anchored at the start. *)
Definition match_ (r : regex) (s : list ascii) : option (list (list ascii)) :=
  exec r s [] (fun _ caps => Some caps).

(** [pattern.search(s).groups()]: the leftmost match. *)
Fixpoint search (r : regex) (s : list ascii) : option (list (list ascii)) :=
  match match_ r s with
  | Some g => Some g
  | None =>
      match s with
      | [] => None
      | _ :: s' => search r s'
      end
  end.

(** [rest] does not go on with a character of [cs]. *)
Definition stops (cs : charset) (rest : list ascii) : Prop :=
  match rest with
  | [] => True
  | c :: _ => cs c = false
  end.

(** The language of a pattern: [matches r s groups] when [r] matches the
    whole of [s], closing [groups] on the way. *)
Inductive matches : regex -> list ascii -> list (list ascii) -> Prop :=
| matches_chr cs c :
    cs c = true -> matches (Chr cs) [c] []
| matches_rep cs lo hi ds :
    forallb cs ds = true -> (lo <= length ds)%nat ->
    (forall h, hi = Some h -> (length ds <= h)%nat) ->
    matches (Rep cs lo hi) ds []
| matches_grp r s groups :
    matches r s groups -> matches (Grp r) s (groups ++ [s])
| matches_seq r1 r2 s1 s2 groups1 groups2 :
    matches r1 s1 groups1 -> matches r2 s2 groups2 ->
    matches (Seq r1 r2) (s1 ++ s2) (groups1 ++ groups2)
| matches_alt_l r1 r2 s groups :
    matches r1 s groups -> matches (Alt r1 r2) s groups
| matches_alt_r r1 r2 s groups :
    matches r2 s groups -> matches (Alt r1 r2) s groups.

(** No character set of [r] holds [c]. *)
Fixpoint avoids (c : ascii) (r : regex) : bool :=
  match r with
  | Chr cs => negb (cs c)
  | Rep cs _ _ => negb (cs c)
  | Grp r1 => avoids c r1
  | Seq r1 r2 => avoids c r1 && avoids c r2
  | Alt r1 r2 => avoids c r1 && avoids c r2
  end.

Definition lit (c : ascii) : charset := Ascii.eqb c.
Definition one_of (c1 c2 : ascii) : charset :=
  fun c => Ascii.eqb c1 c || Ascii.eqb c2 c.

Definition opt (cs : charset) : regex := Rep cs 0 (Some 1%nat).
Definition star (cs : charset) : regex := Rep cs 0 None.
Definition plus (cs : charset) : regex := Rep cs 1 None.

End Re.

(** ** [AclasPS6XParser] *)

Module AclasPS6XParser.
Import Re.

(** The [dict] that [parse] returns. *)
Record Frame : Type := mkFrame {
  product_id : string;
  weight : float;
  unit_price : float;
  total_price : float
}.

Definition digit : charset := Py.isdigit.

(** [\d+\.?\d*] and [[+-]?\d+\.?\d*] *)
Definition number : regex :=
  Seq (plus digit) (Seq (opt (lit ".")) (star digit)).
Definition signed_number : regex :=
  Seq (opt (one_of "+" "-")) number.

Inductive pattern_name : Type :=
| full
| plu_weight
| weight_only
| simple
| stable.

Definition PATTERNS (name : pattern_name) : regex :=
  match name with
  | full =>
      (* P ( \d{4,6} ) W ( [+-]?\d+\.?\d* ) U ( \d+\.?\d* ) T ( \d+\.?\d* ) *)
      Seq (Chr (lit "P")) (Seq (Grp (Rep digit 4 (Some 6%nat)))
     (Seq (Chr (lit "W")) (Seq (Grp signed_number)
     (Seq (Chr (lit "U")) (Seq (Grp number)
     (Seq (Chr (lit "T")) (Grp number)))))))
  | plu_weight =>
      (* P ( \d{4,6} ) W ( [+-]?\d+\.?\d* ) *)
      Seq (Chr (lit "P")) (Seq (Grp (Rep digit 4 (Some 6%nat)))
     (Seq (Chr (lit "W")) (Grp signed_number)))
  | weight_only =>
      (* W ( [+-]?\d+\.?\d* ) *)
      Seq (Chr (lit "W")) (Grp signed_number)
  | simple =>
      (* ( \d+\.?\d* ) \s* [kK] [gG] *)
      Seq (Grp number) (Seq (star Py.isspace)
     (Seq (Chr (one_of "k" "K")) (Chr (one_of "g" "G"))))
  | stable =>
      (* ST|STABLE, re.IGNORECASE *)
      let st := Seq (Chr (one_of "s" "S")) (Chr (one_of "t" "T")) in
      Alt st (Seq st (Seq (Chr (one_of "a" "A")) (Seq (Chr (one_of "b" "B"))
                     (Seq (Chr (one_of "l" "L")) (Chr (one_of "e" "E"))))))
  end.

Definition default_plu : string := "0000".

(** The body of the [try] of [parse]. *)
Definition parse_try (plu_prices : gmap string float) (data : list Byte.byte)
    : Py.result (option Frame) :=
  let text := Py.strip (Py.decode_ascii_ignore data) in
  match text with
  | [] => mret None
  | _ :: _ =>
  match search (PATTERNS full) text with
  | Some groups =>
      match groups with
      | [plu; weight; unit_price; total] =>
          w ← Py.float_of_str weight;
          u ← Py.float_of_str unit_price;
          t ← Py.float_of_str total;
          mret (Some (mkFrame (string_of_list_ascii plu) w u t))
      | _ => Py.Raise Py.ValueError
      end
  | None =>
  match search (PATTERNS plu_weight) text with
  | Some groups =>
      match groups with
      | [plu; weight] =>
          w ← Py.float_of_str weight;
          let plu := string_of_list_ascii plu in
          let u := default 0%float (plu_prices !! plu) in
          mret (Some (mkFrame plu w u (Py.round (w * u) 2)))
      | _ => Py.Raise Py.ValueError
      end
  | None =>
  match search (PATTERNS weight_only) text with
  | Some groups =>
      w ← Py.float_of_str (nth 0 groups []);
      mret (Some (mkFrame default_plu w 0 0))
  | None =>
  match search (PATTERNS simple) text with
  | Some groups =>
      w ← Py.float_of_str (nth 0 groups []);
      mret (Some (mkFrame default_plu w 0 0))
  | None => mret None
  end end end end end.

(** [parse]: whatever the body raises is caught ([except Exception]) and
    answered by [None]. *)
Definition parse (plu_prices : gmap string float) (data : list Byte.byte)
    : option Frame :=
  match parse_try plu_prices data with
  | Py.Ok r => r
  | Py.Raise _ => None
  end.

End AclasPS6XParser.

(** ** [StabilityBuffer] *)

Module StabilityBuffer.

Record t : Type := mk {
  readings : list float;
  last_sent_weight : option float;
  last_sent_time : option Py.datetime
}.

Definition add_reading (weight : float) (self : t) : t :=
  let readings := readings self ++ [weight] in
  mk (if (10 <? length readings)%nat then drop 1 readings else readings)
     (last_sent_weight self) (last_sent_time self).

Definition is_stable (threshold : float) (required_readings : Z) (self : t)
    : Py.result bool :=
  if Z.of_nat (length (readings self)) <? required_readings then mret false
  else
    let recent := Py.slice_from (readings self) (- required_readings) in
    hi ← Py.max recent;
    lo ← Py.min recent;
    mret (hi - lo <=? threshold)%float.

Definition get_stable_weight (self : t) : float :=
  Py.round (Py.sum (Py.slice_from (readings self) (-3)) / 3) 3.

(** [now] is the value of [datetime.now()], read only on the last line. *)
Definition is_duplicate (weight timeout : float) (now : Py.datetime)
    (self : t) : bool :=
  match last_sent_weight self with
  | None => false
  | Some last =>
      if (0.01 <? abs (weight - last))%float then false
      else
        match last_sent_time self with
        | None => false
        | Some sent => (Py.total_seconds now sent <? timeout)%float
        end
  end.

Definition mark_sent (weight : float) (now : Py.datetime) (self : t) : t :=
  mk (readings self) (Some weight) (Some now).

End StabilityBuffer.

(** ** State and exceptions

    A method that mutates [self] and may raise is a function from the state
    to a result and the state it leaves behind, also when it raises. *)

Definition M (S A : Type) : Type := S -> Py.result A * S.

#[global] Instance M_ret {S} : MRet (M S) := fun _ a s => (Py.Ok a, s).
#[global] Instance M_bind {S} : MBind (M S) := fun _ _ f m s =>
  match m s with
  | (Py.Ok a, s') => f a s'
  | (Py.Raise e, s') => (Py.Raise e, s')
  end.

Definition get {S} : M S S := fun s => (Py.Ok s, s).
Definition modify {S} (f : S -> S) : M S unit := fun s => (Py.Ok tt, f s).
Definition raise {S A} (e : Py.exn) : M S A := fun s => (Py.Raise e, s).
Definition lift_result {S A} (r : Py.result A) : M S A := fun s => (r, s).

(** [try: body except Exception: handler] *)
Definition try_except {S A} (body : M S A) (handler : Py.exn -> M S A)
    : M S A :=
  fun s =>
    match body s with
    | (Py.Ok a, s') => (Py.Ok a, s')
    | (Py.Raise e, s') => handler e s'
    end.

(** A method of a field run on the object that owns the field. *)
Definition zoom {S T A} (proj : S -> T) (upd : T -> S -> S) (m : M T A)
    : M S A :=
  fun s => let '(r, t') := m (proj s) in (r, upd t' s).

(** ** [ScaleReading] *)

(** [timestamp] holds [datetime.now().isoformat()]; the model keeps the
    instant that the text denotes. A reading stands for its JSON text
    ([to_json]) wherever it is written or sent. *)
Record ScaleReading : Type := mkReading {
  product_id : string;
  weight : float;
  unit_price : float;
  total_price : float;
  timestamp : Py.datetime
}.

(** [dataclasses.asdict(reading)]: the fields in the order of their
    declaration. The field [timestamp] is the text that [process_reading]
    stored, [isoformat()] of the instant that the record keeps. *)
Definition asdict (reading : ScaleReading) : Json.tree :=
  Json.TDict
    [("product_id", Json.TStr (product_id reading));
     ("weight", Json.TFloat (weight reading));
     ("unit_price", Json.TFloat (unit_price reading));
     ("total_price", Json.TFloat (total_price reading));
     ("timestamp", Json.TStr (Py.isoformat (timestamp reading)))].

(** [ScaleReading.to_json] *)
Definition to_json (reading : ScaleReading) : string :=
  Json.dumps (asdict reading).

(** ** [ScaleWebSocketServer] *)

Module ScaleWebSocketServer.

Definition client : Type := nat.

(** [clients] in the order in which [broadcast] iterates over the set;
    [sent] records, oldest first, every message a [client.send] delivered. *)
Record t : Type := mk {
  clients : list client;
  sent : list (client * ScaleReading)
}.

(** The body of the [for] loop of [broadcast]; [send c] tells how
    [client.send] ends for [c]: [None] when it returns, [Some e] when it
    raises [e]. Only [ConnectionClosed] is caught. *)
Fixpoint send_each (send : client -> option Py.exn) (message : ScaleReading)
    (cs : list client) (disconnected : list client) : M t (list client) :=
  match cs with
  | [] => mret disconnected
  | c :: cs' =>
      match send c with
      | None =>
          modify (fun self => mk (clients self) (sent self ++ [(c, message)]));;
          send_each send message cs' disconnected
      | Some Py.ConnectionClosed =>
          send_each send message cs' (disconnected ++ [c])
      | Some e => raise e
      end
  end.

Definition broadcast (send : client -> option Py.exn) (reading : ScaleReading)
    : M t unit :=
  self ← get;
  match clients self with
  | [] => mret tt
  | _ :: _ =>
      disconnected ← send_each send reading (clients self) [];
      modify (fun self =>
        mk (filter (fun c => c ∉ disconnected) (clients self)) (sent self))
  end.

(** *** [handler] *)

(** The messages that [handler] sends to its client. *)
Inductive Reply : Type :=
| Connected (timestamp : Py.datetime)
| Pong.

(** What leaves [handler]: an exception of [Py.exn], or the
    [AttributeError] of [data.get] on a value that is no [dict]. *)
Inductive handler_exn : Type :=
| AttributeError
| Raised (e : Py.exn).

(** A message of the client: how its decoding ends and, should [handler]
    answer it, how that [send] ends ([None] when it returns). *)
Record Message : Type := mkMessage {
  loads : Json.Loads;
  pong_send : option Py.exn
}.

(** What a connection brings: the clock at the welcome, how the [send] of
    the welcome ends, the messages, and how the iteration over the
    websocket ends after them ([None] when it just ends). *)
Record Connection : Type := mkConnection {
  welcome_now : Py.datetime;
  welcome_send : option Py.exn;
  messages : list Message;
  closing : option Py.exn
}.

(** [data.get('type') == 'ping'] on a [dict] *)
Definition is_ping (data : gmap string Json.value) : bool :=
  match data !! "type" with
  | Some (Json.VStr s) => String.eqb s "ping"
  | _ => false
  end.

(** The [async for] loop of [handler]: the exception that ends it, if one
    does, and the replies delivered. Only [json.JSONDecodeError] is caught
    inside the loop. *)
Fixpoint receive (ms : list Message) (closing : option Py.exn)
    (replies : list Reply) : option handler_exn * list Reply :=
  match ms with
  | [] => (Raised <$> closing, replies)
  | m :: ms' =>
      match loads m with
      | Json.JSONDecodeError => receive ms' closing replies
      | Json.LoadsRaises e => (Some (Raised e), replies)
      | Json.Loaded (Json.VDict data) =>
          if is_ping data then
            match pong_send m with
            | None => receive ms' closing (replies ++ [Pong])
            | Some e => (Some (Raised e), replies)
            end
          else receive ms' closing replies
      | Json.Loaded _ => (Some AttributeError, replies)
      end
  end.

(** [clients.add] and [clients.discard] *)
Definition add (c : client) (cs : list client) : list client :=
  if decide (c ∈ cs) then cs else cs ++ [c].

Definition discard (c : client) (cs : list client) : list client :=
  filter (fun x => x <> c) cs.

(** [handler], run with nothing else at work on [clients]: the exception
    that leaves it, if one does, the replies delivered to [websocket], and
    the server afterwards. [ConnectionClosed] is caught; the [finally]
    discards the client whatever happened. *)
Definition handler (websocket : client) (conn : Connection) (self : t)
    : option handler_exn * list Reply * t :=
  let self := mk (add websocket (clients self)) (sent self) in
  let '(raised, replies) :=
    match welcome_send conn with
    | None =>
        receive (messages conn) (closing conn)
          [Connected (welcome_now conn)]
    | Some e => (Some (Raised e), [])
    end in
  let raised :=
    match raised with
    | Some (Raised Py.ConnectionClosed) => None
    | _ => raised
    end in
  (raised, replies, mk (discard websocket (clients self)) (sent self)).

End ScaleWebSocketServer.

(** ** [TransactionLogger] *)

Module TransactionLogger.

(** The lines of the log file. *)
Record t : Type := mk { lines : list ScaleReading }.

(** [failure] tells how opening and writing the file ends: [None] when the
    line is appended, [Some e] when [e] is raised. *)
Definition log (failure : option Py.exn) (reading : ScaleReading) : M t unit :=
  try_except
    (match failure with
     | None => modify (fun self => mk (lines self ++ [reading]))
     | Some e => raise e
     end)
    (fun _ => mret tt).

(** *** [get_recent] *)

(** A line of the log file as [get_recent] meets it: blank, or a text with
    the way [json.loads] of it ends. What a text decodes to is not the
    program's doing. *)
Inductive LogLine : Type :=
| Blank
| Text (loads : Json.Loads).

(** What [get_recent] finds under [log_file]: no file, a file that cannot
    be opened, or its lines. *)
Inductive LogFile : Type :=
| Missing
| Unreadable
| Lines (lines : list LogLine).

(** The [for] loop of [get_recent], on the list [transactions] built so
    far; [None] when a line raises. *)
Fixpoint read_transactions (lines : list LogLine)
    (transactions : list Json.value) : option (list Json.value) :=
  match lines with
  | [] => Some transactions
  | Blank :: lines' => read_transactions lines' transactions
  | Text (Json.Loaded transaction) :: lines' =>
      read_transactions lines' (transactions ++ [transaction])
  | Text _ :: _ => None
  end.

(** [get_recent]: whatever is raised is caught and answered by the empty
    list. *)
Definition get_recent (count : Z) (file : LogFile) : list Json.value :=
  match file with
  | Missing => []
  | Unreadable => []
  | Lines lines =>
      match read_transactions lines [] with
      | Some transactions => Py.slice_from transactions (- count)
      | None => []
      end
  end.

(** A line of text as [get_recent] meets it, its line end included:
    [line.strip()] decides whether it is blank, [json.loads(line)] what it
    holds. *)
Definition line_of (text : string) : LogLine :=
  let line := (text ++ String "010" EmptyString)%string in
  match Py.strip (list_ascii_of_string line) with
  | [] => Blank
  | _ :: _ => Text (Json.loads line)
  end.

(** The file that [log] has written, as [get_recent] finds it: a line
    [reading.to_json()] for every reading. *)
Definition file_of (self : t) : LogFile :=
  Lines (map (fun reading => line_of (to_json reading)) (lines self)).

End TransactionLogger.

(** ** [ScaleMiddleware] *)

Module ScaleMiddleware.

(** [config['scale']] and [config['plu_prices']] *)
Record Config : Type := mkConfig {
  stability_threshold : float;
  stability_readings : Z;
  duplicate_timeout : float;
  plu_prices : gmap string float
}.

Definition DEFAULT_CONFIG : Config :=
  mkConfig 0.01 3 2.0
    (<["0001" := 850.00%float]> (<["0002" := 1200.00%float]>
    (<["0003" := 650.00%float]> (<["0004" := 480.00%float]>
    (<["0005" := 950.00%float]> ∅))))).

(** [port_open] says whether [scale_reader.serial_port] is set and open. *)
Record t : Type := mk {
  config : Config;
  stability : StabilityBuffer.t;
  ws_server : ScaleWebSocketServer.t;
  logger : TransactionLogger.t;
  port_open : bool
}.

Definition set_stability (b : StabilityBuffer.t) (self : t) : t :=
  mk (config self) b (ws_server self) (logger self) (port_open self).

Definition set_ws_server (w : ScaleWebSocketServer.t) (self : t) : t :=
  mk (config self) (stability self) w (logger self) (port_open self).

Definition set_logger (l : TransactionLogger.t) (self : t) : t :=
  mk (config self) (stability self) (ws_server self) l (port_open self).

Definition set_port_open (o : bool) (self : t) : t :=
  mk (config self) (stability self) (ws_server self) (logger self) o.

Definition with_stability (f : M StabilityBuffer.t unit) : M t unit :=
  zoom stability set_stability f.

Definition with_ws_server {A} (f : M ScaleWebSocketServer.t A) : M t A :=
  zoom ws_server set_ws_server f.

Definition with_logger {A} (f : M TransactionLogger.t A) : M t A :=
  zoom logger set_logger f.

(** What one call of [process_reading] meets outside the program: the three
    readings of the clock ([is_duplicate], the time stamp, [mark_sent]) and
    how the log write and each [client.send] end. *)
Record Env : Type := mkEnv {
  now_duplicate : Py.datetime;
  now_timestamp : Py.datetime;
  now_sent : Py.datetime;
  log_failure : option Py.exn;
  send : ScaleWebSocketServer.client -> option Py.exn
}.

(** [process_reading] up to [stable_weight = self.stability.get_stable_weight()]:
    [None] stands for the two early [return]s, [Some stable_weight] for
    reaching the duplicate check. *)
Definition process_reading_settle (weight : float) : M t (option float) :=
  if (weight <=? 0)%float then mret None
  else
    with_stability (modify (StabilityBuffer.add_reading weight));;
    self ← get;
    let scale_config := config self in
    stable ← lift_result
      (StabilityBuffer.is_stable (stability_threshold scale_config)
         (stability_readings scale_config) (stability self));
    if negb stable then mret None
    else mret (Some (StabilityBuffer.get_stable_weight (stability self))).

(** The [ScaleReading] that [process_reading] builds for a settled weight:
    the price of the frame or, when that is zero, of the PLU table. *)
Definition make_reading (scale_config : Config) (now : Py.datetime)
    (data : AclasPS6XParser.Frame) (stable_weight : float) : ScaleReading :=
  let product_id := AclasPS6XParser.product_id data in
  let unit_price := AclasPS6XParser.unit_price data in
  let unit_price :=
    if (unit_price =? 0)%float
    then default 0%float (plu_prices scale_config !! product_id)
    else unit_price in
  let total_price := Py.round (stable_weight * unit_price) 2 in
  mkReading product_id (Py.round stable_weight 3) unit_price total_price now.

(** [process_reading] from the duplicate check on. *)
Definition process_reading_emit (env : Env) (data : AclasPS6XParser.Frame)
    (stable_weight : float) : M t (option ScaleReading) :=
  self ← get;
  let scale_config := config self in
  if StabilityBuffer.is_duplicate stable_weight
       (duplicate_timeout scale_config) (now_duplicate env) (stability self)
  then mret None
  else
    let reading :=
      make_reading scale_config (now_timestamp env) data stable_weight in
    with_stability
      (modify (StabilityBuffer.mark_sent stable_weight (now_sent env)));;
    with_logger (TransactionLogger.log (log_failure env) reading);;
    with_ws_server (ScaleWebSocketServer.broadcast (send env) reading);;
    mret (Some reading).

(** [process_reading]. The method returns [None] on every path; the model
    returns the reading it handed to the sinks, if any. *)
Definition process_reading (env : Env) (data : AclasPS6XParser.Frame)
    : M t (option ScaleReading) :=
  settled ← process_reading_settle (AclasPS6XParser.weight data);
  match settled with
  | None => mret None
  | Some stable_weight => process_reading_emit env data stable_weight
  end.

(** How [serial_port.readline()] ends. *)
Inductive ReadOutcome : Type :=
| Line (data : list Byte.byte)
| SerialException.

(** How [scale_reader.connect()] ends: it returns [True]; it returns
    [False], which is what it makes of a [serial.SerialException]; or it
    raises, since nothing else is caught there, as [serial.Serial] does
    with [ValueError] for a serial setting that is out of range. *)
Inductive ConnectOutcome : Type :=
| Connected
| Refused
| ConnectRaises (e : Py.exn).

(** What one turn of the loop of [scale_reader_loop] meets outside the
    program. [connect] is consulted only when the port is closed. *)
Record Tick : Type := mkTick {
  connect : ConnectOutcome;
  readline : ReadOutcome;
  env : Env
}.

(** [SerialScaleReader.read_line], then [parse] as in [read_async]. *)
Definition read_async (r : ReadOutcome) : M t (option AclasPS6XParser.Frame) :=
  self ← get;
  if negb (port_open self) then mret None
  else
    match r with
    | Line [] => mret None
    | Line data =>
        mret (AclasPS6XParser.parse (plu_prices (config self)) data)
    | SerialException =>
        modify (set_port_open false);;
        mret None
    end.

(** The local variable [reconnect_delay] and, oldest first, the arguments of
    the calls of [asyncio.sleep] so far. *)
Record Loop : Type := mkLoop {
  self : t;
  reconnect_delay : float;
  slept : list float
}.

Definition max_delay : float := 30.0.

Definition on_self {A} (f : M t A) : M Loop A :=
  zoom self (fun s l => mkLoop s (reconnect_delay l) (slept l)) f.

Definition sleep (d : float) : M Loop unit :=
  modify (fun l => mkLoop (self l) (reconnect_delay l) (slept l ++ [d])).

Definition set_reconnect_delay (d : float) : M Loop unit :=
  modify (fun l => mkLoop (self l) d (slept l)).

Definition read_and_process (tk : Tick) : M Loop unit :=
  data ← on_self (read_async (readline tk));
  match data with
  | Some data => on_self (process_reading (env tk) data);; mret tt
  | None => sleep 0.1
  end.

(** One turn of the [while self.running] loop. What [connect] raises
    leaves the loop: nothing in [scale_reader_loop] catches it. *)
Definition loop_body (tk : Tick) : M Loop unit :=
  l ← get;
  if negb (port_open (self l)) then
    match connect tk with
    | Connected =>
        on_self (modify (set_port_open true));;
        set_reconnect_delay 1.0;;
        read_and_process tk
    | Refused =>
        sleep (reconnect_delay l);;
        set_reconnect_delay (Py.min2 (reconnect_delay l * 2) max_delay)
    | ConnectRaises e => raise e
    end
  else read_and_process tk.

(** [scale_reader_loop], for as many turns as [self.running] stays true. *)
Fixpoint loop_turns (ticks : list Tick) : M Loop unit :=
  match ticks with
  | [] => mret tt
  | tk :: ticks' => loop_body tk;; loop_turns ticks'
  end.

Definition scale_reader_loop (ticks : list Tick) (mw : t)
    : Py.result unit * Loop :=
  loop_turns ticks (mkLoop mw 1.0 []).

End ScaleMiddleware.

(** ** Vocabulary of the statements *)

Module Frames.

(** A decimal token: digits, or digits, a point and digits. *)
Record Number : Type := mkNumber {
  int_digits : list ascii;
  point : bool;
  frac_digits : list ascii
}.

Definition number_ok (n : Number) : bool :=
  forallb Py.isdigit (int_digits n)
  && negb (Nat.eqb (length (int_digits n)) 0)
  && forallb Py.isdigit (frac_digits n)
  && (point n || Nat.eqb (length (frac_digits n)) 0).

Definition number_text (n : Number) : list ascii :=
  int_digits n ++ (if point n then "."%char :: frac_digits n else []).

(** The binary64 number nearest to the decimal that the token denotes. *)
Definition number_value (n : Number) : float :=
  Py.float_of_pos_ratio (Py.digits_value (int_digits n ++ frac_digits n))
    (10 ^ Z.of_nat (length (frac_digits n))).

Inductive Sign : Type :=
| Unsigned
| Plus
| Minus.

Record Signed : Type := mkSigned {
  sign : Sign;
  magnitude : Number
}.

Definition signed_text (s : Signed) : list ascii :=
  match sign s with
  | Unsigned => []
  | Plus => ["+"%char]
  | Minus => ["-"%char]
  end ++ number_text (magnitude s).

Definition signed_value (s : Signed) : float :=
  match sign s with
  | Minus => (- number_value (magnitude s))%float
  | _ => number_value (magnitude s)
  end.

(** A frame of the Full format. *)
Record Full : Type := mkFull {
  code : list ascii;
  net : Signed;
  price : Number;
  total : Number
}.

Definition full_ok (f : Full) : bool :=
  forallb Py.isdigit (code f)
  && Nat.leb 4 (length (code f)) && Nat.leb (length (code f)) 6
  && number_ok (magnitude (net f))
  && number_ok (price f)
  && number_ok (total f).

Definition full_text (f : Full) : list ascii :=
  "P"%char :: code f ++ "W"%char :: signed_text (net f)
    ++ "U"%char :: number_text (price f)
    ++ "T"%char :: number_text (total f).

Definition full_frame (f : Full) : AclasPS6XParser.Frame :=
  AclasPS6XParser.mkFrame (string_of_list_ascii (code f))
    (signed_value (net f)) (number_value (price f)) (number_value (total f)).

Definition encode (s : list ascii) : list Byte.byte := map byte_of_ascii s.

(** The characters of a frame: digits, the four tags, signs and the point. *)
Definition frame_char (c : ascii) : bool :=
  Py.isdigit c
  || existsb (Ascii.eqb c) ["P"; "W"; "U"; "T"; "+"; "-"; "."]%char.

(** What follows a frame leaves its last token alone: it does not begin
    with a digit, nor with a point when the token has none. *)
Definition clean_after (last : Number) (post : list ascii) : bool :=
  match post with
  | [] => true
  | c :: _ =>
      negb (Py.isdigit c) && (point last || negb (Ascii.eqb c "."))
  end.

(** The frame of the scenario: [P0002W+002.500U1200.00T3000.00]. *)
Definition frame_0002 : Full :=
  mkFull (list_ascii_of_string "0002")
    (mkSigned Plus (mkNumber (list_ascii_of_string "002") true
                      (list_ascii_of_string "500")))
    (mkNumber (list_ascii_of_string "1200") true (list_ascii_of_string "00"))
    (mkNumber (list_ascii_of_string "3000") true (list_ascii_of_string "00")).

End Frames.

(** ** Vocabulary of the statements on the stability filter *)

Module Readings.
Import ScaleMiddleware.

(** The last [n] items of [l], all of [l] when it has no more. *)
Definition last_n {A} (n : nat) (l : list A) : list A :=
  drop (length l - n) l.

(** [max(l) - min(l) <= threshold] *)
Definition spread_within (threshold : float) (l : list float) : bool :=
  match Py.max l, Py.min l with
  | Py.Ok hi, Py.Ok lo => (hi - lo <=? threshold)%float
  | _, _ => false
  end.

(** The guard [weight <= 0] of [process_reading] lets [w] through. *)
Definition positive (w : float) : Prop := (w <=? 0)%float = false.

Definition weights (inputs : list (Env * AclasPS6XParser.Frame))
    : list float :=
  map (fun i => AclasPS6XParser.weight (snd i)) inputs.

(** Successive calls of [process_reading], as long as none raises. *)
Fixpoint process_readings (inputs : list (Env * AclasPS6XParser.Frame))
    : M t unit :=
  match inputs with
  | [] => mret tt
  | (env, data) :: inputs' =>
      process_reading env data;; process_readings inputs'
  end.

(** What [process_reading] does with a settled weight that the duplicate
    check lets through: the result and the state left behind. *)
Definition emitted (env : Env) (data : AclasPS6XParser.Frame)
    (stable_weight : float) (mw : t) : Py.result (option ScaleReading) * t :=
  let reading :=
    make_reading (config mw) (now_timestamp env) data stable_weight in
  let marked :=
    StabilityBuffer.mark_sent stable_weight (now_sent env) (stability mw) in
  let logged :=
    snd (TransactionLogger.log (log_failure env) reading (logger mw)) in
  let '(r, ws) :=
    ScaleWebSocketServer.broadcast (send env) reading (ws_server mw) in
  (match r with
   | Py.Ok _ => Py.Ok (Some reading)
   | Py.Raise e => Py.Raise e
   end, mk (config mw) marked ws logged (port_open mw)).



(** A middleware that has read nothing yet and has no listener. *)
Definition fresh (cfg : Config) : t :=
  mk cfg (StabilityBuffer.mk [] None None) (ScaleWebSocketServer.mk [] [])
    (TransactionLogger.mk []) false.

(** A frame of the Weight-only format. *)
Definition weight_only_frame (w : float) : AclasPS6XParser.Frame :=
  AclasPS6XParser.mkFrame AclasPS6XParser.default_plu w 0 0.

(** A call at instant [now] whose log write and sends all succeed. *)
Definition calm (now : Py.datetime) : Env :=
  mkEnv now now now None (fun _ => None).

(** The scenario of three samples 2.001, 2.002, 2.000, a tenth of a second
    apart, and the middleware after the first two and after all three. *)
Definition scenario : list (Env * AclasPS6XParser.Frame) :=
  [(calm 0, weight_only_frame 2.001); (calm 100000, weight_only_frame 2.002);
   (calm 200000, weight_only_frame 2.000)].

Definition after_two : t :=
  snd (process_readings (take 2 scenario) (fresh DEFAULT_CONFIG)).

Definition after_scenario : t :=
  snd (process_readings scenario (fresh DEFAULT_CONFIG)).

(** A configuration that asks for [n] stable readings. *)
Definition config_readings (n : Z) : Config := mkConfig 0.01 n 2.0 ∅.

End Readings.

(** ** Vocabulary of the statements on the loop *)

Module Backoff.
Import ScaleMiddleware.

(** [min(2**n, 30)] seconds: 1, 2, 4, 8, 16, 30, 30, ... *)
Definition capped_doubling (n : nat) : float :=
  Py.float_of_ratio (Z.min (2 ^ Z.of_nat n) 30) 1.

(** The delays that the loop can hold. *)
Definition ladder : list float := [1; 2; 4; 8; 16; 30]%float.

Definition connect_fails (tk : Tick) : Prop := connect tk = Refused.
Definition connect_succeeds (tk : Tick) : Prop := connect tk = Connected.


(** A turn in which the connection attempt fails. *)
Definition failed_connect : Tick :=
  mkTick Refused (Line []) (Readings.calm 0).

(** A turn in which the connection attempt, if any, succeeds and the read
    ends with [SerialException]. *)
Definition connect_then_read_error : Tick :=
  mkTick Connected SerialException (Readings.calm 0).

(** The middleware after the first two samples of the scenario, its port
    open, with listeners 1 and 2. *)
Definition two_listeners : t :=
  set_port_open true
    (set_ws_server (ScaleWebSocketServer.mk [1%nat; 2%nat] [])
       Readings.after_two).

(** A turn that reads the line [W+002.000] while the send to listener 1
    raises [e]. *)
Definition third_sample (e : Py.exn) : Tick :=
  mkTick Connected (Line (list_byte_of_string "W+002.000"))
    (mkEnv 200000 200000 200000 None
       (fun c => if Nat.eqb c 1 then Some e else None)).

End Backoff.

(** ** Vocabulary of the statements on the other formats *)

Module Formats.
Import Frames.

(** [s] occurs in [text]. *)
Definition occurs (s text : list ascii) : Prop :=
  exists pre post, text = pre ++ s ++ post.

(** A frame of the PLU format, [P<code>W<weight>]. *)
Record Plu : Type := mkPlu {
  plu_code : list ascii;
  plu_net : Signed
}.

Definition plu_ok (p : Plu) : bool :=
  forallb Py.isdigit (plu_code p)
  && Nat.leb 4 (length (plu_code p)) && Nat.leb (length (plu_code p)) 6
  && number_ok (magnitude (plu_net p)).

Definition plu_text (p : Plu) : list ascii :=
  "P"%char :: plu_code p ++ "W"%char :: signed_text (plu_net p).

(** What [parse] makes of a PLU frame: the unit price of the table, zero for
    a code that the table does not hold, and the total rounded to cents. *)
Definition plu_frame (plu_prices : gmap string float) (p : Plu)
    : AclasPS6XParser.Frame :=
  let plu := string_of_list_ascii (plu_code p) in
  let w := signed_value (plu_net p) in
  let u := default 0%float (plu_prices !! plu) in
  AclasPS6XParser.mkFrame plu w u (Py.round (w * u) 2).

(** A frame of the Weight-only format, [W<weight>]. *)
Definition weight_text (s : Signed) : list ascii :=
  "W"%char :: signed_text s.

(** A frame of the simple format, [<weight>kg] with blanks before the unit
    and either case of its letters. *)
Record Simple : Type := mkSimple {
  amount : Number;
  blanks : list ascii;
  kilo : ascii;
  gram : ascii
}.

Definition simple_ok (s : Simple) : bool :=
  number_ok (amount s) && forallb Py.isspace (blanks s)
  && Re.one_of "k" "K" (kilo s) && Re.one_of "g" "G" (gram s).

Definition simple_text (s : Simple) : list ascii :=
  number_text (amount s) ++ blanks s ++ [kilo s; gram s].

(** The frame of a bare weight: the default product and no prices. *)
Definition bare_frame (w : float) : AclasPS6XParser.Frame :=
  AclasPS6XParser.mkFrame AclasPS6XParser.default_plu w 0 0.

(** The text that [parse] searches. *)
Definition text_of (data : list Byte.byte) : list ascii :=
  Py.strip (Py.decode_ascii_ignore data).

(** A frame of the format occurs in the text. *)
Definition holds_full (text : list ascii) : Prop :=
  exists f, full_ok f = true /\ occurs (full_text f) text.

Definition holds_plu (text : list ascii) : Prop :=
  exists p, plu_ok p = true /\ occurs (plu_text p) text.

Definition holds_weight (text : list ascii) : Prop :=
  exists s, number_ok (magnitude s) = true /\ occurs (weight_text s) text.

Definition holds_simple (text : list ascii) : Prop :=
  exists m, simple_ok m = true /\ occurs (simple_text m) text.

End Formats.

(** ** Vocabulary of the statements on what the loop keeps *)

Module Invariants.
Import ScaleMiddleware.

(** What no method of the loop undoes: the configuration stays, the log
    and the record of sent messages grow at their ends, and the clients
    are among those there were. *)
Definition keeps (mw mw' : t) : Prop :=
  config mw' = config mw
  /\ TransactionLogger.lines (logger mw)
     `prefix_of` TransactionLogger.lines (logger mw')
  /\ ScaleWebSocketServer.sent (ws_server mw)
     `prefix_of` ScaleWebSocketServer.sent (ws_server mw')
  /\ ScaleWebSocketServer.clients (ws_server mw')
     `sublist_of` ScaleWebSocketServer.clients (ws_server mw).

(** The readings of the buffer after a method: those before, or those
    before and one more through [add_reading]. *)
Definition buffer_step (mw mw' : t) : Prop :=
  StabilityBuffer.readings (stability mw')
  = StabilityBuffer.readings (stability mw)
  \/ exists w,
       StabilityBuffer.readings (stability mw')
       = StabilityBuffer.readings
           (StabilityBuffer.add_reading w (stability mw)).

End Invariants.


(** ** Vocabulary of the statements on [handler] *)

Module Sessions.
Import ScaleWebSocketServer.

(** The message is a ping: it decodes to a [dict] whose [type] is the
    string [ping]. *)
Definition ping (m : Message) : bool :=
  match loads m with
  | Json.Loaded (Json.VDict data) => is_ping data
  | _ => false
  end.

(** The message is no JSON text, or decodes to a [dict]; and the answer,
    if it is a ping, is delivered. *)
Definition harmless (m : Message) : bool :=
  match loads m with
  | Json.JSONDecodeError => true
  | Json.Loaded (Json.VDict data) =>
      negb (is_ping data) || bool_decide (pong_send m = None)
  | _ => false
  end.

(** The value is no [dict]. *)
Definition no_dict (v : Json.value) : bool :=
  match v with
  | Json.VDict _ => false
  | _ => true
  end.

End Sessions.

(** ** Vocabulary of the statements on [get_recent] *)

Module Logs.
Import TransactionLogger.

(** The line is blank or decodes. *)
Definition readable (line : LogLine) : bool :=
  match line with
  | Blank => true
  | Text (Json.Loaded _) => true
  | Text _ => false
  end.

(** What the lines that are not blank decode to, in the order of the
    file. *)
Definition decoded (lines : list LogLine) : list Json.value :=
  omap (fun line =>
          match line with
          | Text (Json.Loaded transaction) => Some transaction
          | _ => None
          end) lines.

End Logs.

(** ** Vocabulary of the statements on numbers and their texts *)

Module Decimals.

(** The exponent that [float_of_pos_ratio] gives [n / d]: the one that
    brings the quotient into [2^52, 2^53), or the least exponent of
    binary64 when the quotient is too small for that. *)
Definition exponent_of_ratio (n d : Z) : Z :=
  let e0 := Z.max (-1074) (Z.log2 n - Z.log2 d - 53) in
  let '(a, b) := Py.scaled n d e0 in
  if 2 ^ 53 <=? a / b then e0 + 1 else e0.

(** Significand and exponent of a finite binary64 number. *)
Definition canonical (m : positive) (e : Z) : Prop :=
  -1074 <= e <= 971 /\ Z.pos m < 2 ^ 53 /\ (-1074 < e -> 2 ^ 52 <= Z.pos m).

(** [k * 10^j] is within half a unit in the last place of [m * 2^e], and
    within a quarter of a unit from below at the start of a binade. *)
Definition near (m : positive) (e k j : Z) : Prop :=
  0 < k
  /\ (2 * Z.pos m - 1) * (2 ^ (e + 1074) * 10 ^ 1000)
       < 2 * (k * 10 ^ (1000 + j) * 2 ^ 1074)
  /\ 2 * (k * 10 ^ (1000 + j) * 2 ^ 1074)
       < (2 * Z.pos m + 1) * (2 ^ (e + 1074) * 10 ^ 1000)
  /\ (Z.pos m = 2 ^ 52 -> -1074 < e ->
      (4 * Z.pos m - 1) * (2 ^ (e + 1074) * 10 ^ 1000)
        <= 4 * (k * 10 ^ (1000 + j) * 2 ^ 1074)).

(** Digits, and one at least. *)
Definition digits_ok (ds : list ascii) : bool :=
  forallb Py.isdigit ds && negb (Nat.eqb (length ds) 0).

Definition literal_ok (l : Py.Literal) : bool :=
  digits_ok (Py.int_part l)
  && match Py.frac_part l with
     | Some fp => digits_ok fp
     | None => true
     end
  && match Py.exponent l with
     | Some (_, ds) => digits_ok ds
     | None => true
     end.

(** The literal is a number of JSON that is read as a [float]: no zero
    before another digit of the integer part, and a fraction or an
    exponent. *)
Definition json_float (l : Py.Literal) : bool :=
  match Py.int_part l with
  | c :: _ :: _ => negb (Ascii.eqb c "0")
  | _ => true
  end
  && (match Py.frac_part l with Some _ => true | None => false end
      || match Py.exponent l with Some _ => true | None => false end).

(** The digits of the literal as a whole number, and the power of ten that
    scales it. *)
Definition literal_digits (l : Py.Literal) : Z :=
  Py.digits_value (Py.int_part l ++ default [] (Py.frac_part l)).

Definition literal_scale (l : Py.Literal) : Z :=
  match Py.exponent l with
  | Some (neg, ds) => if neg then - Py.digits_value ds else Py.digits_value ds
  | None => 0
  end - Z.of_nat (length (default [] (Py.frac_part l))).

(** The binary64 number nearest to the decimal that the literal denotes. *)
Definition literal_value (l : Py.Literal) : float :=
  let v := Py.float_of_decimal (literal_digits l) (literal_scale l) in
  if Py.minus l then (- v)%float else v.

(** Neither NaN nor an infinity. *)
Definition finite (x : float) : bool :=
  match Prim2SF x with
  | S754_nan | S754_infinity _ => false
  | _ => true
  end.

(** What can follow a number in a JSON text. *)
Definition number_end (rest : list ascii) : bool :=
  match rest with
  | [] => true
  | c :: _ =>
      negb (Py.isdigit c) && negb (Ascii.eqb c ".")
      && negb (Ascii.eqb c "e") && negb (Ascii.eqb c "E")
  end.

(** String and float values, the values of the fields of a reading. *)
Definition scalar (t : Json.tree) : bool :=
  match t with
  | Json.TStr _ | Json.TFloat _ => true
  | _ => false
  end.

(** The text of one item of a [dict], and the [dict] that holds [pairs]
    and then the items [d]. *)
Definition item_text (kv : string * Json.tree) : list ascii :=
  Json.encode_basestring_ascii (list_ascii_of_string (fst kv))
  ++ ":"%char :: " "%char :: Json.encode (snd kv).

Definition dict_of (d : list (string * Json.tree))
    (pairs : gmap string Json.value) : gmap string Json.value :=
  fold_left (fun acc kv => <[fst kv := Json.denote (snd kv)]> acc) d pairs.

(** [s] with a double quote for every single quote. *)
Definition double_quoted (s : string) : string :=
  string_of_list_ascii
    (map (fun c => if Ascii.eqb c "'" then Json.quote else c)
       (list_ascii_of_string s)).

(** The characters from the space to the tilde: no line break is among
    them. *)
Definition printable (c : ascii) : bool :=
  let n := N_of_ascii c in ((32 <=? n) && (n <=? 126))%N.

(** The five fields as [dataclasses.asdict] gives them, and as
    [json.loads] returns them. *)
Definition fields (product_id : string) (weight unit_price total_price : float)
    (timestamp : string) : Json.tree :=
  Json.TDict
    [("product_id", Json.TStr product_id);
     ("weight", Json.TFloat weight);
     ("unit_price", Json.TFloat unit_price);
     ("total_price", Json.TFloat total_price);
     ("timestamp", Json.TStr timestamp)].

Definition fields_read (product_id : string)
    (weight unit_price total_price : float) (timestamp : string)
    : Json.value :=
  Json.VDict
    {[ "product_id" := Json.VStr product_id;
       "weight" := Json.VFloat weight;
       "unit_price" := Json.VFloat unit_price;
       "total_price" := Json.VFloat total_price;
       "timestamp" := Json.VStr timestamp ]}.

(** The [dict] of the five fields of a reading, with the values they
    have. *)
Definition record (reading : ScaleReading) : Json.value :=
  Json.VDict
    {[ "product_id" := Json.VStr (product_id reading);
       "weight" := Json.VFloat (weight reading);
       "unit_price" := Json.VFloat (unit_price reading);
       "total_price" := Json.VFloat (total_price reading);
       "timestamp" := Json.VStr (Py.isoformat (timestamp reading)) ]}.

End Decimals.

(** * Properties *)

#[local] Arguments Ascii.eqb : simpl never.
#[local] Arguments Py.isdigit : simpl never.
#[local] Arguments Py.isspace : simpl never.

(** ** The matcher on greedy runs *)

Section Matcher.
Import Re.
Context {R : Type}.
Implicit Types (s rest ds : list ascii) (k : list ascii -> list (list ascii) -> option R).

Lemma try_down_greedy n lo s (k : list ascii -> option R) r :
  (lo <= n)%nat -> k (drop n s) = Some r -> try_down n lo s k = Some r.
Proof.
  intros Hle Hk. destruct n as [|n]; simpl.
  - destruct lo; [|lia]. simpl in *. now rewrite Hk.
  - destruct (Nat.ltb_spec (S n) lo) as [?|_]; [lia|]. now rewrite Hk.
Qed.

Lemma run_length_app cs hi ds rest :
  forallb cs ds = true ->
  stops cs rest \/ hi = Some (length ds) ->
  match hi with Some h => (length ds <= h)%nat | None => True end ->
  run_length cs hi (ds ++ rest) = length ds.
Proof.
  revert hi. induction ds as [|c ds IH]; intros hi Hall Hstop Hhi; simpl in *.
  - destruct rest as [|c rest]; [now destruct hi as [[|h]|]|].
    destruct hi as [[|h]|]; [reflexivity| |];
      (destruct Hstop as [Hs|Hs]; [|discriminate Hs]; simpl in Hs |- *; now rewrite Hs).
  - apply andb_prop in Hall as [Hc Hall]. rewrite Hc.
    destruct hi as [[|h]|]; simpl in *; try lia.
    + f_equal. apply IH; auto; [|lia].
      destruct Hstop as [?|Heq]; [now left|right; congruence].
    + f_equal. apply IH; auto. destruct Hstop as [?|Heq]; [now left|discriminate Heq].
Qed.

Lemma exec_rep cs lo hi ds rest caps k r :
  forallb cs ds = true ->
  stops cs rest \/ hi = Some (length ds) ->
  (lo <= length ds)%nat ->
  match hi with Some h => (length ds <= h)%nat | None => True end ->
  k rest caps = Some r ->
  exec (Rep cs lo hi) (ds ++ rest) caps k = Some r.
Proof.
  intros Hall Hstop Hlo Hhi Hk. simpl.
  rewrite run_length_app by assumption.
  apply try_down_greedy; [assumption|].
  now rewrite drop_app_length.
Qed.

Lemma exec_seq r1 r2 s caps k :
  exec (Seq r1 r2) s caps k
  = exec r1 s caps (fun s' caps' => exec r2 s' caps' k).
Proof. reflexivity. Qed.

Lemma exec_chr cs c s caps k :
  cs c = true -> exec (Chr cs) (c :: s) caps k = k s caps.
Proof. intros H. simpl. now rewrite H. Qed.

Lemma exec_grp r0 tok rest caps k r :
  (forall k', k' rest caps = Some r -> exec r0 (tok ++ rest) caps k' = Some r) ->
  k rest (caps ++ [tok]) = Some r ->
  exec (Grp r0) (tok ++ rest) caps k = Some r.
Proof.
  intros Hr Hk. simpl. apply Hr.
  rewrite length_app, Nat.add_sub, take_app_length. exact Hk.
Qed.

End Matcher.

(** ** Tokens and frames *)

Section Tokens.
Import Re AclasPS6XParser Frames.
Context {R : Type}.
Implicit Types (k : list ascii -> list (list ascii) -> option R).

Lemma number_ok_inv n :
  number_ok n = true ->
  forallb Py.isdigit (int_digits n) = true /\ (1 <= length (int_digits n))%nat /\
  forallb Py.isdigit (frac_digits n) = true /\
  (point n = false -> frac_digits n = []).
Proof.
  unfold number_ok. rewrite !andb_true_iff, orb_true_iff, negb_true_iff.
  rewrite !Nat.eqb_eq, Nat.eqb_neq.
  intros [[[Hi Hlen] Hf] Hp]. repeat split; auto; [lia|].
  intros Hpt. destruct Hp as [Hp|Hp]; [congruence|].
  now destruct (frac_digits n).
Qed.

Lemma clean_after_stops n rest :
  clean_after n rest = true ->
  stops digit rest /\ (point n = false -> stops (lit ".") rest).
Proof.
  destruct rest as [|c rest]; simpl; [easy|].
  rewrite andb_true_iff, negb_true_iff, orb_true_iff, negb_true_iff.
  intros [Hd Hp]. split; [exact Hd|]. intros Hpt.
  destruct Hp as [Hp|Hp]; [congruence|]. unfold lit.
  simpl. now rewrite Ascii.eqb_sym.
Qed.

Lemma exec_number n rest caps k r :
  number_ok n = true -> clean_after n rest = true ->
  k rest caps = Some r ->
  exec number (number_text n ++ rest) caps k = Some r.
Proof.
  intros Hok Hclean Hk.
  apply number_ok_inv in Hok as (Hi & Hlen & Hf & Hp).
  apply clean_after_stops in Hclean as [Hd Hdot].
  unfold number, number_text. rewrite <- app_assoc.
  rewrite exec_seq.
  apply exec_rep; [exact Hi| |exact Hlen|exact I|].
  { left. destruct (point n); [reflexivity|exact Hd]. }
  rewrite exec_seq.
  destruct (point n) eqn:Hpt.
  - change (("."%char :: frac_digits n) ++ rest)
      with (["."%char] ++ (frac_digits n ++ rest)).
    apply exec_rep; [reflexivity|now right|simpl; lia|simpl; lia|].
    apply exec_rep; [exact Hf|now left|lia|exact I|exact Hk].
  - change ([] ++ rest) with ([] ++ ([] ++ rest)).
    apply exec_rep; [reflexivity|left; now apply Hdot|simpl; lia|simpl; lia|].
    apply exec_rep; [reflexivity|now left|simpl; lia|exact I|exact Hk].
Qed.

Lemma exec_signed s rest caps k r :
  number_ok (magnitude s) = true -> clean_after (magnitude s) rest = true ->
  k rest caps = Some r ->
  exec signed_number (signed_text s ++ rest) caps k = Some r.
Proof.
  intros Hok Hclean Hk.
  pose proof (number_ok_inv _ Hok) as (Hi & Hlen & _).
  unfold signed_number, signed_text. rewrite <- app_assoc.
  rewrite exec_seq.
  assert (Hhead : stops (one_of "+" "-") (number_text (magnitude s) ++ rest)).
  { unfold number_text. destruct (int_digits (magnitude s)) as [|c ds];
      [simpl in Hlen; lia|].
    simpl in *. apply andb_prop in Hi as [Hc _].
    destruct c as [[] [] [] [] [] [] [] []]; try discriminate Hc; reflexivity. }
  destruct (sign s).
  - apply exec_rep; [reflexivity|now left|simpl; lia|simpl; lia|].
    now apply exec_number.
  - apply (exec_rep _ _ _ ["+"%char]);
      [reflexivity|now right|simpl; lia|simpl; lia|].
    now apply exec_number.
  - apply (exec_rep _ _ _ ["-"%char]);
      [reflexivity|now right|simpl; lia|simpl; lia|].
    now apply exec_number.
Qed.

End Tokens.

Section FullFrame.
Import Re AclasPS6XParser Frames.

Lemma clean_after_literal n (c : ascii) rest :
  Py.isdigit c = false -> Ascii.eqb c "." = false ->
  clean_after n (c :: rest) = true.
Proof.
  intros Hd Hp. unfold clean_after. rewrite Hd, Hp. simpl. apply orb_true_r.
Qed.

Lemma match_full f rest :
  full_ok f = true -> clean_after (total f) rest = true ->
  match_ (PATTERNS full) (full_text f ++ rest)
  = Some [code f; signed_text (net f); number_text (price f);
          number_text (total f)].
Proof.
  unfold full_ok. rewrite !andb_true_iff, !Nat.leb_le.
  intros [[[[[Hc Hlo] Hhi] Hw] Hu] Ht] Hclean.
  unfold match_, full_text. cbn [PATTERNS].
  rewrite exec_seq, <- app_comm_cons, exec_chr by reflexivity.
  rewrite exec_seq, <- app_assoc.
  apply exec_grp.
  { intros k' Hk'. apply exec_rep; [exact Hc|now left|exact Hlo|exact Hhi|exact Hk']. }
  rewrite exec_seq, <- app_comm_cons, exec_chr by reflexivity.
  rewrite exec_seq, <- app_assoc.
  apply exec_grp.
  { intros k' Hk'. apply exec_signed; [exact Hw| |exact Hk'].
    now apply clean_after_literal. }
  rewrite exec_seq, <- app_comm_cons, exec_chr by reflexivity.
  rewrite exec_seq, <- app_assoc.
  apply exec_grp.
  { intros k' Hk'. apply exec_number; [exact Hu| |exact Hk'].
    now apply clean_after_literal. }
  rewrite exec_seq, <- app_comm_cons, exec_chr by reflexivity.
  apply exec_grp; [|reflexivity].
  intros k' Hk'. now apply exec_number.
Qed.

Lemma span_digits_app ds rest :
  forallb Py.isdigit ds = true -> stops Py.isdigit rest ->
  Py.span_digits (ds ++ rest) = (ds, rest).
Proof.
  intros Hds Hrest. induction ds as [|c ds IH]; simpl in *.
  - destruct rest as [|c rest]; [reflexivity|]. simpl in *. now rewrite Hrest.
  - apply andb_prop in Hds as [Hc Hds]. now rewrite Hc, IH.
Qed.

Lemma split_sign_digit c s :
  Py.isdigit c = true -> Py.split_sign (c :: s) = (false, c :: s).
Proof.
  intros Hc. destruct c as [[] [] [] [] [] [] [] []];
    try discriminate Hc; reflexivity.
Qed.

Lemma float_of_digits (neg : bool) (n : Number) :
  number_ok n = true ->
  match Py.span_digits (number_text n) with
  | (ip, s2) =>
      match Py.split_fraction s2 with
      | (fp, s3) =>
          match s3, ip ++ fp with
          | [], _ :: _ =>
              Py.Ok (let v := Py.float_of_pos_ratio (Py.digits_value (ip ++ fp))
                                (10 ^ Z.of_nat (length fp)) in
                     if neg then (- v)%float else v)
          | _, _ => Py.Raise Py.ValueError
          end
      end
  end = Py.Ok (if neg then (- number_value n)%float else number_value n).
Proof.
  intros Hok. apply number_ok_inv in Hok as (Hi & Hlen & Hf & Hp).
  unfold number_text, number_value. destruct (point n).
  - rewrite span_digits_app by (auto; reflexivity).
    cbn [Py.split_fraction].
    rewrite <- (app_nil_r (frac_digits n)) at 1.
    rewrite span_digits_app by (auto; exact I).
    destruct (int_digits n) as [|c ds]; [simpl in Hlen; lia|]. reflexivity.
  - rewrite Hp by reflexivity. rewrite !app_nil_r.
    rewrite <- (app_nil_r (int_digits n)) at 1.
    rewrite span_digits_app by (auto; exact I).
    destruct (int_digits n) as [|c ds]; [simpl in Hlen; lia|].
    simpl. now rewrite !app_nil_r.
Qed.

Lemma float_of_number n :
  number_ok n = true -> Py.float_of_str (number_text n) = Py.Ok (number_value n).
Proof.
  intros Hok. unfold Py.float_of_str.
  pose proof (number_ok_inv _ Hok) as (Hi & Hlen & _).
  assert (Hs : Py.split_sign (number_text n) = (false, number_text n)).
  { unfold number_text. destruct (int_digits n) as [|c ds];
      [simpl in Hlen; lia|].
    simpl in Hi. apply andb_prop in Hi as [Hc _].
    now apply split_sign_digit. }
  rewrite Hs. exact (float_of_digits false n Hok).
Qed.

Lemma float_of_signed s :
  number_ok (magnitude s) = true ->
  Py.float_of_str (signed_text s) = Py.Ok (signed_value s).
Proof.
  intros Hok. unfold signed_text, signed_value. destruct (sign s).
  - now apply float_of_number.
  - unfold Py.float_of_str. cbn [app Py.split_sign].
    exact (float_of_digits false _ Hok).
  - unfold Py.float_of_str. cbn [app Py.split_sign].
    exact (float_of_digits true _ Hok).
Qed.

End FullFrame.

(** ** Decoding and stripping *)

Section Text.
Import Frames.

Lemma decode_app a b :
  Py.decode_ascii_ignore (a ++ b)
  = Py.decode_ascii_ignore a ++ Py.decode_ascii_ignore b.
Proof. unfold Py.decode_ascii_ignore. now rewrite filter_app, map_app. Qed.

Lemma frame_char_spec c :
  frame_char c = true ->
  Py.is_ascii (byte_of_ascii c) = true /\ Py.isspace c = false.
Proof.
  destruct c as [[] [] [] [] [] [] [] []]; intros H;
    try discriminate H; split; reflexivity.
Qed.

Lemma decode_encode s :
  Forall (fun c => frame_char c = true) s ->
  Py.decode_ascii_ignore (encode s) = s.
Proof.
  unfold Py.decode_ascii_ignore, encode. induction 1 as [|c s Hc _ IH].
  - reflexivity.
  - apply frame_char_spec in Hc as [Hc _]. cbn [map].
    rewrite filter_cons_True by exact Hc. cbn [map].
    now rewrite ascii_of_byte_of_ascii, IH.
Qed.

Lemma digits_frame_chars ds :
  forallb Py.isdigit ds = true -> Forall (fun c => frame_char c = true) ds.
Proof.
  induction ds as [|c ds IH]; simpl; intros H; constructor.
  - apply andb_prop in H as [H _]. unfold frame_char. now rewrite H.
  - apply andb_prop in H as [_ H]. auto.
Qed.

Lemma number_frame_chars n :
  number_ok n = true -> Forall (fun c => frame_char c = true) (number_text n).
Proof.
  intros Hok. apply number_ok_inv in Hok as (Hi & _ & Hf & _).
  unfold number_text. apply Forall_app. split; [now apply digits_frame_chars|].
  destruct (point n); constructor; [reflexivity|now apply digits_frame_chars].
Qed.

Lemma full_frame_chars f :
  full_ok f = true -> Forall (fun c => frame_char c = true) (full_text f).
Proof.
  unfold full_ok. rewrite !andb_true_iff.
  intros [[[[[Hc _] _] Hw] Hu] Ht]. unfold full_text, signed_text.
  repeat first
    [ now apply digits_frame_chars
    | now apply number_frame_chars
    | apply Forall_cons; split; [reflexivity|]
    | apply Forall_app; split ].
  destruct (sign (net f)); repeat constructor.
Qed.

Lemma lstrip_app a c m :
  Py.isspace c = false -> Py.lstrip (a ++ c :: m) = Py.lstrip a ++ c :: m.
Proof.
  intros Hc. induction a as [|x a IH]; simpl.
  - now rewrite Hc.
  - destruct (Py.isspace x); [exact IH|reflexivity].
Qed.

Lemma rstrip_app m c b :
  Py.isspace c = false -> Py.rstrip ((m ++ [c]) ++ b) = (m ++ [c]) ++ Py.rstrip b.
Proof.
  intros Hc. unfold Py.rstrip.
  rewrite !rev_app_distr. cbn [rev app].
  rewrite lstrip_app by exact Hc.
  rewrite rev_app_distr. cbn [rev]. now rewrite rev_involutive.
Qed.

Lemma strip_around a m b :
  m <> [] -> Forall (fun c => Py.isspace c = false) m ->
  Py.strip (a ++ m ++ b) = Py.lstrip a ++ m ++ Py.rstrip b.
Proof.
  intros Hne Hm. unfold Py.strip.
  destruct m as [|c m]; [congruence|].
  rewrite <- app_comm_cons, lstrip_app by now inversion Hm.
  destruct (exists_last (l := c :: m)) as (m' & z & Heq); [discriminate|].
  change (c :: m ++ b) with ((c :: m) ++ b). rewrite Heq in *.
  apply Forall_app in Hm as [_ Hz].
  rewrite (app_assoc (Py.lstrip a) (m' ++ [z]) b).
  rewrite (app_assoc (Py.lstrip a) m' [z]).
  rewrite rstrip_app by now inversion Hz.
  now rewrite <- !app_assoc.
Qed.

Lemma lstrip_suffix a : exists pre, a = pre ++ Py.lstrip a.
Proof.
  induction a as [|x a [pre IH]]; simpl.
  - now exists [].
  - destruct (Py.isspace x); [|now exists []].
    exists (x :: pre). simpl. now f_equal.
Qed.

Lemma rstrip_prefix b : exists suf, b = Py.rstrip b ++ suf.
Proof.
  unfold Py.rstrip. destruct (lstrip_suffix (rev b)) as [pre H].
  exists (rev pre). rewrite <- rev_app_distr, <- H. now rewrite rev_involutive.
Qed.

Lemma clean_after_rstrip n b :
  clean_after n b = true -> clean_after n (Py.rstrip b) = true.
Proof.
  destruct (rstrip_prefix b) as [suf H]. revert H.
  destruct (Py.rstrip b) as [|c r]; [reflexivity|].
  intros -> . exact id.
Qed.

End Text.

(** ** A character that the pattern cannot cross *)

Section Barrier.
Import Re.
Context {R : Type}.
Implicit Types (k : list ascii -> list (list ascii) -> option R).

Lemma run_length_le cs hi s : (run_length cs hi s <= length s)%nat.
Proof.
  revert hi. induction s as [|x s IH]; intros hi.
  - destruct hi as [[|h]|]; simpl; lia.
  - destruct hi as [[|h]|]; simpl; [lia| |];
      (destruct (cs x); [|lia]); apply le_n_S, IH.
Qed.

Lemma run_length_barrier cs hi s c rest :
  cs c = false -> run_length cs hi (s ++ c :: rest) = run_length cs hi s.
Proof.
  intros Hc. revert hi. induction s as [|x s IH]; intros hi.
  - destruct hi as [[|h]|]; simpl; try reflexivity; now rewrite Hc.
  - destruct hi as [[|h]|]; simpl; [reflexivity| |];
      (destruct (cs x); [|reflexivity]); f_equal; apply IH.
Qed.

Lemma try_down_barrier n lo s c rest (k k' : list ascii -> option R) :
  (n <= length s)%nat ->
  (forall s1, s1 `suffix_of` s -> k (s1 ++ c :: rest) = k' s1) ->
  try_down n lo (s ++ c :: rest) k = try_down n lo s k'.
Proof.
  intros Hn Hk. induction n as [|n IH]; simpl.
  - rewrite !drop_0, (Hk s) by reflexivity. reflexivity.
  - rewrite <- (Hk (drop (S n) s)) by apply suffix_drop.
    rewrite drop_app_le by exact Hn.
    rewrite IH by lia. reflexivity.
Qed.

Lemma exec_barrier c r :
  avoids c r = true ->
  forall s rest caps k k',
    (forall s1 caps1, s1 `suffix_of` s -> k (s1 ++ c :: rest) caps1 = k' s1 caps1) ->
    exec r (s ++ c :: rest) caps k = exec r s caps k'.
Proof.
  induction r as [cs|cs lo hi|r1 IH1|r1 IH1 r2 IH2|r1 IH1 r2 IH2];
    simpl; intros Hav s rest caps k k' Hk.
  - apply negb_true_iff in Hav. destruct s as [|x s]; simpl.
    + now rewrite Hav.
    + destruct (cs x); [|reflexivity]. apply Hk. now exists [x].
  - apply negb_true_iff in Hav. rewrite run_length_barrier by exact Hav.
    apply try_down_barrier; [apply run_length_le|].
    intros s1 Hs1. now apply Hk.
  - apply IH1; [exact Hav|]. intros s1 caps1 Hs1.
    rewrite Hk by exact Hs1. do 2 f_equal.
    destruct Hs1 as [p ->].
    rewrite !length_app. cbn [length].
    rewrite <- !app_assoc.
    match goal with
    | |- [take ?n _] = [take ?m _] =>
        replace n with (length p) by lia; replace m with (length p) by lia
    end.
    now rewrite !take_app_length.
  - apply andb_prop in Hav as [Hav1 Hav2].
    apply IH1; [exact Hav1|]. intros s1 caps1 Hs1.
    apply IH2; [exact Hav2|]. intros s2 caps2 Hs2.
    apply Hk. now transitivity s1.
  - apply andb_prop in Hav as [Hav1 Hav2].
    rewrite (IH1 Hav1 s rest caps k k' Hk), (IH2 Hav2 s rest caps k k' Hk).
    reflexivity.
Qed.

End Barrier.

Section SearchBarrier.
Import Re.

Lemma search_none_cons r x s :
  search r (x :: s) = None -> match_ r (x :: s) = None /\ search r s = None.
Proof.
  simpl. destruct (match_ r (x :: s)); [discriminate|]. now split.
Qed.

Lemma search_none_suffix r pre s :
  search r (pre ++ s) = None -> search r s = None.
Proof.
  induction pre as [|x pre IH]; [exact id|].
  intros H. apply search_none_cons in H as [_ H]. now apply IH.
Qed.

(** A pattern that begins with the literal [c] and never matches [c] again
    finds nothing that runs over a later [c]. *)
Lemma search_barrier c r a rest :
  avoids c r = true ->
  search (Seq (Chr (lit c)) r) a = None ->
  search (Seq (Chr (lit c)) r) (a ++ c :: rest)
  = search (Seq (Chr (lit c)) r) (c :: rest).
Proof.
  intros Hav. induction a as [|x a IH]; [reflexivity|].
  intros H. apply search_none_cons in H as [Hm Hs].
  cbn [app search].
  replace (match_ (Seq (Chr (lit c)) r) (x :: a ++ c :: rest))
    with (match_ (Seq (Chr (lit c)) r) (x :: a)).
  - rewrite Hm. now apply IH.
  - unfold match_. simpl. destruct (lit c x); [|reflexivity].
    symmetry. now apply exec_barrier.
Qed.

End SearchBarrier.

(** ** Decoding a Full frame *)

Section DecodeFull.
Import Re AclasPS6XParser Frames.

Lemma search_full_around a f b :
  full_ok f = true ->
  search (PATTERNS full) a = None ->
  clean_after (total f) b = true ->
  search (PATTERNS full) (a ++ full_text f ++ b)
  = Some [code f; signed_text (net f); number_text (price f);
          number_text (total f)].
Proof.
  intros Hok Ha Hb.
  pose proof (match_full f b Hok Hb) as Hm.
  unfold full_text in *. rewrite <- app_comm_cons in *.
  cbn [PATTERNS] in *. rewrite search_barrier by (reflexivity || exact Ha).
  cbn [search]. now rewrite Hm.
Qed.

(** C1, as amended: a well-formed Full frame is decoded to exactly its four
    fields (the product code, and the binary64 values nearest to the three
    decimals) whatever bytes surround it, provided that the text decoded
    from the bytes before it holds no complete Full match of its own and the
    text decoded from the bytes after it does not go on with a digit, nor
    with a point when the total has none. *)
Theorem full_frame_decoded (plu_prices : gmap string float) (f : Full)
    (pre post : list Byte.byte) :
  full_ok f = true ->
  search (PATTERNS full) (Py.decode_ascii_ignore pre) = None ->
  clean_after (total f) (Py.decode_ascii_ignore post) = true ->
  parse plu_prices (pre ++ encode (full_text f) ++ post)
  = Some (full_frame f).
Proof.
  intros Hok Hpre Hpost.
  pose proof (full_frame_chars f Hok) as Hchars.
  assert (Htext : Py.strip (Py.decode_ascii_ignore
                              (pre ++ encode (full_text f) ++ post))
                  = Py.lstrip (Py.decode_ascii_ignore pre) ++ full_text f
                    ++ Py.rstrip (Py.decode_ascii_ignore post)).
  { rewrite !decode_app, decode_encode by exact Hchars.
    apply strip_around; [discriminate|].
    eapply Forall_impl; [exact Hchars|].
    intros c Hc. now apply frame_char_spec in Hc. }
  assert (Hsearch : search (PATTERNS full)
                      (Py.strip (Py.decode_ascii_ignore
                                   (pre ++ encode (full_text f) ++ post)))
                    = Some [code f; signed_text (net f);
                            number_text (price f); number_text (total f)]).
  { rewrite Htext. apply search_full_around; [exact Hok| |].
    - destruct (lstrip_suffix (Py.decode_ascii_ignore pre)) as [p Hp].
      rewrite Hp in Hpre. now apply search_none_suffix in Hpre.
    - now apply clean_after_rstrip. }
  unfold parse, parse_try. rewrite Hsearch.
  assert (Hne : exists c t, Py.strip (Py.decode_ascii_ignore
                              (pre ++ encode (full_text f) ++ post)) = c :: t).
  { rewrite Htext. unfold full_text.
    destruct (Py.lstrip (Py.decode_ascii_ignore pre)); simpl; eauto. }
  destruct Hne as (c & t & ->).
  unfold full_ok in Hok. rewrite !andb_true_iff in Hok.
  destruct Hok as [[[[[_ _] _] Hw] Hu] Ht].
  rewrite (float_of_signed _ Hw), (float_of_number _ Hu), (float_of_number _ Ht).
  reflexivity.
Qed.

(** The frame of the scenario between STX and ETX, CR, LF. *)
Lemma full_frame_decoded_witness :
  parse ∅ ([Byte.x02] ++ encode (full_text frame_0002)
              ++ [Byte.x03; Byte.x0d; Byte.x0a])
  = Some (full_frame frame_0002).
Proof. apply full_frame_decoded; vm_compute; reflexivity. Defined.

(** The scenario of C1. *)
Example parse_scenario :
  parse (ScaleMiddleware.plu_prices ScaleMiddleware.DEFAULT_CONFIG)
    (list_byte_of_string "P0002W+002.500U1200.00T3000.00")
  = Some (mkFrame "0002" 2.5 1200 3000).
Proof. vm_compute. reflexivity. Qed.

(** C1, as stated, fails: a digit after the frame is read into the total
    price, and a frame among the bytes before it is the one decoded. *)
Lemma full_frame_not_any_garbage :
  full_ok frame_0002 = true /\
  parse ∅ (encode (full_text frame_0002) ++ list_byte_of_string "9")
  = Some (mkFrame "0002" 2.5 1200 3000.009) /\
  parse ∅ (encode (full_text frame_0002) ++ list_byte_of_string "9")
  <> Some (full_frame frame_0002) /\
  parse ∅ (list_byte_of_string "P0001W1U1T1 " ++ encode (full_text frame_0002))
  = Some (mkFrame "0001" 1 1 1).
Proof.
  repeat split; try (vm_compute; reflexivity).
  intros H. apply (f_equal (fun r =>
    match r with
    | Some fr => (total_price fr =? 3000)%float
    | None => true
    end)) in H.
  vm_compute in H. discriminate H.
Qed.

End DecodeFull.

(** ** What the matcher finds is in the language of the pattern *)

Section Soundness.
Import Re.
Context {R : Type}.
Implicit Types (k : list ascii -> list (list ascii) -> option R).

Lemma try_down_inv n lo s (k : list ascii -> option R) res :
  try_down n lo s k = Some res ->
  exists j, (lo <= j <= n)%nat /\ k (drop j s) = Some res.
Proof.
  induction n as [|n IH]; simpl.
  - destruct (Nat.ltb_spec 0 lo); [discriminate|].
    destruct (k (drop 0 s)) eqn:Hk; [|discriminate].
    intros [= <-]. exists 0%nat. split; [lia|exact Hk].
  - destruct (Nat.ltb_spec (S n) lo); [discriminate|].
    destruct (k (drop (S n) s)) eqn:Hk.
    + intros [= <-]. exists (S n). split; [lia|exact Hk].
    + intros H1. destruct (IH H1) as (j & Hj & Hkj).
      exists j. split; [lia|exact Hkj].
Qed.

Lemma run_length_take cs hi s j :
  (j <= run_length cs hi s)%nat ->
  forallb cs (take j s) = true /\ length (take j s) = j
  /\ (forall h, hi = Some h -> (j <= h)%nat).
Proof.
  revert hi j. induction s as [|x s IH]; intros hi j Hj.
  - assert (j = 0%nat) as -> by (destruct hi as [[|h]|]; simpl in Hj; lia).
    repeat split. intros; lia.
  - destruct j as [|j]; [repeat split; intros; lia|].
    destruct hi as [[|h]|]; simpl in Hj; [lia| |].
    + destruct (cs x) eqn:Hx; [|lia].
      destruct (IH (Some h) j) as (Ha & Hl & Hh); [simpl; lia|].
      cbn [take forallb length]. rewrite Hx, Ha, Hl. repeat split.
      intros h' [= <-]. specialize (Hh h eq_refl). lia.
    + destruct (cs x) eqn:Hx; [|lia].
      destruct (IH None j) as (Ha & Hl & Hh); [simpl; lia|].
      cbn [take forallb length]. rewrite Hx, Ha, Hl. repeat split.
      discriminate.
Qed.

Lemma exec_sound r : forall s caps k res,
  exec r s caps k = Some res ->
  exists s1 s2 groups,
    s = s1 ++ s2 /\ matches r s1 groups /\ k s2 (caps ++ groups) = Some res.
Proof.
  induction r as [cs|cs lo hi|r1 IH1|r1 IH1 r2 IH2|r1 IH1 r2 IH2];
    intros s caps k res; simpl.
  - destruct s as [|c s]; [discriminate|].
    destruct (cs c) eqn:Hc; [|discriminate]. intros Hk.
    exists [c], s, []. rewrite app_nil_r.
    repeat split; [now constructor|exact Hk].
  - intros H. apply try_down_inv in H as (j & [Hlo Hj] & Hk).
    destruct (run_length_take cs hi s j Hj) as (Ha & Hl & Hh).
    exists (take j s), (drop j s), []. rewrite app_nil_r, take_drop.
    repeat split; [|exact Hk]. constructor; rewrite ?Hl; auto.
  - intros H. apply IH1 in H as (s1 & s2 & groups & -> & Hm & Hk).
    rewrite length_app, Nat.add_sub, take_app_length in Hk.
    exists s1, s2, (groups ++ [s1]). rewrite app_assoc.
    repeat split; [now constructor|exact Hk].
  - intros H. apply IH1 in H as (s1 & s' & g1 & -> & Hm1 & H).
    apply IH2 in H as (s2 & s3 & g2 & -> & Hm2 & Hk).
    exists (s1 ++ s2), s3, (g1 ++ g2). rewrite <- !app_assoc.
    repeat split; [now constructor|]. now rewrite <- app_assoc in Hk.
  - destruct (exec r1 s caps k) eqn:H1.
    + intros [= <-]. apply IH1 in H1 as (s1 & s2 & g & -> & Hm & Hk).
      exists s1, s2, g. repeat split; [now apply matches_alt_l|exact Hk].
    + intros H2. apply IH2 in H2 as (s1 & s2 & g & -> & Hm & Hk).
      exists s1, s2, g. repeat split; [now apply matches_alt_r|exact Hk].
Qed.

End Soundness.

Section SearchSound.
Import Re.

Lemma match_sound r s groups :
  match_ r s = Some groups -> exists s1 s2, s = s1 ++ s2 /\ matches r s1 groups.
Proof.
  unfold match_. intros H.
  apply exec_sound in H as (s1 & s2 & g & -> & Hm & [= <-]). eauto.
Qed.

Lemma search_sound r s groups :
  search r s = Some groups -> exists s1, matches r s1 groups.
Proof.
  induction s as [|c s IH]; simpl.
  - destruct (match_ r []) eqn:Hm; [|discriminate].
    intros [= <-]. apply match_sound in Hm as (s1 & _ & _ & Hm). eauto.
  - destruct (match_ r (c :: s)) eqn:Hm.
    + intros [= <-]. apply match_sound in Hm as (s1 & _ & _ & Hm). eauto.
    + exact IH.
Qed.

End SearchSound.

(** ** [parse] never raises *)

Section ParseTotal.
Import Re AclasPS6XParser Frames.

Lemma matches_seq_inv r1 r2 s g :
  matches (Seq r1 r2) s g ->
  exists s1 s2 g1 g2,
    s = s1 ++ s2 /\ g = g1 ++ g2 /\ matches r1 s1 g1 /\ matches r2 s2 g2.
Proof. inversion 1; subst. eauto 10. Qed.

Lemma matches_grp_inv r s g :
  matches (Grp r) s g -> exists g0, g = g0 ++ [s] /\ matches r s g0.
Proof. inversion 1; subst. eauto. Qed.

Lemma matches_chr_inv cs s g :
  matches (Chr cs) s g -> g = [] /\ exists c, s = [c] /\ cs c = true.
Proof. inversion 1; subst. eauto. Qed.

Lemma matches_rep_inv cs lo hi s g :
  matches (Rep cs lo hi) s g ->
  g = [] /\ forallb cs s = true /\ (lo <= length s)%nat
  /\ (forall h, hi = Some h -> (length s <= h)%nat).
Proof. inversion 1; subst. auto. Qed.

Lemma forallb_app_true {A} (f : A -> bool) l1 l2 :
  forallb f l1 = true -> forallb f l2 = true -> forallb f (l1 ++ l2) = true.
Proof. intros H1 H2. now rewrite forallb_app, H1, H2. Qed.

(** A token in the language of [\d+\.?\d*] is a decimal token. *)
Lemma matches_number s g :
  matches number s g ->
  g = [] /\ exists n, number_ok n = true /\ s = number_text n.
Proof.
  unfold number, plus, opt, star. intros H.
  apply matches_seq_inv in H as (s1 & s' & g1 & g' & -> & -> & H1 & H).
  apply matches_seq_inv in H as (s2 & s3 & g2 & g3 & -> & -> & H2 & H3).
  apply matches_rep_inv in H1 as (-> & Hd1 & Hl1 & _).
  apply matches_rep_inv in H2 as (-> & Hd2 & _ & Hl2).
  apply matches_rep_inv in H3 as (-> & Hd3 & _ & _).
  split; [reflexivity|]. specialize (Hl2 1%nat eq_refl). unfold digit in *.
  destruct s2 as [|c [|c' s2]]; [| |simpl in Hl2; lia].
  - exists (mkNumber (s1 ++ s3) false []). unfold number_ok, number_text.
    cbn [int_digits point frac_digits]. split; [|now rewrite app_nil_r].
    rewrite forallb_app_true by assumption. rewrite length_app.
    destruct s1; [simpl in Hl1; lia|]. reflexivity.
  - exists (mkNumber s1 true s3). unfold number_ok, number_text.
    cbn [int_digits point frac_digits]. split.
    + rewrite Hd1, Hd3. destruct s1; [simpl in Hl1; lia|]. reflexivity.
    + cbn [forallb] in Hd2. rewrite andb_true_r in Hd2. unfold lit in Hd2.
      apply Ascii.eqb_eq in Hd2 as <-. reflexivity.
Qed.

Lemma matches_signed s g :
  matches signed_number s g ->
  g = [] /\ exists n, number_ok (magnitude n) = true /\ s = signed_text n.
Proof.
  unfold signed_number, opt. intros H.
  apply matches_seq_inv in H as (s1 & s2 & g1 & g2 & -> & -> & H1 & H2).
  apply matches_rep_inv in H1 as (-> & Hs & _ & Hl).
  apply matches_number in H2 as (-> & n & Hok & ->).
  split; [reflexivity|]. specialize (Hl 1%nat eq_refl).
  destruct s1 as [|c [|c' s1]]; [| |simpl in Hl; lia].
  - now exists (mkSigned Unsigned n).
  - cbn [forallb] in Hs. rewrite andb_true_r in Hs. unfold one_of in Hs.
    apply orb_prop in Hs as [Hs|Hs]; apply Ascii.eqb_eq in Hs as <-.
    + now exists (mkSigned Plus n).
    + now exists (mkSigned Minus n).
Qed.

(** [float] accepts every token that a group of [PATTERNS] can hold. *)
Lemma float_of_group r s g :
  r = number \/ r = signed_number ->
  matches r s g -> g = [] /\ exists v, Py.float_of_str s = Py.Ok v.
Proof.
  intros [-> | ->] H.
  - apply matches_number in H as (-> & n & Hok & ->).
    rewrite float_of_number by exact Hok. eauto.
  - apply matches_signed in H as (-> & n & Hok & ->).
    rewrite float_of_signed by exact Hok. eauto.
Qed.

Lemma matches_float_group r s g :
  r = number \/ r = signed_number ->
  matches (Grp r) s g -> g = [s] /\ exists v, Py.float_of_str s = Py.Ok v.
Proof.
  intros Hr H. apply matches_grp_inv in H as (g0 & -> & H).
  apply (float_of_group _ _ _ Hr) in H as (-> & Hv). now split.
Qed.

Lemma parse_try_returns plu_prices data :
  exists r, parse_try plu_prices data = Py.Ok r.
Proof.
  unfold parse_try.
  destruct (Py.strip (Py.decode_ascii_ignore data)) as [|c text]; [eauto|].
  destruct (search (PATTERNS full) (c :: text)) as [g|] eqn:Hfull.
  { apply search_sound in Hfull as (s & H). cbn [PATTERNS] in H.
    apply matches_seq_inv in H as (? & ? & ? & ? & -> & -> & Hp & H).
    apply matches_seq_inv in H as (? & ? & ? & ? & -> & -> & Hplu & H).
    apply matches_seq_inv in H as (? & ? & ? & ? & -> & -> & Hw & H).
    apply matches_seq_inv in H as (? & ? & ? & ? & -> & -> & Hweight & H).
    apply matches_seq_inv in H as (? & ? & ? & ? & -> & -> & Hu & H).
    apply matches_seq_inv in H as (? & ? & ? & ? & -> & -> & Hunit & H).
    apply matches_seq_inv in H as (? & ? & ? & ? & -> & -> & Ht & Htotal).
    apply matches_chr_inv in Hp as (-> & _), Hw as (-> & _),
      Hu as (-> & _), Ht as (-> & _).
    apply matches_grp_inv in Hplu as (? & -> & Hplu).
    apply matches_rep_inv in Hplu as (-> & _).
    apply matches_float_group in Hweight as (-> & vw & Hvw); [|now right].
    apply matches_float_group in Hunit as (-> & vu & Hvu); [|now left].
    apply matches_float_group in Htotal as (-> & vt & Hvt); [|now left].
    cbn [app]. rewrite Hvw, Hvu, Hvt. cbn [mbind Py.result_bind mret Py.result_ret].
    eauto. }
  destruct (search (PATTERNS plu_weight) (c :: text)) as [g|] eqn:Hpw.
  { apply search_sound in Hpw as (s & H). cbn [PATTERNS] in H.
    apply matches_seq_inv in H as (? & ? & ? & ? & -> & -> & Hp & H).
    apply matches_seq_inv in H as (? & ? & ? & ? & -> & -> & Hplu & H).
    apply matches_seq_inv in H as (? & ? & ? & ? & -> & -> & Hw & Hweight).
    apply matches_chr_inv in Hp as (-> & _), Hw as (-> & _).
    apply matches_grp_inv in Hplu as (? & -> & Hplu).
    apply matches_rep_inv in Hplu as (-> & _).
    apply matches_float_group in Hweight as (-> & vw & Hvw); [|now right].
    cbn [app]. rewrite Hvw. cbn [mbind Py.result_bind mret Py.result_ret]. eauto. }
  destruct (search (PATTERNS weight_only) (c :: text)) as [g|] eqn:Hwo.
  { apply search_sound in Hwo as (s & H). cbn [PATTERNS] in H.
    apply matches_seq_inv in H as (? & ? & ? & ? & -> & -> & Hw & Hweight).
    apply matches_chr_inv in Hw as (-> & _).
    apply matches_float_group in Hweight as (-> & vw & Hv); [|now right].
    cbn [app nth]. rewrite Hv. cbn [mbind Py.result_bind mret Py.result_ret].
    eauto. }
  destruct (search (PATTERNS simple) (c :: text)) as [g|] eqn:Hs; [|eauto].
  apply search_sound in Hs as (s & H). cbn [PATTERNS] in H.
  apply matches_seq_inv in H as (? & ? & ? & ? & -> & -> & Hweight & H).
  apply matches_seq_inv in H as (? & ? & ? & ? & -> & -> & Hsp & H).
  apply matches_seq_inv in H as (? & ? & ? & ? & -> & -> & Hk & Hg).
  apply matches_chr_inv in Hk as (-> & _), Hg as (-> & _).
  apply matches_rep_inv in Hsp as (-> & _).
  apply matches_float_group in Hweight as (-> & vw & Hv); [|now left].
  cbn [app nth]. rewrite Hv. cbn [mbind Py.result_bind mret Py.result_ret]. eauto.
Qed.

End ParseTotal.

Section ParseContract.
Import Re AclasPS6XParser.

Lemma decode_invalid_byte a b c :
  Py.is_ascii b = false ->
  Py.decode_ascii_ignore (a ++ b :: c) = Py.decode_ascii_ignore (a ++ c).
Proof.
  intros Hb. rewrite !decode_app. f_equal. unfold Py.decode_ascii_ignore.
  rewrite filter_cons_False; [reflexivity|]. rewrite Hb. discriminate.
Qed.

(** C6: [parse] never raises: on every chunk the body of its [try] returns
    (so the [except] branch, which would answer [None], is never needed) and
    [parse] returns that value; a byte that is not ASCII is dropped by the
    decoding and changes nothing; a chunk that decodes to nothing but blanks
    gives [None], and so does a chunk in which none of the four formats is
    found. *)
Theorem parse_total (plu_prices : gmap string float) (data : list Byte.byte) :
  (exists r, parse_try plu_prices data = Py.Ok r /\ parse plu_prices data = r)
  /\ (forall a b c,
        data = a ++ b :: c -> Py.is_ascii b = false ->
        parse plu_prices data = parse plu_prices (a ++ c))
  /\ (Py.strip (Py.decode_ascii_ignore data) = [] ->
      parse plu_prices data = None)
  /\ ((forall name,
         name <> stable ->
         search (PATTERNS name) (Py.strip (Py.decode_ascii_ignore data)) = None) ->
      parse plu_prices data = None).
Proof.
  repeat split.
  - destruct (parse_try_returns plu_prices data) as [r Hr].
    exists r. unfold parse. now rewrite Hr.
  - intros a b c -> Hb. unfold parse, parse_try.
    now rewrite decode_invalid_byte.
  - intros Hempty. unfold parse, parse_try. now rewrite Hempty.
  - intros Hnone. unfold parse, parse_try.
    destruct (Py.strip (Py.decode_ascii_ignore data)); [reflexivity|].
    now rewrite !Hnone by discriminate.
Qed.

End ParseContract.

(** ** Running the monad *)

Section Runs.
Import ScaleMiddleware.

Lemma bind_run {S A B} (m : M S A) (f : A -> M S B) s :
  (m ≫= f) s
  = match m s with
    | (Py.Ok a, s') => f a s'
    | (Py.Raise e, s') => (Py.Raise e, s')
    end.
Proof. reflexivity. Qed.

Lemma settle_run weight mw :
  (weight <=? 0)%float = false ->
  process_reading_settle weight mw
  = let b := StabilityBuffer.add_reading weight (stability mw) in
    (match StabilityBuffer.is_stable (stability_threshold (config mw))
             (stability_readings (config mw)) b with
     | Py.Ok true => Py.Ok (Some (StabilityBuffer.get_stable_weight b))
     | Py.Ok false => Py.Ok None
     | Py.Raise e => Py.Raise e
     end, set_stability b mw).
Proof.
  intros Hw. unfold process_reading_settle. rewrite Hw.
  cbv [mbind M_bind with_stability zoom modify get lift_result mret M_ret].
  cbn [stability config].
  destruct (StabilityBuffer.is_stable _ _ _) as [[]|e]; reflexivity.
Qed.

Lemma process_reading_nonpositive env data mw :
  (AclasPS6XParser.weight data <=? 0)%float = true ->
  process_reading env data mw = (Py.Ok None, mw).
Proof.
  intros Hw. unfold process_reading, process_reading_settle. rewrite Hw.
  reflexivity.
Qed.

End Runs.

(** ** The window *)

Section Window.
Import ScaleMiddleware Readings.

Lemma last_n_length {A} n (l : list A) :
  length (last_n n l) = Nat.min n (length l).
Proof. unfold last_n. rewrite length_drop. lia. Qed.

Lemma last_n_all {A} n (l : list A) :
  (length l <= n)%nat -> last_n n l = l.
Proof.
  intros H. unfold last_n. replace (length l - n)%nat with 0%nat by lia.
  apply drop_0.
Qed.

Lemma last_n_snoc {A} n (l : list A) x :
  last_n (S n) (l ++ [x]) = last_n n l ++ [x].
Proof.
  unfold last_n. rewrite length_app. cbn [length].
  replace (length l + 1 - S n)%nat with (length l - n)%nat by lia.
  rewrite drop_app_le by lia. reflexivity.
Qed.

Lemma last_n_last_n {A} m n (l : list A) :
  (m <= n)%nat -> last_n m (last_n n l) = last_n m l.
Proof.
  intros H. unfold last_n. rewrite length_drop, drop_drop. f_equal. lia.
Qed.

Lemma add_reading_window w b :
  (length (StabilityBuffer.readings b) <= 10)%nat ->
  StabilityBuffer.readings (StabilityBuffer.add_reading w b)
  = last_n 10 (StabilityBuffer.readings b ++ [w]).
Proof.
  intros H. unfold StabilityBuffer.add_reading. cbn [StabilityBuffer.readings].
  unfold last_n. rewrite length_app. cbn [length].
  destruct (Nat.ltb_spec 10 (length (StabilityBuffer.readings b) + 1)).
  - f_equal. lia.
  - replace (length (StabilityBuffer.readings b) + 1 - 10)%nat with 0%nat by lia.
    now rewrite drop_0.
Qed.

Lemma add_reading_history w b hist :
  StabilityBuffer.readings b = last_n 10 hist ->
  StabilityBuffer.readings (StabilityBuffer.add_reading w b)
  = last_n 10 (hist ++ [w]).
Proof.
  intros H. rewrite add_reading_window.
  - rewrite H, !last_n_snoc. now rewrite last_n_last_n by lia.
  - rewrite H, last_n_length. lia.
Qed.

Lemma slice_from_last {A} (l : list A) (n : Z) :
  1 <= n -> Py.slice_from l (- n) = last_n (Z.to_nat n) l.
Proof.
  intros Hn. unfold Py.slice_from, last_n.
  destruct (Z.ltb_spec (- n) 0); [|lia]. f_equal. lia.
Qed.

Lemma is_stable_window threshold n b :
  1 <= n ->
  StabilityBuffer.is_stable threshold n b
  = Py.Ok ((n <=? Z.of_nat (length (StabilityBuffer.readings b)))
           && spread_within threshold
                (last_n (Z.to_nat n) (StabilityBuffer.readings b))).
Proof.
  intros Hn. unfold StabilityBuffer.is_stable.
  destruct (Z.ltb_spec (Z.of_nat (length (StabilityBuffer.readings b))) n)
    as [Hlt|Hge].
  - destruct (Z.leb_spec n (Z.of_nat (length (StabilityBuffer.readings b))));
      [lia|reflexivity].
  - destruct (Z.leb_spec n (Z.of_nat (length (StabilityBuffer.readings b))));
      [|lia].
    rewrite slice_from_last by exact Hn. unfold spread_within.
    pose proof (last_n_length (Z.to_nat n) (StabilityBuffer.readings b)) as Hlen.
    destruct (last_n (Z.to_nat n) (StabilityBuffer.readings b)) as [|x l].
    + simpl in Hlen. lia.
    + reflexivity.
Qed.

End Window.

(** ** One call of [process_reading] *)

Section ProcessReading.
Import ScaleMiddleware Readings.

Lemma log_run failure reading l :
  TransactionLogger.log failure reading l
  = (Py.Ok tt,
     match failure with
     | None => TransactionLogger.mk (TransactionLogger.lines l ++ [reading])
     | Some _ => l
     end).
Proof. now destruct failure. Qed.

Lemma emit_run env data s mw :
  process_reading_emit env data s mw
  = if StabilityBuffer.is_duplicate s (duplicate_timeout (config mw))
         (now_duplicate env) (stability mw)
    then (Py.Ok None, mw)
    else emitted env data s mw.
Proof.
  unfold process_reading_emit, emitted.
  cbv [mbind M_bind get]. destruct (StabilityBuffer.is_duplicate _ _ _ _);
    [reflexivity|].
  cbv [with_stability with_logger with_ws_server zoom modify mret M_ret].
  cbn [stability logger ws_server config port_open set_stability set_logger
       set_ws_server].
  rewrite log_run. cbn [snd].
  destruct (ScaleWebSocketServer.broadcast _ _ _) as [[[]|e] ws]; reflexivity.
Qed.

Lemma process_reading_run env data mw :
  positive (AclasPS6XParser.weight data) ->
  process_reading env data mw
  = let b := StabilityBuffer.add_reading (AclasPS6XParser.weight data)
               (stability mw) in
    match StabilityBuffer.is_stable (stability_threshold (config mw))
            (stability_readings (config mw)) b with
    | Py.Ok true =>
        process_reading_emit env data (StabilityBuffer.get_stable_weight b)
          (set_stability b mw)
    | Py.Ok false => (Py.Ok None, set_stability b mw)
    | Py.Raise e => (Py.Raise e, set_stability b mw)
    end.
Proof.
  intros Hw. unfold process_reading. rewrite bind_run, settle_run by exact Hw.
  cbv zeta. destruct (StabilityBuffer.is_stable _ _ _) as [[]|e]; reflexivity.
Qed.

Lemma process_reading_window env data mw hist r mw' :
  positive (AclasPS6XParser.weight data) ->
  StabilityBuffer.readings (stability mw) = last_n 10 hist ->
  process_reading env data mw = (r, mw') ->
  StabilityBuffer.readings (stability mw')
  = last_n 10 (hist ++ [AclasPS6XParser.weight data])
  /\ config mw' = config mw.
Proof.
  intros Hw Hhist. rewrite process_reading_run by exact Hw. cbv zeta.
  pose proof (add_reading_history (AclasPS6XParser.weight data) _ _ Hhist)
    as Hadd.
  destruct (StabilityBuffer.is_stable _ _ _) as [[]|e].
  - rewrite emit_run. destruct (StabilityBuffer.is_duplicate _ _ _ _).
    + intros [= <- <-]. now split.
    + unfold emitted.
      destruct (ScaleWebSocketServer.broadcast _ _ _) as [r0 ws].
      intros [= <- <-]. now split.
  - intros [= <- <-]. now split.
  - intros [= <- <-]. now split.
Qed.

Lemma process_readings_window inputs : forall mw hist mw',
  Forall positive (weights inputs) ->
  StabilityBuffer.readings (stability mw) = last_n 10 hist ->
  process_readings inputs mw = (Py.Ok tt, mw') ->
  StabilityBuffer.readings (stability mw') = last_n 10 (hist ++ weights inputs)
  /\ config mw' = config mw.
Proof.
  induction inputs as [|[env data] inputs IH]; intros mw hist mw' Hpos Hhist.
  - intros [= <-]. now rewrite app_nil_r.
  - cbn [process_readings weights map snd] in *. rewrite bind_run.
    apply Forall_cons in Hpos as [Hw Hpos].
    destruct (process_reading env data mw) as [[u|e] mw1] eqn:Hrun;
      [|discriminate].
    destruct (process_reading_window _ _ _ _ _ _ Hw Hhist Hrun) as [Hr Hc].
    intros Hrest. destruct (IH _ _ _ Hpos Hr Hrest) as [Hr' Hc'].
    rewrite <- app_assoc in Hr'. split; [exact Hr'|congruence].
Qed.

End ProcessReading.

(** ** Settlement *)

Section Settlement.
Import ScaleMiddleware Readings.

(** C2: after any sequence of positive samples, ingesting the last one
    reaches a settlement candidate exactly when the window (the last ten
    samples at most) holds at least N samples and the spread of its last N
    samples is within the threshold; otherwise the call yields nothing. *)
Theorem settlement_iff_stable_window (mw0 mw1 : t)
    (inputs : list (Env * AclasPS6XParser.Frame)) (env : Env)
    (data : AclasPS6XParser.Frame) :
  StabilityBuffer.readings (stability mw0) = [] ->
  1 <= stability_readings (config mw0) ->
  Forall positive (weights (inputs ++ [(env, data)])) ->
  process_readings inputs mw0 = (Py.Ok tt, mw1) ->
  let n := stability_readings (config mw0) in
  let window := last_n 10 (weights (inputs ++ [(env, data)])) in
  let stable :=
    (n <=? Z.of_nat (length window))
    && spread_within (stability_threshold (config mw0))
         (last_n (Z.to_nat n) window) in
  ((exists s, fst (process_reading_settle (AclasPS6XParser.weight data) mw1)
              = Py.Ok (Some s)) <-> stable = true)
  /\ (stable = false ->
      fst (process_reading_settle (AclasPS6XParser.weight data) mw1)
      = Py.Ok None
      /\ fst (process_reading env data mw1) = Py.Ok None).
Proof.
  intros Hfresh Hn Hpos Hrun n window stable.
  unfold weights in Hpos. rewrite map_app in Hpos.
  apply Forall_app in Hpos as [Hpos Hw]. apply Forall_cons in Hw as [Hw _].
  cbn [snd] in Hw.
  destruct (process_readings_window inputs mw0 [] mw1 Hpos) as [Hr Hc];
    [now rewrite Hfresh|exact Hrun|].
  cbn [app] in Hr.
  pose proof (add_reading_history (AclasPS6XParser.weight data) _ _ Hr) as Hb.
  assert (Hwin : last_n 10 (weights inputs ++ [AclasPS6XParser.weight data])
                 = window).
  { unfold window, weights. now rewrite map_app. }
  rewrite Hwin in Hb.
  assert (Hst : StabilityBuffer.is_stable (stability_threshold (config mw1))
                  (stability_readings (config mw1))
                  (StabilityBuffer.add_reading (AclasPS6XParser.weight data)
                     (stability mw1))
                = Py.Ok stable).
  { rewrite Hc, is_stable_window by exact Hn. now rewrite Hb. }
  unfold process_reading. rewrite bind_run, settle_run by exact Hw.
  cbv zeta. rewrite Hst. destruct stable; cbn [fst]; split.
  - split; [reflexivity|eauto].
  - discriminate.
  - split; [intros [s [=]]|discriminate].
  - now split.
Qed.

(** The third sample of the scenario. *)
Lemma settlement_iff_stable_window_witness :
  let n := stability_readings (config (fresh DEFAULT_CONFIG)) in
  let window := last_n 10 (weights (take 2 scenario
                                     ++ [(calm 200000, weight_only_frame 2.000)])) in
  let stable :=
    (n <=? Z.of_nat (length window))
    && spread_within (stability_threshold (config (fresh DEFAULT_CONFIG)))
         (last_n (Z.to_nat n) window) in
  ((exists s, fst (process_reading_settle
                     (AclasPS6XParser.weight (weight_only_frame 2.000))
                     after_two)
              = Py.Ok (Some s)) <-> stable = true)
  /\ (stable = false ->
      fst (process_reading_settle
             (AclasPS6XParser.weight (weight_only_frame 2.000)) after_two)
      = Py.Ok None
      /\ fst (process_reading (calm 200000) (weight_only_frame 2.000) after_two)
         = Py.Ok None).
Proof.
  apply (settlement_iff_stable_window (fresh DEFAULT_CONFIG) after_two
           (take 2 scenario) (calm 200000) (weight_only_frame 2.000)).
  - reflexivity.
  - vm_compute. discriminate.
  - repeat constructor.
  - vm_compute. reflexivity.
Defined.

End Settlement.

(** ** Comparisons of binary64 numbers *)

Section FloatOrder.



End FloatOrder.

(** ** The sinks *)

Section Sinks.
Import ScaleMiddleware Readings.
Import ScaleWebSocketServer.





End Sinks.

(** ** Duplicates *)

Section Duplicates.
Import ScaleMiddleware Readings.




End Duplicates.

(** ** The settled weight *)

Section SettledWeight.
Import ScaleMiddleware Readings.

(** With three samples or more in the window, the settled weight is the mean
    of the last three, rounded to three decimals. *)
Lemma settled_weight_of_three b :
  (3 <= length (StabilityBuffer.readings b))%nat ->
  exists x y z,
    last_n 3 (StabilityBuffer.readings b) = [x; y; z]
    /\ StabilityBuffer.get_stable_weight b
       = Py.round ((0 + x + y + z) / 3) 3.
Proof.
  intros Hlen. unfold StabilityBuffer.get_stable_weight.
  rewrite (slice_from_last _ 3) by lia. change (Z.to_nat 3) with 3%nat.
  pose proof (last_n_length 3 (StabilityBuffer.readings b)) as Hl.
  destruct (last_n 3 (StabilityBuffer.readings b))
    as [|x [|y [|z [|? ?]]]] eqn:Hlast; cbn [length] in Hl; try lia.
  now exists x, y, z.
Qed.

(** The scenario of C3: 2.001, 2.002 and 2.000 settle to 2.001. *)
Example three_samples_settle :
  fst (process_reading (calm 200000) (weight_only_frame 2.000) after_two)
  = Py.Ok (Some (mkReading "0000" 2.001 0 0 200000)).
Proof. vm_compute. reflexivity. Qed.

(** C3 fails on the code: with one stable reading required, the first sample
    of 3 kg passes the stability test alone in the window and is reported as
    1 kg, a third of it and not a mean of samples. *)
Theorem single_sample_settles_to_a_third :
  StabilityBuffer.is_stable 0.01 1 (StabilityBuffer.mk [3%float] None None)
  = Py.Ok true
  /\ process_reading (calm 0) (weight_only_frame 3) (fresh (config_readings 1))
     = (Py.Ok (Some (mkReading "0000" 1 0 0 0)),
        mk (config_readings 1)
           (StabilityBuffer.mk [3%float] (Some 1%float) (Some 0))
           (ScaleWebSocketServer.mk [] [])
           (TransactionLogger.mk [mkReading "0000" 1 0 0 0]) false).
Proof. split; vm_compute; reflexivity. Qed.

(** C10, as amended: on a window of one or two samples the settled weight is
    the sum of the samples divided by the constant 3, rounded to three
    decimals, and this is what [process_reading] goes on with when such a
    window passes the stability test. *)
Theorem short_window_divided_by_three (weight : float) (mw : t) :
  positive weight ->
  let b := StabilityBuffer.add_reading weight (stability mw) in
  (0 < length (StabilityBuffer.readings b) < 3)%nat ->
  StabilityBuffer.get_stable_weight b
  = Py.round (Py.sum (StabilityBuffer.readings b) / 3) 3
  /\ (StabilityBuffer.is_stable (stability_threshold (config mw))
        (stability_readings (config mw)) b = Py.Ok true ->
      fst (process_reading_settle weight mw)
      = Py.Ok (Some (Py.round (Py.sum (StabilityBuffer.readings b) / 3) 3))).
Proof.
  intros Hw b Hlen.
  assert (Hval : StabilityBuffer.get_stable_weight b
                 = Py.round (Py.sum (StabilityBuffer.readings b) / 3) 3).
  { unfold StabilityBuffer.get_stable_weight.
    rewrite (slice_from_last _ 3) by lia. change (Z.to_nat 3) with 3%nat.
    now rewrite last_n_all by lia. }
  split; [exact Hval|]. intros Hst.
  rewrite settle_run by exact Hw. cbv zeta. fold b. now rewrite Hst, Hval.
Qed.

Lemma short_window_divided_by_three_witness :
  let b := StabilityBuffer.add_reading 3
             (stability (fresh (config_readings 1))) in
  StabilityBuffer.get_stable_weight b
  = Py.round (Py.sum (StabilityBuffer.readings b) / 3) 3
  /\ (StabilityBuffer.is_stable
        (stability_threshold (config (fresh (config_readings 1))))
        (stability_readings (config (fresh (config_readings 1)))) b
      = Py.Ok true ->
      fst (process_reading_settle 3 (fresh (config_readings 1)))
      = Py.Ok (Some (Py.round (Py.sum (StabilityBuffer.readings b) / 3) 3))).
Proof.
  apply (short_window_divided_by_three 3 (fresh (config_readings 1)));
    [reflexivity|vm_compute; lia].
Defined.

(** C10, as stated, fails: two samples of 0.0009 kg pass the stability test
    for two required readings and settle to 0.001, which is not below their
    mean 0.0009. *)
Lemma settled_weight_not_below_mean :
  let b := StabilityBuffer.mk [0.0009; 0.0009]%float None None in
  StabilityBuffer.is_stable 0.01 2 b = Py.Ok true
  /\ StabilityBuffer.get_stable_weight b = 0.001%float
  /\ (Py.sum (StabilityBuffer.readings b) / 2 = 0.0009)%float
  /\ (StabilityBuffer.get_stable_weight b
      <? Py.sum (StabilityBuffer.readings b) / 2)%float = false.
Proof. repeat split; vm_compute; reflexivity. Qed.

End SettledWeight.

(** ** Rejected samples *)

Section Rejected.
Import ScaleMiddleware Readings.

(** C5, as amended: a weight that is zero or negative produces no event,
    whatever the window holds, and changes nothing: the sample is rejected
    before it is appended and does not enter the window. *)
Theorem nonpositive_rejected (env : Env) (data : AclasPS6XParser.Frame)
    (mw : t) :
  (AclasPS6XParser.weight data <=? 0)%float = true ->
  process_reading env data mw = (Py.Ok None, mw)
  /\ StabilityBuffer.readings (stability (snd (process_reading env data mw)))
     = StabilityBuffer.readings (stability mw).
Proof.
  intros Hw. now rewrite process_reading_nonpositive by exact Hw.
Qed.

(** A negative sample after the scenario, whose window is stable. *)
Lemma nonpositive_rejected_witness :
  process_reading (calm 0) (weight_only_frame (-1.5)) after_scenario
  = (Py.Ok None, after_scenario)
  /\ StabilityBuffer.readings
       (stability (snd (process_reading (calm 0) (weight_only_frame (-1.5))
                          after_scenario)))
     = StabilityBuffer.readings (stability after_scenario).
Proof. apply nonpositive_rejected. reflexivity. Defined.

(** C5, as stated, fails: a zero weight is not appended to the window. *)
Lemma nonpositive_sample_not_appended :
  StabilityBuffer.readings
    (stability (snd (process_reading (calm 0) (weight_only_frame 0)
                       (fresh DEFAULT_CONFIG))))
  = []
  /\ StabilityBuffer.readings
       (StabilityBuffer.add_reading 0 (stability (fresh DEFAULT_CONFIG)))
     = [0%float].
Proof. split; reflexivity. Qed.

End Rejected.

(** ** The reader loop *)

Section Loop.
Import ScaleMiddleware Readings Backoff.

Lemma on_self_delay {A} (m : M t A) l :
  reconnect_delay (snd (on_self m l)) = reconnect_delay l
  /\ slept (snd (on_self m l)) = slept l.
Proof. unfold on_self, zoom. now destruct (m (self l)). Qed.

Lemma read_and_process_delay tk l :
  reconnect_delay (snd (read_and_process tk l)) = reconnect_delay l.
Proof.
  unfold read_and_process. rewrite bind_run.
  pose proof (on_self_delay (read_async (readline tk)) l) as [Hd _].
  destruct (on_self (read_async (readline tk)) l) as [[[data|]|e] l1];
    cbn [snd] in *; try exact Hd.
  rewrite bind_run.
  pose proof (on_self_delay (process_reading (env tk) data) l1) as [Hd1 _].
  destruct (on_self (process_reading (env tk) data) l1) as [[?|?] l2];
    cbv [mret M_ret]; cbn [snd] in *; congruence.
Qed.

(** A failed connection attempt: sleep for the current delay, then double
    it up to [max_delay]. *)
Lemma loop_body_failure tk l :
  port_open (self l) = false -> connect_fails tk ->
  loop_body tk l
  = (Py.Ok tt,
     mkLoop (self l) (Py.min2 (reconnect_delay l * 2) max_delay)
       (slept l ++ [reconnect_delay l])).
Proof.
  intros Hp Hc. unfold loop_body. rewrite bind_run. cbv [get].
  rewrite Hp, Hc. reflexivity.
Qed.

(** A turn whose connection attempt, if one is made, succeeds. *)
Lemma loop_body_success_delay tk l :
  connect_succeeds tk ->
  reconnect_delay (snd (loop_body tk l))
  = if port_open (self l) then reconnect_delay l else 1%float.
Proof.
  intros Hc. unfold loop_body. rewrite bind_run. cbv [get].
  destruct (port_open (self l)); cbn [negb].
  - apply read_and_process_delay.
  - rewrite Hc, !bind_run.
    cbv [on_self zoom set_reconnect_delay modify].
    rewrite bind_run. cbn [self reconnect_delay slept].
    now rewrite read_and_process_delay.
Qed.

Lemma loop_turns_success_delay ticks : forall l,
  Forall connect_succeeds ticks ->
  reconnect_delay l = 1%float \/ (port_open (self l) = false /\ ticks <> []) ->
  reconnect_delay (snd (loop_turns ticks l)) = 1%float.
Proof.
  induction ticks as [|tk ticks IH]; intros l Hok Hl.
  - destruct Hl as [Hl|[_ Hl]]; [exact Hl|congruence].
  - apply Forall_cons in Hok as [Hc Hok]. cbn [loop_turns]. rewrite bind_run.
    pose proof (loop_body_success_delay tk l Hc) as Hd.
    assert (reconnect_delay (snd (loop_body tk l)) = 1%float) as Hd1.
    { rewrite Hd. destruct Hl as [Hl|[Hl _]]; [|now rewrite Hl].
      now destruct (port_open (self l)). }
    destruct (loop_body tk l) as [[[]|e] l1]; cbn [snd] in *; [|exact Hd1].
    apply IH; [exact Hok|now left].
Qed.

Lemma capped_doubling_large n : (5 <= n)%nat -> capped_doubling n = 30%float.
Proof.
  intros Hn. unfold capped_doubling.
  assert (2 ^ 5 <= 2 ^ Z.of_nat n) by (apply Z.pow_le_mono_r; lia).
  rewrite Z.min_r by (change (2 ^ 5) with 32 in *; lia).
  reflexivity.
Qed.

Lemma capped_doubling_step n :
  Py.min2 (capped_doubling n * 2) max_delay = capped_doubling (S n).
Proof.
  destruct (Nat.le_gt_cases 5 n) as [Hn|Hn].
  - rewrite !capped_doubling_large by lia. reflexivity.
  - do 5 (destruct n as [|n]; [reflexivity|]). lia.
Qed.

Lemma loop_turns_failures ticks : forall mw k sl,
  port_open mw = false -> Forall connect_fails ticks ->
  loop_turns ticks (mkLoop mw (capped_doubling k) sl)
  = (Py.Ok tt,
     mkLoop mw (capped_doubling (k + length ticks))
       (sl ++ map capped_doubling (seq k (length ticks)))).
Proof.
  induction ticks as [|tk ticks IH]; intros mw k sl Hp Hf.
  - cbn. now rewrite Nat.add_0_r, app_nil_r.
  - apply Forall_cons in Hf as [Hc Hf]. cbn [loop_turns]. rewrite bind_run.
    rewrite loop_body_failure by assumption.
    cbn [self reconnect_delay slept]. rewrite capped_doubling_step.
    rewrite IH by assumption. cbn [length seq map].
    now rewrite <- app_assoc, Nat.add_succ_r.
Qed.

Lemma ladder_step d :
  In d ladder -> In (Py.min2 (d * 2) max_delay) ladder.
Proof.
  unfold ladder. cbn [In].
  intros [<-|[<-|[<-|[<-|[<-|[<-|[]]]]]]]; vm_compute; tauto.
Qed.

Lemma loop_body_ladder tk l :
  In (reconnect_delay l) ladder ->
  In (reconnect_delay (snd (loop_body tk l))) ladder.
Proof.
  intros Hd. destruct (port_open (self l)) eqn:Hp.
  - unfold loop_body. rewrite bind_run. cbv [get]. rewrite Hp. cbn [negb].
    now rewrite read_and_process_delay.
  - destruct (connect tk) as [| |e] eqn:Hc.
    + rewrite loop_body_success_delay, Hp by exact Hc. now left.
    + rewrite loop_body_failure by assumption. cbn [snd reconnect_delay].
      now apply ladder_step.
    + unfold loop_body. rewrite bind_run. cbv [get]. rewrite Hp, Hc.
      exact Hd.
Qed.

(** Whatever the turns bring, the delay stays on the ladder 1, 2, 4, 8, 16,
    30. *)
Lemma loop_turns_ladder ticks : forall l,
  In (reconnect_delay l) ladder ->
  In (reconnect_delay (snd (loop_turns ticks l))) ladder.
Proof.
  induction ticks as [|tk ticks IH]; intros l Hd; [exact Hd|].
  cbn [loop_turns]. rewrite bind_run.
  pose proof (loop_body_ladder tk l Hd) as Hd1.
  destruct (loop_body tk l) as [[[]|e] l1]; cbn [snd] in *; auto.
Qed.

End Loop.

(** ** Reconnection *)

Section Reconnection.
Import ScaleMiddleware Readings Backoff.

(** C7: the delay before a retry starts at 1 s, doubles with each
    consecutive failed connection attempt up to 30 s (the n-th delay is
    min(2^n, 30) s), goes back to 1 s as soon as a connection attempt
    succeeds, and the next failed attempt then waits 1 s again; whatever
    the turns of the loop bring, the delay never exceeds 30 s. *)
Theorem reconnect_backoff (mw : t) (failures successes : list Tick)
    (failure : Tick) :
  port_open mw = false ->
  Forall connect_fails failures ->
  Forall connect_succeeds successes -> successes <> [] ->
  connect_fails failure ->
  let l1 := snd (scale_reader_loop failures mw) in
  let l2 := snd (loop_turns successes l1) in
  let l3 := snd (loop_body failure l2) in
  fst (scale_reader_loop failures mw) = Py.Ok tt
  /\ slept l1 = map capped_doubling (seq 0 (length failures))
  /\ reconnect_delay l1 = capped_doubling (length failures)
  /\ reconnect_delay l2 = 1%float
  /\ (port_open (self l2) = false ->
      slept l3 = slept l2 ++ [1%float] /\ reconnect_delay l3 = 2%float)
  /\ (forall ticks,
        (reconnect_delay (snd (scale_reader_loop ticks mw)) <=? max_delay)%float
        = true).
Proof.
  intros Hp Hf Hs Hne Hfail l1 l2 l3.
  assert (Hl1 : scale_reader_loop failures mw
                = (Py.Ok tt,
                   mkLoop mw (capped_doubling (length failures))
                     (map capped_doubling (seq 0 (length failures))))).
  { unfold scale_reader_loop.
    exact (loop_turns_failures failures mw 0 [] Hp Hf). }
  assert (Hl2 : reconnect_delay l2 = 1%float).
  { apply loop_turns_success_delay; [exact Hs|right].
    split; [|exact Hne]. unfold l1. now rewrite Hl1. }
  subst l1. rewrite Hl1 in *. cbn [fst snd slept reconnect_delay].
  repeat split; try exact Hl2.
  - unfold l3. rewrite loop_body_failure by assumption. cbn [snd slept].
    now rewrite Hl2.
  - unfold l3. rewrite loop_body_failure by assumption.
    cbn [snd reconnect_delay]. now rewrite Hl2.
  - intros ticks. unfold scale_reader_loop.
    pose proof (loop_turns_ladder ticks (mkLoop mw 1 []) (or_introl eq_refl))
      as Hd. unfold ladder in Hd. cbn [In] in Hd.
    destruct Hd as [<-|[<-|[<-|[<-|[<-|[<-|[]]]]]]]; reflexivity.
Qed.

Lemma reconnect_backoff_witness :
  let failures := [failed_connect; failed_connect; failed_connect] in
  let l1 := snd (scale_reader_loop failures (fresh DEFAULT_CONFIG)) in
  let l2 := snd (loop_turns [connect_then_read_error] l1) in
  let l3 := snd (loop_body failed_connect l2) in
  fst (scale_reader_loop failures (fresh DEFAULT_CONFIG)) = Py.Ok tt
  /\ slept l1 = map capped_doubling (seq 0 (length failures))
  /\ reconnect_delay l1 = capped_doubling (length failures)
  /\ reconnect_delay l2 = 1%float
  /\ (port_open (self l2) = false ->
      slept l3 = slept l2 ++ [1%float] /\ reconnect_delay l3 = 2%float)
  /\ (forall ticks,
        (reconnect_delay (snd (scale_reader_loop ticks (fresh DEFAULT_CONFIG)))
         <=? max_delay)%float = true).
Proof.
  apply (reconnect_backoff (fresh DEFAULT_CONFIG)
           [failed_connect; failed_connect; failed_connect]
           [connect_then_read_error] failed_connect).
  - reflexivity.
  - repeat constructor.
  - repeat constructor.
  - discriminate.
  - reflexivity.
Defined.

(** The scenario of C7: three failed attempts wait 1, 2 and 4 s; after a
    successful connection and a read error (with its idle delay of 0.1 s)
    the next failed attempt waits 1 s. *)
Example three_failures_then_reset :
  slept (snd (scale_reader_loop
                [failed_connect; failed_connect; failed_connect;
                 connect_then_read_error; failed_connect]
                (fresh DEFAULT_CONFIG)))
  = [1; 2; 4; 0.1; 1]%float.
Proof. vm_compute. reflexivity. Qed.

End Reconnection.

(** ** Failures of the sinks *)

Section SinkFailures.
Import ScaleMiddleware Readings Backoff.




Lemma read_async_returns r mw :
  exists data mw', read_async r mw = (Py.Ok data, mw')
                   /\ config mw' = config mw.
Proof.
  unfold read_async. rewrite bind_run. cbv [get].
  destruct (port_open mw); cbn [negb]; [|eauto].
  destruct r as [[|b data]|]; eauto.
Qed.






(** A closed connection of listener 1 costs listener 2 nothing, and the
    loop goes on: the turn returns, listener 1 is dropped and listener 2
    has the reading. *)
Example closed_listener_dropped :
  let run := scale_reader_loop [third_sample Py.ConnectionClosed]
               two_listeners in
  fst run = Py.Ok tt
  /\ ScaleWebSocketServer.clients (ws_server (self (snd run))) = [2%nat]
  /\ ScaleWebSocketServer.sent (ws_server (self (snd run)))
     = [(2%nat, mkReading "0000" 2.001 0 0 200000)].
Proof. repeat split; vm_compute; reflexivity. Qed.


End SinkFailures.

(** ** The matcher finds every match of the language *)

Section Completeness.
Import Re.
Context {R : Type}.
Implicit Types (k : list ascii -> list (list ascii) -> option R).

Lemma try_down_complete n lo s (k : list ascii -> option R) j :
  (lo <= j <= n)%nat -> k (drop j s) <> None -> try_down n lo s k <> None.
Proof.
  induction n as [|n IH]; intros Hj Hk; cbn [try_down].
  - assert (j = 0%nat) as -> by lia.
    destruct (Nat.ltb_spec 0 lo); [lia|].
    destruct (k (drop 0 s)); [discriminate|congruence].
  - destruct (Nat.ltb_spec (S n) lo); [lia|].
    destruct (k (drop (S n) s)) eqn:Hn; [discriminate|].
    apply IH; [|exact Hk].
    destruct (Nat.eq_dec j (S n)) as [->|]; [congruence|lia].
Qed.

Lemma run_length_ge cs ds : forall hi rest,
  forallb cs ds = true ->
  (forall h, hi = Some h -> (length ds <= h)%nat) ->
  (length ds <= run_length cs hi (ds ++ rest))%nat.
Proof.
  induction ds as [|c ds IH]; intros hi rest Hds Hhi; [cbn; lia|].
  cbn [forallb] in Hds. apply andb_prop in Hds as [Hc Hds].
  destruct hi as [[|h]|]; cbn [app run_length length].
  - specialize (Hhi 0%nat eq_refl). cbn in Hhi. lia.
  - rewrite Hc. apply le_n_S. apply IH; [exact Hds|].
    intros h' [= <-]. specialize (Hhi (S h) eq_refl). cbn in Hhi. lia.
  - rewrite Hc. apply le_n_S. apply IH; [exact Hds|discriminate].
Qed.

Lemma exec_complete r s1 groups :
  matches r s1 groups ->
  forall s2 caps k,
    k s2 (caps ++ groups) <> None -> exec r (s1 ++ s2) caps k <> None.
Proof.
  induction 1 as [cs c Hc|cs lo hi ds Hds Hlo Hhi|r s groups _ IH
                 |r1 r2 s1 s2 g1 g2 _ IH1 _ IH2|r1 r2 s groups _ IH
                 |r1 r2 s groups _ IH];
    intros rest caps k Hk; cbn [exec].
  - cbn [app]. rewrite Hc. now rewrite app_nil_r in Hk.
  - rewrite app_nil_r in Hk.
    apply (try_down_complete _ _ _ _ (length ds)).
    + split; [exact Hlo|]. now apply run_length_ge.
    + now rewrite drop_app_length.
  - apply IH. rewrite length_app, Nat.add_sub, take_app_length.
    now rewrite <- app_assoc.
  - rewrite <- app_assoc. apply IH1. apply IH2. now rewrite <- app_assoc.
  - specialize (IH rest caps k Hk).
    destruct (exec r1 (s ++ rest) caps k); [discriminate|congruence].
  - specialize (IH rest caps k Hk).
    destruct (exec r1 (s ++ rest) caps k); [discriminate|exact IH].
Qed.

End Completeness.

Section SearchComplete.
Import Re Formats.

Lemma match_complete r s1 s2 groups :
  matches r s1 groups -> match_ r (s1 ++ s2) <> None.
Proof.
  intros Hm. unfold match_. apply (exec_complete r s1 groups Hm). discriminate.
Qed.

Lemma search_complete r s1 text groups :
  matches r s1 groups -> occurs s1 text -> search r text <> None.
Proof.
  intros Hm (pre & post & ->).
  induction pre as [|c pre IH].
  - cbn [app]. pose proof (match_complete r s1 post groups Hm) as Hne.
    destruct (s1 ++ post) as [|c t]; cbn [search];
      destruct (match_ r _); congruence.
  - cbn [app search]. destruct (match_ r _); [discriminate|exact IH].
Qed.

(** [search] finds the groups of a token that occurs in the text. *)
Lemma search_occurs r text groups :
  search r text = Some groups ->
  exists s1, occurs s1 text /\ matches r s1 groups.
Proof.
  induction text as [|c text IH]; cbn [search].
  - destruct (match_ r []) eqn:Hm; [|discriminate].
    intros [= <-]. apply match_sound in Hm as (s1 & s2 & Hs & Hl).
    exists s1. split; [|exact Hl]. exists [], s2. exact Hs.
  - destruct (match_ r (c :: text)) eqn:Hm.
    + intros [= <-]. apply match_sound in Hm as (s1 & s2 & Hs & Hl).
      exists s1. split; [|exact Hl]. exists [], s2. exact Hs.
    + intros H. apply IH in H as (s1 & (pre & post & ->) & Hl).
      exists s1. split; [|exact Hl]. now exists (c :: pre), post.
Qed.

End SearchComplete.

(** ** The languages of the four formats *)

Section Languages.
Import Re AclasPS6XParser Frames Formats.

Lemma matches_number_intro n :
  number_ok n = true -> matches number (number_text n) [].
Proof.
  intros Hok. apply number_ok_inv in Hok as (Hi & Hl & Hf & Hp).
  unfold number, number_text, plus, opt, star.
  apply (matches_seq _ _ (int_digits n) _ [] []).
  { constructor; [exact Hi|exact Hl|discriminate]. }
  destruct (point n).
  - apply (matches_seq _ _ ["."%char] (frac_digits n) [] []).
    + constructor; [reflexivity|cbn; lia|intros h [= <-]; cbn; lia].
    + constructor; [exact Hf|lia|discriminate].
  - apply (matches_seq _ _ [] [] [] []).
    + constructor; [reflexivity|cbn; lia|intros h [= <-]; cbn; lia].
    + constructor; [reflexivity|cbn; lia|discriminate].
Qed.

Lemma matches_signed_intro s :
  number_ok (magnitude s) = true ->
  matches signed_number (signed_text s) [].
Proof.
  intros Hok. unfold signed_number, signed_text, opt.
  apply (matches_seq _ _ _ (number_text (magnitude s)) [] []);
    [|now apply matches_number_intro].
  destruct (sign s); constructor;
    try reflexivity; try (cbn; lia); intros h [= <-]; cbn; lia.
Qed.

Lemma matches_code_intro ds :
  forallb Py.isdigit ds = true -> (4 <= length ds <= 6)%nat ->
  matches (Grp (Rep digit 4 (Some 6%nat))) ds [ds].
Proof.
  intros Hds Hl. apply (matches_grp _ ds []).
  constructor; [exact Hds|lia|intros h [= <-]; lia].
Qed.

Lemma matches_code_inv s g :
  matches (Grp (Rep digit 4 (Some 6%nat))) s g ->
  g = [s] /\ forallb Py.isdigit s = true /\ (4 <= length s <= 6)%nat.
Proof.
  intros H. apply matches_grp_inv in H as (g0 & -> & H).
  apply matches_rep_inv in H as (-> & Hd & Hlo & Hhi).
  specialize (Hhi 6%nat eq_refl). repeat split; [exact Hd|lia|lia].
Qed.

Lemma matches_lit_inv c s g :
  matches (Chr (lit c)) s g -> g = [] /\ s = [c].
Proof.
  intros H. apply matches_chr_inv in H as (-> & c' & -> & Hc).
  unfold lit in Hc. apply Ascii.eqb_eq in Hc as <-. now split.
Qed.

Lemma matches_grp_signed_inv s g :
  matches (Grp signed_number) s g ->
  exists n, number_ok (magnitude n) = true /\ s = signed_text n /\ g = [s].
Proof.
  intros H. apply matches_grp_inv in H as (g0 & -> & H).
  apply matches_signed in H as (-> & n & Hok & ->). now exists n.
Qed.

Lemma matches_grp_number_inv s g :
  matches (Grp number) s g ->
  exists n, number_ok n = true /\ s = number_text n /\ g = [s].
Proof.
  intros H. apply matches_grp_inv in H as (g0 & -> & H).
  apply matches_number in H as (-> & n & Hok & ->). now exists n.
Qed.

(** The tokens of the Full format are the texts of the Full frames. *)
Lemma full_language s g :
  matches (PATTERNS full) s g
  <-> exists f, full_ok f = true /\ s = full_text f
        /\ g = [code f; signed_text (net f); number_text (price f);
                number_text (total f)].
Proof.
  split.
  - cbn [PATTERNS]. intros H.
    apply matches_seq_inv in H as (? & ? & ? & ? & -> & -> & Hp & H).
    apply matches_seq_inv in H as (c & ? & ? & ? & -> & -> & Hc & H).
    apply matches_seq_inv in H as (? & ? & ? & ? & -> & -> & Hw & H).
    apply matches_seq_inv in H as (? & ? & ? & ? & -> & -> & Hn & H).
    apply matches_seq_inv in H as (? & ? & ? & ? & -> & -> & Hu & H).
    apply matches_seq_inv in H as (? & ? & ? & ? & -> & -> & Hpr & H).
    apply matches_seq_inv in H as (? & ? & ? & ? & -> & -> & Ht & Hto).
    apply matches_lit_inv in Hp as (-> & ->), Hw as (-> & ->),
      Hu as (-> & ->), Ht as (-> & ->).
    apply matches_code_inv in Hc as (-> & Hd & Hl).
    apply matches_grp_signed_inv in Hn as (n & Hn & -> & ->).
    apply matches_grp_number_inv in Hpr as (u & Hu & -> & ->).
    apply matches_grp_number_inv in Hto as (t & Ht & -> & ->).
    exists (mkFull c n u t). unfold full_ok, full_text.
    cbn [code net price total]. rewrite Hd, Hn, Hu, Ht.
    repeat split.
    destruct Hl as [H4 H6]. apply Nat.leb_le in H4, H6. now rewrite H4, H6.
  - intros (f & Hok & -> & ->). unfold full_ok in Hok.
    rewrite !andb_true_iff, !Nat.leb_le in Hok.
    destruct Hok as [[[[[Hd H4] H6] Hn] Hu] Ht].
    cbn [PATTERNS]. unfold full_text.
    apply (matches_seq _ _ ["P"%char] _ [] _); [now constructor|].
    apply (matches_seq _ _ (code f) _ [code f] _);
      [now apply matches_code_intro|].
    apply (matches_seq _ _ ["W"%char] _ [] _); [now constructor|].
    apply (matches_seq _ _ (signed_text (net f)) _ [signed_text (net f)] _);
      [apply (matches_grp _ _ []); now apply matches_signed_intro|].
    apply (matches_seq _ _ ["U"%char] _ [] _); [now constructor|].
    apply (matches_seq _ _ (number_text (price f)) _ [number_text (price f)] _);
      [apply (matches_grp _ _ []); now apply matches_number_intro|].
    apply (matches_seq _ _ ["T"%char] _ [] [number_text (total f)]);
      [now constructor|].
    apply (matches_grp _ _ []). now apply matches_number_intro.
Qed.

(** The tokens of the PLU format are the texts of the PLU frames. *)
Lemma plu_language s g :
  matches (PATTERNS plu_weight) s g
  <-> exists p, plu_ok p = true /\ s = plu_text p
        /\ g = [plu_code p; signed_text (plu_net p)].
Proof.
  split.
  - cbn [PATTERNS]. intros H.
    apply matches_seq_inv in H as (? & ? & ? & ? & -> & -> & Hp & H).
    apply matches_seq_inv in H as (c & ? & ? & ? & -> & -> & Hc & H).
    apply matches_seq_inv in H as (? & ? & ? & ? & -> & -> & Hw & Hn).
    apply matches_lit_inv in Hp as (-> & ->), Hw as (-> & ->).
    apply matches_code_inv in Hc as (-> & Hd & Hl).
    apply matches_grp_signed_inv in Hn as (n & Hn & -> & ->).
    exists (mkPlu c n). unfold plu_ok, plu_text.
    cbn [plu_code plu_net]. rewrite Hd, Hn. repeat split.
    destruct Hl as [H4 H6]. apply Nat.leb_le in H4, H6. now rewrite H4, H6.
  - intros (p & Hok & -> & ->). unfold plu_ok in Hok.
    rewrite !andb_true_iff, !Nat.leb_le in Hok.
    destruct Hok as [[[Hd H4] H6] Hn].
    cbn [PATTERNS]. unfold plu_text.
    apply (matches_seq _ _ ["P"%char] _ [] _); [now constructor|].
    apply (matches_seq _ _ (plu_code p) _ [plu_code p] _);
      [now apply matches_code_intro|].
    apply (matches_seq _ _ ["W"%char] _ [] [signed_text (plu_net p)]);
      [now constructor|].
    apply (matches_grp _ _ []). now apply matches_signed_intro.
Qed.

(** The tokens of the Weight-only format. *)
Lemma weight_language s g :
  matches (PATTERNS weight_only) s g
  <-> exists n, number_ok (magnitude n) = true /\ s = weight_text n
        /\ g = [signed_text n].
Proof.
  split.
  - cbn [PATTERNS]. intros H.
    apply matches_seq_inv in H as (? & ? & ? & ? & -> & -> & Hw & Hn).
    apply matches_lit_inv in Hw as (-> & ->).
    apply matches_grp_signed_inv in Hn as (n & Hn & -> & ->).
    now exists n.
  - intros (n & Hok & -> & ->). cbn [PATTERNS]. unfold weight_text.
    apply (matches_seq _ _ ["W"%char] _ [] [signed_text n]);
      [now constructor|].
    apply (matches_grp _ _ []). now apply matches_signed_intro.
Qed.

(** The tokens of the simple format. *)
Lemma simple_language s g :
  matches (PATTERNS simple) s g
  <-> exists m, simple_ok m = true /\ s = simple_text m
        /\ g = [number_text (amount m)].
Proof.
  split.
  - cbn [PATTERNS]. intros H.
    apply matches_seq_inv in H as (? & ? & ? & ? & -> & -> & Hn & H).
    apply matches_seq_inv in H as (b & ? & ? & ? & -> & -> & Hb & H).
    apply matches_seq_inv in H as (? & ? & ? & ? & -> & -> & Hk & Hg).
    apply matches_grp_number_inv in Hn as (n & Hn & -> & ->).
    apply matches_rep_inv in Hb as (-> & Hb & _).
    apply matches_chr_inv in Hk as (-> & k & -> & Hk).
    apply matches_chr_inv in Hg as (-> & g & -> & Hg).
    exists (mkSimple n b k g). unfold simple_ok, simple_text.
    cbn [amount blanks kilo gram]. now rewrite Hn, Hb, Hk, Hg.
  - intros (m & Hok & -> & ->). unfold simple_ok in Hok.
    rewrite !andb_true_iff in Hok. destruct Hok as [[[Hn Hb] Hk] Hg].
    cbn [PATTERNS]. unfold simple_text.
    apply (matches_seq _ _ (number_text (amount m)) _
             [number_text (amount m)] []);
      [apply (matches_grp _ _ []); now apply matches_number_intro|].
    apply (matches_seq _ _ (blanks m) _ [] []).
    { constructor; [exact Hb|lia|discriminate]. }
    apply (matches_seq _ _ [kilo m] [gram m] [] []); now constructor.
Qed.

(** [search] answers [None] exactly when no token of the language occurs. *)
Lemma search_none_iff r text :
  search r text = None
  <-> forall s g, matches r s g -> ~ occurs s text.
Proof.
  split.
  - intros Hnone s g Hm Hocc.
    now apply (search_complete r s text g Hm Hocc).
  - intros H. destruct (search r text) as [g|] eqn:Hs; [|reflexivity].
    apply search_occurs in Hs as (s & Hocc & Hm). now destruct (H s g Hm).
Qed.

End Languages.

(** ** What [parse] returns *)

Section ParseCases.
Import Re AclasPS6XParser Frames Formats.

Lemma occurs_occurs s1 s2 text :
  occurs s1 s2 -> occurs s2 text -> occurs s1 text.
Proof.
  intros (a & b & ->) (c & d & ->). exists (c ++ a), (b ++ d).
  now rewrite <- !app_assoc.
Qed.

Lemma full_holds_plu text : holds_full text -> holds_plu text.
Proof.
  intros (f & Hok & Hocc). unfold full_ok in Hok.
  rewrite !andb_true_iff in Hok. destruct Hok as [[[[[Hd H4] H6] Hn] _] _].
  exists (mkPlu (code f) (net f)). split.
  - unfold plu_ok. cbn [plu_code plu_net]. now rewrite Hd, H4, H6, Hn.
  - apply (occurs_occurs _ (full_text f)); [|exact Hocc].
    exists [], ("U"%char :: number_text (price f)
                ++ "T"%char :: number_text (total f)).
    unfold plu_text, full_text. cbn [plu_code plu_net app].
    now rewrite <- !app_assoc.
Qed.

Lemma plu_holds_weight text : holds_plu text -> holds_weight text.
Proof.
  intros (p & Hok & Hocc). unfold plu_ok in Hok.
  rewrite !andb_true_iff in Hok. destruct Hok as [_ Hn].
  exists (plu_net p). split; [exact Hn|].
  apply (occurs_occurs _ (plu_text p)); [|exact Hocc].
  exists ("P"%char :: plu_code p), []. unfold plu_text, weight_text.
  now rewrite app_nil_r.
Qed.

Lemma search_full_none text :
  search (PATTERNS full) text = None <-> ~ holds_full text.
Proof.
  rewrite search_none_iff. split.
  - intros H (f & Hok & Hocc). eapply (H (full_text f)); [|exact Hocc].
    apply full_language. exists f. now repeat split.
  - intros H s g Hm Hocc. apply full_language in Hm as (f & Hok & -> & _).
    apply H. now exists f.
Qed.

Lemma search_plu_none text :
  search (PATTERNS plu_weight) text = None <-> ~ holds_plu text.
Proof.
  rewrite search_none_iff. split.
  - intros H (p & Hok & Hocc). eapply (H (plu_text p)); [|exact Hocc].
    apply plu_language. exists p. now repeat split.
  - intros H s g Hm Hocc. apply plu_language in Hm as (p & Hok & -> & _).
    apply H. now exists p.
Qed.

Lemma search_weight_none text :
  search (PATTERNS weight_only) text = None <-> ~ holds_weight text.
Proof.
  rewrite search_none_iff. split.
  - intros H (n & Hok & Hocc). eapply (H (weight_text n)); [|exact Hocc].
    apply weight_language. exists n. now repeat split.
  - intros H s g Hm Hocc. apply weight_language in Hm as (n & Hok & -> & _).
    apply H. now exists n.
Qed.

Lemma search_simple_none text :
  search (PATTERNS simple) text = None <-> ~ holds_simple text.
Proof.
  rewrite search_none_iff. split.
  - intros H (m & Hok & Hocc). eapply (H (simple_text m)); [|exact Hocc].
    apply simple_language. exists m. now repeat split.
  - intros H s g Hm Hocc. apply simple_language in Hm as (m & Hok & -> & _).
    apply H. now exists m.
Qed.

(** The branches of [parse]: the formats are tried in their order, and the
    first that has a token in the text gives the frame. *)
Lemma parse_cases plu_prices data :
  let text := text_of data in
  (exists f, full_ok f = true /\ occurs (full_text f) text
             /\ parse plu_prices data = Some (full_frame f))
  \/ (~ holds_full text
      /\ exists p, plu_ok p = true /\ occurs (plu_text p) text
                   /\ parse plu_prices data = Some (plu_frame plu_prices p))
  \/ (~ holds_plu text
      /\ exists s, number_ok (magnitude s) = true
                   /\ occurs (weight_text s) text
                   /\ parse plu_prices data
                      = Some (bare_frame (signed_value s)))
  \/ (~ holds_weight text
      /\ exists m, simple_ok m = true /\ occurs (simple_text m) text
                   /\ parse plu_prices data
                      = Some (bare_frame (number_value (amount m))))
  \/ (~ holds_weight text /\ ~ holds_simple text
      /\ parse plu_prices data = None).
Proof.
  cbv zeta. unfold parse, parse_try, text_of.
  destruct (Py.strip (Py.decode_ascii_ignore data)) as [|c text] eqn:Htext.
  { do 4 right. repeat split.
    - intros (s & _ & pre & post & H). now destruct pre.
    - intros (m & _ & pre & post & H). destruct pre; [|discriminate].
      unfold simple_text in H. destruct (number_text (amount m));
        [destruct (blanks m)|]; discriminate. }
  destruct (search (PATTERNS full) (c :: text)) as [g|] eqn:Hfull.
  { left. apply search_occurs in Hfull as (s & Hocc & Hm).
    apply full_language in Hm as (f & Hok & -> & ->).
    exists f. split; [exact Hok|]. split; [exact Hocc|].
    unfold full_ok in Hok. rewrite !andb_true_iff in Hok.
    destruct Hok as [[[[[_ _] _] Hw] Hu] Ht].
    rewrite (float_of_signed _ Hw), (float_of_number _ Hu),
      (float_of_number _ Ht). reflexivity. }
  apply search_full_none in Hfull.
  destruct (search (PATTERNS plu_weight) (c :: text)) as [g|] eqn:Hplu.
  { right. left. split; [exact Hfull|].
    apply search_occurs in Hplu as (s & Hocc & Hm).
    apply plu_language in Hm as (p & Hok & -> & ->).
    exists p. split; [exact Hok|]. split; [exact Hocc|].
    unfold plu_ok in Hok. rewrite !andb_true_iff in Hok.
    destruct Hok as [_ Hw].
    rewrite (float_of_signed _ Hw). reflexivity. }
  apply search_plu_none in Hplu.
  destruct (search (PATTERNS weight_only) (c :: text)) as [g|] eqn:Hwo.
  { do 2 right. left. split; [exact Hplu|].
    apply search_occurs in Hwo as (s & Hocc & Hm).
    apply weight_language in Hm as (n & Hok & -> & ->).
    exists n. split; [exact Hok|]. split; [exact Hocc|].
    cbn [nth]. rewrite (float_of_signed _ Hok). reflexivity. }
  apply search_weight_none in Hwo.
  destruct (search (PATTERNS simple) (c :: text)) as [g|] eqn:Hs.
  { do 3 right. left. split; [exact Hwo|].
    apply search_occurs in Hs as (s & Hocc & Hm).
    apply simple_language in Hm as (m & Hok & -> & ->).
    exists m. split; [exact Hok|]. split; [exact Hocc|].
    unfold simple_ok in Hok. rewrite !andb_true_iff in Hok.
    destruct Hok as [[[Hn _] _] _].
    cbn [nth]. rewrite (float_of_number _ Hn). reflexivity. }
  apply search_simple_none in Hs.
  do 4 right. now repeat split.
Qed.

End ParseCases.

(** Whatever [parse] returns was in the chunk: the frame comes from a token
    of one of the four formats that occurs in the text of the chunk, with
    the fields that the format prescribes, and a format is used only when
    no token of the formats before it occurs. *)
Theorem parse_contract (plu_prices : gmap string float)
    (data : list Byte.byte) (frame : AclasPS6XParser.Frame) :
  AclasPS6XParser.parse plu_prices data = Some frame ->
  let text := Formats.text_of data in
  (exists f, Frames.full_ok f = true
             /\ Formats.occurs (Frames.full_text f) text
             /\ frame = Frames.full_frame f)
  \/ (~ Formats.holds_full text
      /\ exists p, Formats.plu_ok p = true
                   /\ Formats.occurs (Formats.plu_text p) text
                   /\ frame = Formats.plu_frame plu_prices p)
  \/ (~ Formats.holds_plu text
      /\ exists s, Frames.number_ok (Frames.magnitude s) = true
                   /\ Formats.occurs (Formats.weight_text s) text
                   /\ frame = Formats.bare_frame (Frames.signed_value s))
  \/ (~ Formats.holds_weight text
      /\ exists m, Formats.simple_ok m = true
                   /\ Formats.occurs (Formats.simple_text m) text
                   /\ frame = Formats.bare_frame
                                (Frames.number_value (Formats.amount m))).
Proof.
  intros Hparse.
  destruct (parse_cases plu_prices data)
    as [(f & Hok & Hocc & H)|[(Hno & p & Hok & Hocc & H)
       |[(Hno & s & Hok & Hocc & H)|[(Hno & m & Hok & Hocc & H)
       |(_ & _ & H)]]]]; rewrite H in Hparse; try discriminate;
    injection Hparse as <-.
  - left. now exists f.
  - right. left. split; [exact Hno|]. now exists p.
  - do 2 right. left. split; [exact Hno|]. now exists s.
  - do 3 right. split; [exact Hno|]. now exists m.
Qed.

(** A PLU frame with a line end after it, in a chunk of its own. *)
Lemma parse_contract_witness :
  let plu_prices :=
    ScaleMiddleware.plu_prices ScaleMiddleware.DEFAULT_CONFIG in
  let data := list_byte_of_string "P0001W+001.234" ++ [Byte.x0d; Byte.x0a] in
  let frame := AclasPS6XParser.mkFrame "0001" 1.234 850 1048.9 in
  let text := Formats.text_of data in
  (exists f, Frames.full_ok f = true
             /\ Formats.occurs (Frames.full_text f) text
             /\ frame = Frames.full_frame f)
  \/ (~ Formats.holds_full text
      /\ exists p, Formats.plu_ok p = true
                   /\ Formats.occurs (Formats.plu_text p) text
                   /\ frame = Formats.plu_frame plu_prices p)
  \/ (~ Formats.holds_plu text
      /\ exists s, Frames.number_ok (Frames.magnitude s) = true
                   /\ Formats.occurs (Formats.weight_text s) text
                   /\ frame = Formats.bare_frame (Frames.signed_value s))
  \/ (~ Formats.holds_weight text
      /\ exists m, Formats.simple_ok m = true
                   /\ Formats.occurs (Formats.simple_text m) text
                   /\ frame = Formats.bare_frame
                                (Frames.number_value (Formats.amount m))).
Proof.
  apply (parse_contract
           (ScaleMiddleware.plu_prices ScaleMiddleware.DEFAULT_CONFIG)
           (list_byte_of_string "P0001W+001.234" ++ [Byte.x0d; Byte.x0a])).
  vm_compute. reflexivity.
Defined.

(** [parse] returns nothing exactly when the text of the chunk holds neither
    a weight token [W<number>] (as every Full, PLU and Weight-only frame
    does) nor a token [<number>kg]; a blank chunk is such a text. *)
Theorem parse_none_iff (plu_prices : gmap string float)
    (data : list Byte.byte) :
  AclasPS6XParser.parse plu_prices data = None
  <-> ~ Formats.holds_weight (Formats.text_of data)
      /\ ~ Formats.holds_simple (Formats.text_of data).
Proof.
  destruct (parse_cases plu_prices data)
    as [(f & Hok & Hocc & H)|[(Hno & p & Hok & Hocc & H)
       |[(Hno & s & Hok & Hocc & H)|[(Hno & m & Hok & Hocc & H)
       |(Hw & Hs & H)]]]]; rewrite H; cbv zeta in *.
  - split; [discriminate|]. intros [Hw _]. exfalso. apply Hw.
    apply plu_holds_weight, full_holds_plu. now exists f.
  - split; [discriminate|]. intros [Hw _]. exfalso. apply Hw.
    apply plu_holds_weight. now exists p.
  - split; [discriminate|]. intros [Hw _]. exfalso. apply Hw. now exists s.
  - split; [discriminate|]. intros [_ Hs]. exfalso. apply Hs. now exists m.
  - split; [now intros _|reflexivity].
Qed.

(** ** A frame of the other formats in a chunk of its own *)

Section DecodeOthers.
Import Re AclasPS6XParser Frames Formats.

Lemma occurs_In s text c : occurs s text -> In c s -> In c text.
Proof.
  intros (pre & post & ->) H. apply in_or_app. right.
  apply in_or_app. now left.
Qed.

Lemma run_not_In (cs : charset) x ds :
  cs x = false -> forallb cs ds = true -> ~ In x ds.
Proof.
  intros Hx Hall Hin. rewrite forallb_forall in Hall.
  apply Hall in Hin. congruence.
Qed.

Lemma number_not_In x n :
  Py.isdigit x = false -> x <> "."%char -> number_ok n = true ->
  ~ In x (number_text n).
Proof.
  intros Hx Hp Hok Hin. apply number_ok_inv in Hok as (Hi & _ & Hf & _).
  unfold number_text in Hin. apply in_app_or in Hin as [Hin|Hin].
  - exact (run_not_In _ _ _ Hx Hi Hin).
  - destruct (point n); [|exact Hin]. destruct Hin as [Hin|Hin];
      [congruence|exact (run_not_In _ _ _ Hx Hf Hin)].
Qed.

Lemma signed_not_In x s :
  Py.isdigit x = false -> x <> "."%char -> x <> "+"%char -> x <> "-"%char ->
  number_ok (magnitude s) = true -> ~ In x (signed_text s).
Proof.
  intros Hx Hp Hplus Hminus Hok Hin. unfold signed_text in Hin.
  apply in_app_or in Hin as [Hin|Hin];
    [|exact (number_not_In _ _ Hx Hp Hok Hin)].
  destruct (sign s); [exact Hin| |]; destruct Hin as [Hin|[]]; congruence.
Qed.

Lemma plu_text_no_full p : plu_ok p = true -> ~ holds_full (plu_text p).
Proof.
  unfold plu_ok. rewrite !andb_true_iff. intros [[[Hc _] _] Hw].
  intros (f & _ & Hocc). apply (occurs_In _ _ "U"%char) in Hocc.
  - unfold plu_text in Hocc. destruct Hocc as [Hocc|Hocc]; [discriminate|].
    apply in_app_or in Hocc as [Hocc|[Hocc|Hocc]]; [|discriminate|].
    + now apply (run_not_In Py.isdigit "U"%char) in Hc.
    + now apply (signed_not_In "U"%char) in Hw.
  - unfold full_text. right. apply in_or_app. right. right.
    apply in_or_app. right. now left.
Qed.

Lemma weight_text_no_plu s :
  number_ok (magnitude s) = true -> ~ holds_plu (weight_text s).
Proof.
  intros Hw (p & _ & Hocc). apply (occurs_In _ _ "P"%char) in Hocc.
  - unfold weight_text in Hocc. destruct Hocc as [Hocc|Hocc]; [discriminate|].
    now apply (signed_not_In "P"%char) in Hw.
  - now left.
Qed.

Lemma one_of_not (a b x c : ascii) :
  one_of a b c = true -> x <> a -> x <> b -> x <> c.
Proof.
  unfold one_of. rewrite orb_true_iff, !Ascii.eqb_eq. intros [<-| <-]; auto.
Qed.

Lemma simple_text_no_weight m :
  simple_ok m = true -> ~ holds_weight (simple_text m).
Proof.
  unfold simple_ok. rewrite !andb_true_iff. intros [[[Hn Hb] Hk] Hg].
  intros (s & _ & Hocc). apply (occurs_In _ _ "W"%char) in Hocc; [|now left].
  unfold simple_text in Hocc. apply in_app_or in Hocc as [Hocc|Hocc].
  - now apply (number_not_In "W"%char) in Hn.
  - apply in_app_or in Hocc as [Hocc|[Hocc|[Hocc|[]]]].
    + now apply (run_not_In Py.isspace "W"%char) in Hb.
    + symmetry in Hocc. revert Hocc.
      now apply (one_of_not "k" "K")%char.
    + symmetry in Hocc. revert Hocc.
      now apply (one_of_not "g" "G")%char.
Qed.

Lemma match_plu p rest :
  plu_ok p = true -> clean_after (magnitude (plu_net p)) rest = true ->
  match_ (PATTERNS plu_weight) (plu_text p ++ rest)
  = Some [plu_code p; signed_text (plu_net p)].
Proof.
  unfold plu_ok. rewrite !andb_true_iff, !Nat.leb_le.
  intros [[[Hc Hlo] Hhi] Hw] Hclean.
  unfold match_, plu_text. cbn [PATTERNS].
  rewrite exec_seq, <- app_comm_cons, exec_chr by reflexivity.
  rewrite exec_seq, <- app_assoc.
  apply exec_grp.
  { intros k' Hk'. apply exec_rep;
      [exact Hc|now left|exact Hlo|exact Hhi|exact Hk']. }
  rewrite exec_seq, <- app_comm_cons, exec_chr by reflexivity.
  apply exec_grp; [|reflexivity].
  intros k' Hk'. now apply exec_signed.
Qed.

Lemma match_weight s rest :
  number_ok (magnitude s) = true -> clean_after (magnitude s) rest = true ->
  match_ (PATTERNS weight_only) (weight_text s ++ rest)
  = Some [signed_text s].
Proof.
  intros Hw Hclean. unfold match_, weight_text. cbn [PATTERNS].
  rewrite exec_seq, <- app_comm_cons, exec_chr by reflexivity.
  apply exec_grp; [|reflexivity].
  intros k' Hk'. now apply exec_signed.
Qed.

Lemma isspace_clean n c rest :
  Py.isspace c = true -> clean_after n (c :: rest) = true.
Proof.
  intros Hc. apply clean_after_literal;
    destruct c as [[] [] [] [] [] [] [] []]; try discriminate Hc; reflexivity.
Qed.

Lemma one_of_clean n a b c rest :
  one_of a b c = true -> Py.isdigit a = false -> Py.isdigit b = false ->
  a <> "."%char -> b <> "."%char -> clean_after n (c :: rest) = true.
Proof.
  unfold one_of. rewrite orb_true_iff, !Ascii.eqb_eq.
  intros [<-| <-] Ha Hb Hpa Hpb; apply clean_after_literal; try assumption;
    now apply Ascii.eqb_neq.
Qed.

Lemma one_of_stops a b c rest :
  one_of a b c = true -> Py.isspace a = false -> Py.isspace b = false ->
  stops Py.isspace (c :: rest).
Proof.
  unfold one_of. rewrite orb_true_iff, !Ascii.eqb_eq.
  now intros [<-| <-].
Qed.

Lemma match_simple m :
  simple_ok m = true ->
  match_ (PATTERNS simple) (simple_text m) = Some [number_text (amount m)].
Proof.
  unfold simple_ok. rewrite !andb_true_iff. intros [[[Hn Hb] Hk] Hg].
  unfold match_, simple_text. cbn [PATTERNS].
  rewrite exec_seq.
  apply exec_grp.
  { intros k' Hk'. apply exec_number; [exact Hn| |exact Hk'].
    destruct (blanks m) as [|c bs]; cbn [app].
    - now apply (one_of_clean _ "k" "K")%char.
    - apply isspace_clean. cbn [forallb] in Hb.
      now apply andb_prop in Hb as [Hb _]. }
  rewrite exec_seq. unfold star.
  apply exec_rep; [exact Hb| |lia|exact I|].
  { left. now apply (one_of_stops "k" "K")%char. }
  rewrite exec_seq, exec_chr by exact Hk.
  now rewrite exec_chr by exact Hg.
Qed.

Lemma search_head r s g : match_ r s = Some g -> search r s = Some g.
Proof. intros H. destruct s; cbn [search]; now rewrite H. Qed.

End DecodeOthers.

(** A chunk whose text is one well-formed PLU frame [P<code>W<weight>] is
    decoded to the code, the binary64 number nearest to the weight, the unit
    price that the table holds for the code (zero when it holds none) and
    their product rounded to two decimals. *)
Theorem plu_frame_decoded (plu_prices : gmap string float) (p : Formats.Plu)
    (data : list Byte.byte) :
  Formats.plu_ok p = true ->
  Formats.text_of data = Formats.plu_text p ->
  AclasPS6XParser.parse plu_prices data
  = Some (Formats.plu_frame plu_prices p).
Proof.
  intros Hok Htext.
  pose proof (proj2 (search_full_none _) (plu_text_no_full p Hok)) as Hfull.
  pose proof (search_head _ _ _ (match_plu p [] Hok eq_refl)) as Hplu.
  rewrite app_nil_r in Hplu.
  unfold Formats.text_of in Htext.
  unfold AclasPS6XParser.parse, AclasPS6XParser.parse_try. rewrite Htext.
  destruct (Formats.plu_text p) as [|c t] eqn:E; [discriminate E|].
  rewrite Hfull, Hplu.
  unfold Formats.plu_ok in Hok. rewrite !andb_true_iff in Hok.
  destruct Hok as [_ Hw]. rewrite (float_of_signed _ Hw). reflexivity.
Qed.

(** The frame [P0003W-000.250] and its line end; the table prices the code
    0003 at 650. *)
Lemma plu_frame_decoded_witness :
  AclasPS6XParser.parse
    (ScaleMiddleware.plu_prices ScaleMiddleware.DEFAULT_CONFIG)
    (list_byte_of_string "P0003W-000.250" ++ [Byte.x0d; Byte.x0a])
  = Some (AclasPS6XParser.mkFrame "0003" (-0.25) 650 (-162.5)).
Proof.
  refine (eq_trans
            (plu_frame_decoded
               (ScaleMiddleware.plu_prices ScaleMiddleware.DEFAULT_CONFIG)
               (Formats.mkPlu (list_ascii_of_string "0003")
                  (Frames.mkSigned Frames.Minus
                     (Frames.mkNumber (list_ascii_of_string "000") true
                        (list_ascii_of_string "250"))))
               _ _ _) _);
    vm_compute; reflexivity.
Defined.

(** A chunk whose text is one Weight-only frame [W<weight>] is decoded to
    the default product 0000 with that weight and no prices. *)
Theorem weight_frame_decoded (plu_prices : gmap string float)
    (s : Frames.Signed) (data : list Byte.byte) :
  Frames.number_ok (Frames.magnitude s) = true ->
  Formats.text_of data = Formats.weight_text s ->
  AclasPS6XParser.parse plu_prices data
  = Some (Formats.bare_frame (Frames.signed_value s)).
Proof.
  intros Hok Htext.
  pose proof (weight_text_no_plu s Hok) as Hno.
  pose proof (proj2 (search_plu_none _) Hno) as Hplu.
  assert (Hfull : Re.search (AclasPS6XParser.PATTERNS AclasPS6XParser.full)
                    (Formats.weight_text s) = None).
  { apply search_full_none. intros H. now apply Hno, full_holds_plu. }
  pose proof (search_head _ _ _ (match_weight s [] Hok eq_refl)) as Hw.
  rewrite app_nil_r in Hw.
  unfold Formats.text_of in Htext.
  unfold AclasPS6XParser.parse, AclasPS6XParser.parse_try. rewrite Htext.
  destruct (Formats.weight_text s) as [|c t] eqn:E; [discriminate E|].
  rewrite Hfull, Hplu, Hw. cbn [nth].
  rewrite (float_of_signed _ Hok). reflexivity.
Qed.

(** The frame [W12.5] after a byte that is not ASCII. *)
Lemma weight_frame_decoded_witness :
  AclasPS6XParser.parse ∅ (Byte.xff :: list_byte_of_string "W12.5")
  = Some (AclasPS6XParser.mkFrame "0000" 12.5 0 0).
Proof.
  refine (eq_trans
            (weight_frame_decoded ∅
               (Frames.mkSigned Frames.Unsigned
                  (Frames.mkNumber (list_ascii_of_string "12") true
                     (list_ascii_of_string "5")))
               _ _ _) _);
    vm_compute; reflexivity.
Defined.

(** A chunk whose text is one frame of the simple format, a decimal and the
    unit kg in either case with any blanks between them, is decoded to the
    default product 0000 with that weight and no prices. *)
Theorem simple_frame_decoded (plu_prices : gmap string float)
    (m : Formats.Simple) (data : list Byte.byte) :
  Formats.simple_ok m = true ->
  Formats.text_of data = Formats.simple_text m ->
  AclasPS6XParser.parse plu_prices data
  = Some (Formats.bare_frame (Frames.number_value (Formats.amount m))).
Proof.
  intros Hok Htext.
  pose proof (simple_text_no_weight m Hok) as Hno.
  pose proof (proj2 (search_weight_none _) Hno) as Hw.
  assert (Hplu : Re.search
                   (AclasPS6XParser.PATTERNS AclasPS6XParser.plu_weight)
                   (Formats.simple_text m) = None).
  { apply search_plu_none. intros H. now apply Hno, plu_holds_weight. }
  assert (Hfull : Re.search (AclasPS6XParser.PATTERNS AclasPS6XParser.full)
                    (Formats.simple_text m) = None).
  { apply search_full_none. intros H.
    now apply Hno, plu_holds_weight, full_holds_plu. }
  pose proof (search_head _ _ _ (match_simple m Hok)) as Hs.
  unfold Formats.text_of in Htext.
  unfold AclasPS6XParser.parse, AclasPS6XParser.parse_try. rewrite Htext.
  destruct (Formats.simple_text m) as [|c t] eqn:E.
  { unfold Formats.simple_text in E. apply app_eq_nil in E as [_ E].
    apply app_eq_nil in E as [_ E]. discriminate E. }
  rewrite Hfull, Hplu, Hw, Hs. cbn [nth].
  unfold Formats.simple_ok in Hok. rewrite !andb_true_iff in Hok.
  destruct Hok as [[[Hn _] _] _].
  rewrite (float_of_number _ Hn). reflexivity.
Qed.

(** The text [2.5 Kg] between blanks. *)
Lemma simple_frame_decoded_witness :
  AclasPS6XParser.parse ∅ (list_byte_of_string " 2.5 Kg ")
  = Some (AclasPS6XParser.mkFrame "0000" 2.5 0 0).
Proof.
  refine (eq_trans
            (simple_frame_decoded ∅
               (Formats.mkSimple
                  (Frames.mkNumber (list_ascii_of_string "2") true
                     (list_ascii_of_string "5"))
                  [" "%char] "K"%char "g"%char)
               _ _ _) _);
    vm_compute; reflexivity.
Defined.

(** ** What a run of the loop keeps *)

Section Keeps.
Import ScaleMiddleware Readings Invariants.

Lemma keeps_refl mw : keeps mw mw.
Proof. now repeat split. Qed.

Lemma keeps_trans mw1 mw2 mw3 : keeps mw1 mw2 -> keeps mw2 mw3 -> keeps mw1 mw3.
Proof.
  intros (Hc1 & Hl1 & Hs1 & Hk1) (Hc2 & Hl2 & Hs2 & Hk2). repeat split.
  - congruence.
  - now transitivity (TransactionLogger.lines (logger mw2)).
  - now transitivity (ScaleWebSocketServer.sent (ws_server mw2)).
  - now transitivity (ScaleWebSocketServer.clients (ws_server mw2)).
Qed.

Lemma send_each_keeps send message cs : forall disconnected self,
  let self' := snd (ScaleWebSocketServer.send_each send message cs
                      disconnected self) in
  ScaleWebSocketServer.clients self' = ScaleWebSocketServer.clients self
  /\ ScaleWebSocketServer.sent self `prefix_of` ScaleWebSocketServer.sent self'.
Proof.
  induction cs as [|c cs IH]; intros disconnected self; cbv zeta.
  - now split.
  - cbn [ScaleWebSocketServer.send_each].
    destruct (send c) as [[]|]; try (now split).
    + apply IH.
    + rewrite bind_run. cbv [modify].
      destruct (IH disconnected
                  (ScaleWebSocketServer.mk (ScaleWebSocketServer.clients self)
                     (ScaleWebSocketServer.sent self ++ [(c, message)])))
        as [Hc Hs].
      cbn [ScaleWebSocketServer.clients ScaleWebSocketServer.sent] in *.
      split; [exact Hc|]. etransitivity; [|exact Hs]. now apply prefix_app_r.
Qed.

Lemma broadcast_keeps send reading self :
  let self' := snd (ScaleWebSocketServer.broadcast send reading self) in
  ScaleWebSocketServer.clients self'
  `sublist_of` ScaleWebSocketServer.clients self
  /\ ScaleWebSocketServer.sent self `prefix_of` ScaleWebSocketServer.sent self'.
Proof.
  cbv zeta. unfold ScaleWebSocketServer.broadcast. rewrite bind_run.
  cbv [get]. destruct (ScaleWebSocketServer.clients self) as [|c cs] eqn:Hcs.
  { cbn [snd mret M_ret]. now rewrite Hcs. }
  rewrite bind_run.
  pose proof (send_each_keeps send reading (c :: cs) [] self) as [Hc Hs].
  cbv zeta in Hc, Hs.
  destruct (ScaleWebSocketServer.send_each send reading (c :: cs) [] self)
    as [[disconnected|e] self1]; cbn [snd] in *.
  - cbv [modify]. cbn [snd ScaleWebSocketServer.clients
                         ScaleWebSocketServer.sent].
    split; [|exact Hs]. rewrite Hc, Hcs. apply sublist_filter.
  - split; [|exact Hs]. now rewrite Hc, Hcs.
Qed.

Lemma settle_keeps weight mw :
  let mw' := snd (process_reading_settle weight mw) in
  keeps mw mw' /\ port_open mw' = port_open mw
  /\ (stability mw' = stability mw
      \/ stability mw' = StabilityBuffer.add_reading weight (stability mw)).
Proof.
  cbv zeta. destruct (weight <=? 0)%float eqn:Hw.
  - unfold process_reading_settle. rewrite Hw. cbn [snd mret M_ret].
    split; [apply keeps_refl|]. now split; [|left].
  - rewrite settle_run by exact Hw. cbv zeta. cbn [snd].
    split; [now repeat split|]. now split; [|right].
Qed.

Lemma emit_keeps env data s mw :
  let mw' := snd (process_reading_emit env data s mw) in
  keeps mw mw' /\ port_open mw' = port_open mw
  /\ StabilityBuffer.readings (stability mw')
     = StabilityBuffer.readings (stability mw).
Proof.
  cbv zeta. unfold process_reading_emit. rewrite bind_run. cbv [get].
  destruct (StabilityBuffer.is_duplicate _ _ _ _).
  { cbn [snd mret M_ret]. split; [apply keeps_refl|]. now split. }
  rewrite bind_run.
  cbv [with_stability with_logger with_ws_server zoom modify].
  rewrite bind_run, log_run.
  cbn [logger stability set_stability set_logger ws_server config port_open].
  rewrite bind_run.
  match goal with
  | |- context [ScaleWebSocketServer.broadcast ?f ?r ?w] =>
      pose proof (broadcast_keeps f r w) as [Hk Hs];
      destruct (ScaleWebSocketServer.broadcast f r w) as [[[]|e] w']
  end; cbv zeta in Hk, Hs;
    cbn [snd set_ws_server ws_server logger stability config port_open
           StabilityBuffer.mark_sent StabilityBuffer.readings] in *;
    (split; [|now split]); repeat split; try assumption;
    destruct (log_failure env);
    cbn [logger TransactionLogger.lines]; try reflexivity;
    now apply prefix_app_r.
Qed.

Lemma process_reading_keeps env data mw :
  let mw' := snd (process_reading env data mw) in
  keeps mw mw' /\ port_open mw' = port_open mw
  /\ (StabilityBuffer.readings (stability mw')
      = StabilityBuffer.readings (stability mw)
      \/ StabilityBuffer.readings (stability mw')
         = StabilityBuffer.readings
             (StabilityBuffer.add_reading (AclasPS6XParser.weight data)
                (stability mw))).
Proof.
  cbv zeta. unfold process_reading. rewrite bind_run.
  pose proof (settle_keeps (AclasPS6XParser.weight data) mw)
    as (Hk & Hp & Hb). cbv zeta in Hk, Hp, Hb.
  destruct (process_reading_settle (AclasPS6XParser.weight data) mw)
    as [[[s|]|e] mw1]; cbn [snd mret M_ret] in *.
  - pose proof (emit_keeps env data s mw1) as (Hk2 & Hp2 & Hb2).
    cbv zeta in Hk2, Hp2, Hb2.
    split; [exact (keeps_trans _ _ _ Hk Hk2)|]. split; [congruence|].
    rewrite Hb2. destruct Hb as [->| ->]; auto.
  - split; [exact Hk|]. split; [exact Hp|].
    destruct Hb as [->| ->]; auto.
  - split; [exact Hk|]. split; [exact Hp|].
    destruct Hb as [->| ->]; auto.
Qed.

Lemma read_async_keeps r mw :
  let mw' := snd (read_async r mw) in
  keeps mw mw' /\ stability mw' = stability mw.
Proof.
  cbv zeta. unfold read_async. rewrite bind_run. cbv [get].
  destruct (port_open mw); cbn [negb].
  - destruct r as [[|b data]|]; cbn [snd mret M_ret];
      try (split; [apply keeps_refl|reflexivity]).
    rewrite bind_run. cbv [modify]. cbn [snd mret M_ret].
    split; [now repeat split|reflexivity].
  - cbn [snd mret M_ret]. split; [apply keeps_refl|reflexivity].
Qed.

Lemma read_and_process_keeps tk l :
  let l' := snd (read_and_process tk l) in
  keeps (self l) (self l') /\ slept l `prefix_of` slept l'
  /\ buffer_step (self l) (self l').
Proof.
  cbv zeta. unfold read_and_process. rewrite bind_run.
  unfold on_self, zoom.
  pose proof (read_async_keeps (readline tk) (self l)) as [Hk Hb].
  cbv zeta in Hk, Hb.
  destruct (read_async (readline tk) (self l)) as [[[data|]|e] mw1];
    cbn [snd] in *.
  - rewrite bind_run. cbn [self reconnect_delay slept].
    pose proof (process_reading_keeps (env tk) data mw1) as (Hk2 & _ & Hb2).
    cbv zeta in Hk2, Hb2.
    destruct (process_reading (env tk) data mw1) as [[r|e] mw2];
      cbn [snd self slept mret M_ret] in *;
      (split; [exact (keeps_trans _ _ _ Hk Hk2)|]); (split; [reflexivity|]);
      unfold buffer_step; rewrite <- Hb;
      (destruct Hb2 as [->| ->]; [now left|right; eauto]).
  - cbv [sleep modify]. cbn [snd self slept].
    split; [exact Hk|]. split; [now apply prefix_app_r|].
    left. now rewrite Hb.
  - cbn [self slept]. split; [exact Hk|]. split; [reflexivity|].
    left. now rewrite Hb.
Qed.

Lemma loop_body_keeps tk l :
  let l' := snd (loop_body tk l) in
  keeps (self l) (self l') /\ slept l `prefix_of` slept l'
  /\ buffer_step (self l) (self l').
Proof.
  cbv zeta. unfold loop_body. rewrite bind_run. cbv [get].
  destruct (port_open (self l)); cbn [negb].
  - apply read_and_process_keeps.
  - destruct (connect tk) as [| |e].
    + rewrite !bind_run. cbv [on_self zoom set_reconnect_delay modify].
      rewrite bind_run. cbn [self reconnect_delay slept].
      match goal with
      | |- context [read_and_process tk ?l0] =>
          pose proof (read_and_process_keeps tk l0) as (Hk & Hs & Hb)
      end.
      cbv zeta in Hk, Hs, Hb. cbn [self slept] in Hk, Hs, Hb.
      split; [|split; [exact Hs|exact Hb]].
      eapply keeps_trans; [|exact Hk]. now repeat split.
    + rewrite bind_run. cbv [sleep set_reconnect_delay modify].
      cbn [snd self slept]. split; [apply keeps_refl|].
      split; [now apply prefix_app_r|now left].
    + cbn [snd]. split; [apply keeps_refl|]. split; [reflexivity|now left].
Qed.

Lemma add_reading_bound w b :
  (length (StabilityBuffer.readings b) <= 10)%nat ->
  (length (StabilityBuffer.readings (StabilityBuffer.add_reading w b))
   <= 10)%nat.
Proof.
  intros H. rewrite add_reading_window by exact H.
  rewrite last_n_length. lia.
Qed.

Lemma buffer_step_bound mw mw' :
  buffer_step mw mw' ->
  (length (StabilityBuffer.readings (stability mw)) <= 10)%nat ->
  (length (StabilityBuffer.readings (stability mw')) <= 10)%nat.
Proof.
  intros [->|[w ->]] H; [exact H|now apply add_reading_bound].
Qed.

End Keeps.

(** Whatever the turns of the loop meet, also when one of them ends the loop
    with an exception: the configuration is the one there was, every line
    of the log and every message sent so far stays where it is, with the
    new ones after them, no client is added, and the sleeps so far stay on
    record. *)
Theorem loop_keeps_history (ticks : list ScaleMiddleware.Tick)
    (l : ScaleMiddleware.Loop) :
  let l' := snd (ScaleMiddleware.loop_turns ticks l) in
  let mw := ScaleMiddleware.self l in
  let mw' := ScaleMiddleware.self l' in
  ScaleMiddleware.config mw' = ScaleMiddleware.config mw
  /\ TransactionLogger.lines (ScaleMiddleware.logger mw)
     `prefix_of` TransactionLogger.lines (ScaleMiddleware.logger mw')
  /\ ScaleWebSocketServer.sent (ScaleMiddleware.ws_server mw)
     `prefix_of` ScaleWebSocketServer.sent (ScaleMiddleware.ws_server mw')
  /\ ScaleWebSocketServer.clients (ScaleMiddleware.ws_server mw')
     `sublist_of` ScaleWebSocketServer.clients (ScaleMiddleware.ws_server mw)
  /\ ScaleMiddleware.slept l `prefix_of` ScaleMiddleware.slept l'.
Proof.
  cbv zeta. revert l. induction ticks as [|tk ticks IH]; intros l.
  - now repeat split.
  - cbn [ScaleMiddleware.loop_turns]. rewrite bind_run.
    pose proof (loop_body_keeps tk l) as (Hk & Hs & _). cbv zeta in Hk, Hs.
    destruct (ScaleMiddleware.loop_body tk l) as [[[]|e] l1]; cbn [snd] in *.
    + specialize (IH l1).
      destruct IH as (Hc2 & Hl2 & Hs2 & Hk2 & Hz2).
      destruct (keeps_trans _ _ _ Hk (conj Hc2 (conj Hl2 (conj Hs2 Hk2))))
        as (? & ? & ? & ?).
      repeat split; try assumption. now transitivity (ScaleMiddleware.slept l1).
    + destruct Hk as (? & ? & ? & ?). now repeat split.
Qed.

(** The buffer never holds more than ten readings: from a buffer of at most
    ten, whatever the turns of the loop meet, also when one of them ends
    the loop with an exception. *)
Theorem loop_buffer_bound (ticks : list ScaleMiddleware.Tick)
    (l : ScaleMiddleware.Loop) :
  (length (StabilityBuffer.readings
             (ScaleMiddleware.stability (ScaleMiddleware.self l))) <= 10)%nat ->
  (length (StabilityBuffer.readings
             (ScaleMiddleware.stability
                (ScaleMiddleware.self
                   (snd (ScaleMiddleware.loop_turns ticks l))))) <= 10)%nat.
Proof.
  revert l. induction ticks as [|tk ticks IH]; intros l H; [exact H|].
  cbn [ScaleMiddleware.loop_turns]. rewrite bind_run.
  pose proof (loop_body_keeps tk l) as (_ & _ & Hb). cbv zeta in Hb.
  apply buffer_step_bound in Hb; [|exact H].
  destruct (ScaleMiddleware.loop_body tk l) as [[[]|e] l1]; cbn [snd] in *;
    [now apply IH|exact Hb].
Qed.

(** Twelve turns that each read the line [W1.5], from an empty buffer. *)
Lemma loop_buffer_bound_witness :
  (length (StabilityBuffer.readings
             (ScaleMiddleware.stability
                (ScaleMiddleware.self
                   (snd (ScaleMiddleware.loop_turns
                           (repeat
                              (ScaleMiddleware.mkTick ScaleMiddleware.Connected
                                 (ScaleMiddleware.Line
                                    (list_byte_of_string "W1.5"))
                                 (Readings.calm 0%Z)) 12)
                           (ScaleMiddleware.mkLoop
                              (Readings.fresh ScaleMiddleware.DEFAULT_CONFIG)
                              1 [])))))) <= 10)%nat.
Proof. apply loop_buffer_bound. simpl. lia. Defined.

(** ** The buffer on its own *)

(** The buffer is a window on what it was given: from at most ten readings,
    after any number of calls of [add_reading] it holds the last ten of
    all of them, oldest first, and what was last sent is as it was. *)
Theorem buffer_holds_last_ten (ws : list float) (b : StabilityBuffer.t) :
  (length (StabilityBuffer.readings b) <= 10)%nat ->
  let b' := fold_left (fun b w => StabilityBuffer.add_reading w b) ws b in
  StabilityBuffer.readings b'
  = Readings.last_n 10 (StabilityBuffer.readings b ++ ws)
  /\ StabilityBuffer.last_sent_weight b' = StabilityBuffer.last_sent_weight b
  /\ StabilityBuffer.last_sent_time b' = StabilityBuffer.last_sent_time b.
Proof.
  intros H. cbv zeta.
  assert (Hgen : forall ws b hist,
            StabilityBuffer.readings b = Readings.last_n 10 hist ->
            let b' := fold_left (fun b w => StabilityBuffer.add_reading w b)
                        ws b in
            StabilityBuffer.readings b' = Readings.last_n 10 (hist ++ ws)
            /\ StabilityBuffer.last_sent_weight b'
               = StabilityBuffer.last_sent_weight b
            /\ StabilityBuffer.last_sent_time b'
               = StabilityBuffer.last_sent_time b).
  { clear. induction ws as [|w ws IH]; intros b hist Hb; cbv zeta.
    - cbn [fold_left]. now rewrite app_nil_r.
    - cbn [fold_left].
      destruct (IH (StabilityBuffer.add_reading w b) (hist ++ [w]))
        as (Hr & Hw & Ht); [now apply add_reading_history|].
      rewrite Hr, Hw, Ht, <- app_assoc. now repeat split. }
  apply Hgen. symmetry. now apply last_n_all.
Qed.

(** Twelve readings into an empty buffer leave the last ten. *)
Lemma buffer_holds_last_ten_witness :
  StabilityBuffer.readings
    (fold_left (fun b w => StabilityBuffer.add_reading w b)
       [1; 2; 3; 4; 5; 6; 7; 8; 9; 10; 11; 12]%float
       (StabilityBuffer.mk [] None None))
  = [3; 4; 5; 6; 7; 8; 9; 10; 11; 12]%float.
Proof.
  refine (eq_trans
            (proj1 (buffer_holds_last_ten
                      [1; 2; 3; 4; 5; 6; 7; 8; 9; 10; 11; 12]%float
                      (StabilityBuffer.mk [] None None) _)) _).
  - simpl. lia.
  - reflexivity.
Defined.

(** [is_stable] raises only through [max] of an empty slice: the exception
    is [ValueError], and it comes exactly when [required_readings] is zero
    or negative and the buffer holds no more readings than its absolute
    value. With a positive [required_readings] the call always returns. *)
Theorem is_stable_raises_iff (threshold : float) (required_readings : Z)
    (b : StabilityBuffer.t) (e : Py.exn) :
  StabilityBuffer.is_stable threshold required_readings b = Py.Raise e
  <-> e = Py.ValueError /\ required_readings <= 0
      /\ Z.of_nat (length (StabilityBuffer.readings b)) <= - required_readings.
Proof.
  unfold StabilityBuffer.is_stable.
  destruct (Z.ltb_spec (Z.of_nat (length (StabilityBuffer.readings b)))
              required_readings) as [Hlt|Hge].
  { split; [discriminate|lia]. }
  unfold Py.slice_from.
  destruct (Z.ltb_spec (- required_readings) 0) as [Hpos|Hneg].
  - assert (Hlen : (Z.to_nat (Z.max 0 (Z.of_nat
                      (length (StabilityBuffer.readings b))
                      + - required_readings))
                    < length (StabilityBuffer.readings b))%nat) by lia.
    destruct (drop _ (StabilityBuffer.readings b)) as [|x l] eqn:Hd.
    { apply (f_equal length) in Hd. rewrite length_drop in Hd.
      cbn [length] in Hd. lia. }
    split; [discriminate|lia].
  - destruct (drop _ (StabilityBuffer.readings b)) as [|x l] eqn:Hd.
    + apply (f_equal length) in Hd. rewrite length_drop in Hd.
      cbn [length] in Hd. split.
      * intros [= <-]. split; [reflexivity|lia].
      * intros (-> & _ & _). reflexivity.
    + apply (f_equal length) in Hd. rewrite length_drop in Hd.
      cbn [length] in Hd. split; [discriminate|lia].
Qed.

(** ** [load_config] *)

Section LoadConfig.
Import Json Configuration.

Lemma copy_lookup defaults key :
  copy defaults !! key
  = match defaults !! key with
    | Some _ => Some (Shared key)
    | None => None
    end.
Proof.
  unfold copy. rewrite map_lookup_imap.
  now destruct (defaults !! key).
Qed.

(** The loop of [load_config] raises nothing: the keys of the file that
    [DEFAULT_CONFIG] holds with a [dict] of the file go into the shared
    objects, the others into the copy. *)
Lemma merge_fold items defaults :
  exists config defaults',
    map_fold merge_item (Some (copy defaults), defaults) items
    = (Some config, defaults')
    /\ forall key,
         defaults' !! key
         = match items !! key, defaults !! key with
           | Some (VDict u), Some d => Some (u ∪ d)
           | _, d => d
           end
         /\ config !! key
            = match items !! key, defaults !! key with
              | Some (VDict _), Some _ => Some (Shared key)
              | Some v, _ => Some (Own v)
              | None, Some _ => Some (Shared key)
              | None, None => None
              end.
Proof.
  apply (map_fold_weak_ind
           (fun r m =>
              exists config defaults',
                r = (Some config, defaults')
                /\ forall key,
                     defaults' !! key
                     = match m !! key, defaults !! key with
                       | Some (VDict u), Some d => Some (u ∪ d)
                       | _, d => d
                       end
                     /\ config !! key
                        = match m !! key, defaults !! key with
                          | Some (VDict _), Some _ => Some (Shared key)
                          | Some v, _ => Some (Own v)
                          | None, Some _ => Some (Shared key)
                          | None, None => None
                          end)).
  - exists (copy defaults), defaults. split; [reflexivity|]. intros key.
    rewrite lookup_empty, copy_lookup. now destruct (defaults !! key).
  - intros i x m r Hi (config & defaults' & -> & Hinv).
    destruct (Hinv i) as [Hd Hc]. rewrite Hi in Hd, Hc.
    assert (Hother : forall v (cfg' : Config) (defs' : Defaults),
              (forall key, key <> i -> defs' !! key = defaults' !! key
                                       /\ cfg' !! key = config !! key) ->
              defs' !! i = match v, defaults !! i with
                           | VDict u, Some d => Some (u ∪ d)
                           | _, d => d
                           end ->
              cfg' !! i = match v, defaults !! i with
                          | VDict _, Some _ => Some (Shared i)
                          | v, _ => Some (Own v)
                          end ->
              forall key,
                defs' !! key
                = match <[i:=v]> m !! key, defaults !! key with
                  | Some (VDict u), Some d => Some (u ∪ d)
                  | _, d => d
                  end
                /\ cfg' !! key
                   = match <[i:=v]> m !! key, defaults !! key with
                     | Some (VDict _), Some _ => Some (Shared key)
                     | Some v, _ => Some (Own v)
                     | None, Some _ => Some (Shared key)
                     | None, None => None
                     end).
    { intros v cfg' defs' Hne Hdi Hci key.
      destruct (decide (key = i)) as [->|Hk].
      - rewrite lookup_insert_eq. split; [exact Hdi|].
        rewrite Hci. now destruct v, (defaults !! i).
      - rewrite lookup_insert_ne by congruence.
        destruct (Hne key Hk) as [-> ->]. apply Hinv. }
    unfold merge_item.
    destruct (defaults !! i) as [d|] eqn:Hdef; rewrite Hc.
    + destruct x as [|b|n|f|s|l|u];
        try (eexists _, _; split; [reflexivity|];
             apply Hother;
             [ intros key Hk; now rewrite lookup_insert_ne by congruence
             | exact Hd
             | now rewrite lookup_insert_eq ]).
      cbv beta iota. rewrite Hd. eexists _, _. split; [reflexivity|].
      apply Hother.
      * intros key Hk. now rewrite lookup_insert_ne by congruence.
      * now rewrite lookup_insert_eq.
      * exact Hc.
    + assert (Hx : match x with
                   | VDict _ => (Some (<[i:=Own x]> config), defaults')
                   | _ => (Some (<[i:=Own x]> config), defaults')
                   end = (Some (<[i:=Own x]> config), defaults'))
        by now destruct x.
      rewrite Hx. eexists _, _. split; [reflexivity|].
      apply Hother.
      * intros key Hk. now rewrite lookup_insert_ne by congruence.
      * rewrite Hd. now destruct x.
      * rewrite lookup_insert_eq. now destruct x.
Qed.

End LoadConfig.

(** The merge of [load_config] is one level deep: under a key for which
    both the file and [DEFAULT_CONFIG] hold a [dict], the returned
    configuration holds the entries of the file and, for the keys that the
    file does not give, those of the default; under any other key of the
    file it holds the value of the file alone; under a key that the file
    does not hold, the default. *)
Theorem load_config_merges (items : gmap string Json.value)
    (defaults : Configuration.Defaults) (key : string) :
  let '(config, defaults') :=
    Configuration.load_config
      (Configuration.Holds (Json.VDict items)) defaults in
  Configuration.item key config defaults'
  = match items !! key, defaults !! key with
    | Some (Json.VDict u), Some d => Some (Json.VDict (u ∪ d))
    | Some v, _ => Some v
    | None, d => Json.VDict <$> d
    end.
Proof.
  unfold Configuration.load_config.
  destruct (merge_fold items defaults) as (config & defaults' & -> & Hinv).
  unfold Configuration.item. destruct (Hinv key) as [Hd Hc]. rewrite Hc.
  destruct (items !! key) as [v|], (defaults !! key) as [d|];
    try destruct v; try rewrite Hd; reflexivity.
Qed.

(** What the file overrides stays overridden: the merge writes into the
    objects of [DEFAULT_CONFIG] themselves, so a later call that finds no
    file returns, under a key for which the file held a [dict], the merged
    entries and not the defaults of the module. *)
Theorem load_config_overrides_persist (items : gmap string Json.value)
    (defaults : Configuration.Defaults) (key : string)
    (u d : gmap string Json.value) :
  items !! key = Some (Json.VDict u) ->
  defaults !! key = Some d ->
  let defaults1 :=
    snd (Configuration.load_config
           (Configuration.Holds (Json.VDict items)) defaults) in
  let '(config2, defaults2) :=
    Configuration.load_config Configuration.Absent defaults1 in
  Configuration.item key config2 defaults2 = Some (Json.VDict (u ∪ d)).
Proof.
  intros Hu Hd. cbv zeta. unfold Configuration.load_config at 2.
  destruct (merge_fold items defaults) as (config & defaults' & -> & Hinv).
  cbn [snd Configuration.load_config].
  unfold Configuration.item. rewrite copy_lookup.
  destruct (Hinv key) as [Hd' _]. rewrite Hu, Hd in Hd'.
  rewrite Hd'. cbv beta iota. rewrite Hd'. reflexivity.
Qed.

(** A file that asks for five stable readings, and then no file. *)
Lemma load_config_overrides_persist_witness :
  let items : gmap string Json.value :=
    {[ "scale" := Json.VDict {[ "stability_readings" := Json.VInt 5 ]} ]} in
  let defaults1 :=
    snd (Configuration.load_config
           (Configuration.Holds (Json.VDict items))
           Configuration.DEFAULT_CONFIG) in
  let '(config2, defaults2) :=
    Configuration.load_config Configuration.Absent defaults1 in
  Configuration.item "scale" config2 defaults2
  = Some (Json.VDict
            ({[ "stability_readings" := Json.VInt 5 ]}
             ∪ {[ "stability_threshold" := Json.VFloat 0.01;
                  "stability_readings" := Json.VInt 3;
                  "duplicate_timeout" := Json.VFloat 2.0 ]})).
Proof.
  apply (load_config_overrides_persist
           {[ "scale" := Json.VDict {[ "stability_readings" := Json.VInt 5 ]} ]}
           Configuration.DEFAULT_CONFIG "scale");
    reflexivity.
Defined.

(** ** [handler] *)

Section Handler.
Import ScaleWebSocketServer Sessions.

Lemma discard_add c cs : discard c (add c cs) = discard c cs.
Proof.
  unfold add, discard. destruct (decide (c ∈ cs)); [reflexivity|].
  rewrite filter_app. cbn. rewrite decide_False by auto.
  apply app_nil_r.
Qed.

Lemma receive_harmless ms closing : forall replies,
  forallb harmless ms = true ->
  receive ms closing replies
  = (Raised <$> closing, replies ++ map (fun _ => Pong) (filter ping ms)).
Proof.
  induction ms as [|m ms IH]; intros replies Hall.
  - cbn. now rewrite app_nil_r.
  - cbn [forallb] in Hall. apply andb_prop in Hall as [Hm Hall].
    cbn [receive]. unfold harmless in Hm.
    destruct (ping m) eqn:Hping;
      [rewrite filter_cons_True by now rewrite Hping
      |rewrite filter_cons_False by now rewrite Hping];
      unfold ping in Hping;
      destruct (loads m) as [[| | | | | |data]| |];
      try discriminate Hm; try discriminate Hping.
    + rewrite Hping in Hm |- *. cbn [negb orb] in Hm.
      apply bool_decide_eq_true in Hm. rewrite Hm.
      rewrite IH by exact Hall. cbn [map]. now rewrite <- app_assoc.
    + rewrite Hping. now apply IH.
    + now apply IH.
Qed.

Lemma receive_app before ms closing : forall replies,
  forallb harmless before = true ->
  receive (before ++ ms) closing replies
  = receive ms closing
      (replies ++ map (fun _ => Pong) (filter ping before)).
Proof.
  induction before as [|m before IH]; intros replies Hall.
  - cbn. now rewrite app_nil_r.
  - cbn [forallb] in Hall. apply andb_prop in Hall as [Hm Hall].
    cbn [receive app]. unfold harmless in Hm.
    destruct (ping m) eqn:Hping;
      [rewrite filter_cons_True by now rewrite Hping
      |rewrite filter_cons_False by now rewrite Hping];
      unfold ping in Hping;
      destruct (loads m) as [[| | | | | |data]| |];
      try discriminate Hm; try discriminate Hping.
    + rewrite Hping in Hm |- *. cbn [negb orb] in Hm.
      apply bool_decide_eq_true in Hm. rewrite Hm.
      rewrite IH by exact Hall. cbn [map]. now rewrite <- app_assoc.
    + rewrite Hping. now apply IH.
    + now apply IH.
Qed.

End Handler.

(** A session of messages that are pings, other JSON objects or no JSON at
    all: when the welcome and the answers are delivered, and the
    connection then ends or is closed, [handler] returns quietly, has sent
    the welcome and one pong for each ping, and nothing else, and has taken
    the client out of [clients]. *)
Theorem handler_answers_pings (websocket : ScaleWebSocketServer.client)
    (conn : ScaleWebSocketServer.Connection) (self : ScaleWebSocketServer.t) :
  ScaleWebSocketServer.welcome_send conn = None ->
  forallb Sessions.harmless (ScaleWebSocketServer.messages conn) = true ->
  ScaleWebSocketServer.closing conn = None
  \/ ScaleWebSocketServer.closing conn = Some Py.ConnectionClosed ->
  ScaleWebSocketServer.handler websocket conn self
  = (None,
     ScaleWebSocketServer.Connected (ScaleWebSocketServer.welcome_now conn)
     :: map (fun _ => ScaleWebSocketServer.Pong)
          (filter Sessions.ping (ScaleWebSocketServer.messages conn)),
     ScaleWebSocketServer.mk
       (ScaleWebSocketServer.discard websocket
          (ScaleWebSocketServer.clients self))
       (ScaleWebSocketServer.sent self)).
Proof.
  intros Hw Hall Hclose. unfold ScaleWebSocketServer.handler.
  rewrite Hw, receive_harmless by exact Hall.
  cbn [ScaleWebSocketServer.clients ScaleWebSocketServer.sent app].
  rewrite discard_add. now destruct Hclose as [-> | ->].
Qed.

(** A ping, a text that is no JSON, another object and a ping, then the
    connection is closed. *)
Lemma handler_answers_pings_witness :
  let ping :=
    ScaleWebSocketServer.mkMessage
      (Json.Loaded
         (Json.VDict {[ "type" := Json.VStr "ping" ]})) None in
  let other :=
    ScaleWebSocketServer.mkMessage
      (Json.Loaded
         (Json.VDict {[ "type" := Json.VStr "hello" ]})) None in
  let noise :=
    ScaleWebSocketServer.mkMessage Json.JSONDecodeError None in
  ScaleWebSocketServer.handler 7%nat
    (ScaleWebSocketServer.mkConnection 0 None [ping; noise; other; ping]
       (Some Py.ConnectionClosed))
    (ScaleWebSocketServer.mk [3%nat] [])
  = (None,
     [ScaleWebSocketServer.Connected 0; ScaleWebSocketServer.Pong;
      ScaleWebSocketServer.Pong],
     ScaleWebSocketServer.mk [3%nat] []).
Proof.
  cbv zeta.
  refine (eq_trans (handler_answers_pings _ _ _ _ _ _) _);
    [reflexivity|reflexivity|now right|reflexivity].
Defined.

(** A message that is JSON but no object ends the session: after any
    harmless messages, [handler] is left by the [AttributeError] of
    [data.get], which nothing catches; the messages after it get no
    answer, and the client is out of [clients] all the same. *)
Theorem handler_non_object_raises (websocket : ScaleWebSocketServer.client)
    (conn : ScaleWebSocketServer.Connection) (self : ScaleWebSocketServer.t)
    (before after : list ScaleWebSocketServer.Message)
    (m : ScaleWebSocketServer.Message) (v : Json.value) :
  ScaleWebSocketServer.welcome_send conn = None ->
  ScaleWebSocketServer.messages conn = before ++ m :: after ->
  forallb Sessions.harmless before = true ->
  ScaleWebSocketServer.loads m = Json.Loaded v ->
  Sessions.no_dict v = true ->
  ScaleWebSocketServer.handler websocket conn self
  = (Some ScaleWebSocketServer.AttributeError,
     ScaleWebSocketServer.Connected (ScaleWebSocketServer.welcome_now conn)
     :: map (fun _ => ScaleWebSocketServer.Pong)
          (filter Sessions.ping before),
     ScaleWebSocketServer.mk
       (ScaleWebSocketServer.discard websocket
          (ScaleWebSocketServer.clients self))
       (ScaleWebSocketServer.sent self)).
Proof.
  intros Hw Hms Hall Hm Hv. unfold ScaleWebSocketServer.handler.
  rewrite Hw, Hms, receive_app by exact Hall.
  cbn [ScaleWebSocketServer.receive]. rewrite Hm.
  cbn [ScaleWebSocketServer.clients ScaleWebSocketServer.sent app].
  rewrite discard_add. now destruct v.
Qed.

(** A ping, then the number 1, then a ping that is never answered. *)
Lemma handler_non_object_raises_witness :
  let ping :=
    ScaleWebSocketServer.mkMessage
      (Json.Loaded
         (Json.VDict {[ "type" := Json.VStr "ping" ]})) None in
  let one :=
    ScaleWebSocketServer.mkMessage
      (Json.Loaded (Json.VInt 1)) None in
  ScaleWebSocketServer.handler 7%nat
    (ScaleWebSocketServer.mkConnection 0 None [ping; one; ping] None)
    (ScaleWebSocketServer.mk [3%nat; 7%nat] [])
  = (Some ScaleWebSocketServer.AttributeError,
     [ScaleWebSocketServer.Connected 0; ScaleWebSocketServer.Pong],
     ScaleWebSocketServer.mk [3%nat] []).
Proof.
  cbv zeta.
  refine (eq_trans
            (handler_non_object_raises _ _ _
               [ScaleWebSocketServer.mkMessage
                  (Json.Loaded
                     (Json.VDict {[ "type" := Json.VStr "ping" ]})) None]
               [ScaleWebSocketServer.mkMessage
                  (Json.Loaded
                     (Json.VDict {[ "type" := Json.VStr "ping" ]})) None]
               _ (Json.VInt 1) _ _ _ _ _) _);
    reflexivity.
Defined.

(** ** What the loop makes of a chunk *)

(** A turn on an open port whose chunk holds no frame (no weight token
    [W<number>] and no token [<number>kg] in its text, as for line noise,
    a blank line or the empty chunk of a timeout) sleeps a tenth of a
    second and changes nothing else: buffer, log, clients and delay are as
    they were. *)
Theorem noise_only_sleeps (tk : ScaleMiddleware.Tick)
    (l : ScaleMiddleware.Loop) (data : list Byte.byte) :
  ScaleMiddleware.port_open (ScaleMiddleware.self l) = true ->
  ScaleMiddleware.readline tk = ScaleMiddleware.Line data ->
  ~ Formats.holds_weight (Formats.text_of data) ->
  ~ Formats.holds_simple (Formats.text_of data) ->
  ScaleMiddleware.loop_body tk l
  = (Py.Ok tt,
     ScaleMiddleware.mkLoop (ScaleMiddleware.self l)
       (ScaleMiddleware.reconnect_delay l)
       (ScaleMiddleware.slept l ++ [0.1%float])).
Proof.
  intros Hopen Hline Hw Hs.
  assert (Hparse : AclasPS6XParser.parse
                     (ScaleMiddleware.plu_prices
                        (ScaleMiddleware.config (ScaleMiddleware.self l)))
                     data = None).
  { destruct (parse_cases
                (ScaleMiddleware.plu_prices
                   (ScaleMiddleware.config (ScaleMiddleware.self l))) data)
      as [(f & Hok & Hocc & _)|[(_ & p & Hok & Hocc & _)
         |[(_ & s & Hok & Hocc & _)|[(_ & m & Hok & Hocc & _)
         |(_ & _ & H)]]]]; [exfalso..|exact H].
    - apply Hw, plu_holds_weight, full_holds_plu. now exists f.
    - apply Hw, plu_holds_weight. now exists p.
    - apply Hw. now exists s.
    - apply Hs. now exists m. }
  unfold ScaleMiddleware.loop_body. rewrite bind_run.
  cbv [get]. rewrite Hopen. cbn [negb].
  unfold ScaleMiddleware.read_and_process. rewrite bind_run.
  unfold ScaleMiddleware.on_self, zoom, ScaleMiddleware.read_async.
  rewrite bind_run. cbv [get]. rewrite Hopen, Hline. cbn [negb].
  destruct data as [|b data]; [reflexivity|].
  rewrite Hparse. reflexivity.
Qed.

(** A line of noise on an open port. *)
Lemma noise_only_sleeps_witness :
  ScaleMiddleware.loop_body
    (ScaleMiddleware.mkTick ScaleMiddleware.Connected
       (ScaleMiddleware.Line (list_byte_of_string "ST,GS, ----"))
       (Readings.calm 0))
    (ScaleMiddleware.mkLoop
       (ScaleMiddleware.set_port_open true
          (Readings.fresh ScaleMiddleware.DEFAULT_CONFIG)) 1 [])
  = (Py.Ok tt,
     ScaleMiddleware.mkLoop
       (ScaleMiddleware.set_port_open true
          (Readings.fresh ScaleMiddleware.DEFAULT_CONFIG)) 1 [0.1%float]).
Proof.
  refine (eq_trans
            (noise_only_sleeps
               (ScaleMiddleware.mkTick ScaleMiddleware.Connected
                  (ScaleMiddleware.Line (list_byte_of_string "ST,GS, ----"))
                  (Readings.calm 0))
               (ScaleMiddleware.mkLoop
                  (ScaleMiddleware.set_port_open true
                     (Readings.fresh ScaleMiddleware.DEFAULT_CONFIG)) 1 [])
               (list_byte_of_string "ST,GS, ----") _ _ _ _) _);
    [reflexivity|reflexivity| | |reflexivity].
  - apply search_weight_none. vm_compute. reflexivity.
  - apply search_simple_none. vm_compute. reflexivity.
Defined.

(** The total that a frame carries is never used: two frames that agree on
    product, weight and unit price are processed alike, whatever their
    totals. The total of the event that [process_reading] hands to the
    sinks is computed anew: it is the settled weight, the mean that
    [get_stable_weight] takes of the buffer, times the unit price of the
    event, rounded to two decimals. *)
Theorem frame_total_ignored (env : ScaleMiddleware.Env)
    (data data' : AclasPS6XParser.Frame) (mw : ScaleMiddleware.t) :
  AclasPS6XParser.product_id data = AclasPS6XParser.product_id data' ->
  AclasPS6XParser.weight data = AclasPS6XParser.weight data' ->
  AclasPS6XParser.unit_price data = AclasPS6XParser.unit_price data' ->
  ScaleMiddleware.process_reading env data mw
  = ScaleMiddleware.process_reading env data' mw
  /\ forall (reading : ScaleReading) (mw' : ScaleMiddleware.t),
       ScaleMiddleware.process_reading env data mw
       = (Py.Ok (Some reading), mw') ->
       total_price reading
       = Py.round
           (StabilityBuffer.get_stable_weight (ScaleMiddleware.stability mw')
            * unit_price reading) 2.
Proof.
  intros Hp Hw Hu. split.
  { unfold ScaleMiddleware.process_reading,
      ScaleMiddleware.process_reading_emit, ScaleMiddleware.make_reading.
    now rewrite Hp, Hw, Hu. }
  intros reading mw'.
  destruct (AclasPS6XParser.weight data <=? 0)%float eqn:Hpos.
  { rewrite process_reading_nonpositive by exact Hpos. discriminate. }
  rewrite process_reading_run by exact Hpos. cbv zeta.
  destruct (StabilityBuffer.is_stable _ _ _) as [[]|e]; try discriminate.
  rewrite emit_run.
  destruct (StabilityBuffer.is_duplicate _ _ _ _); [discriminate|].
  unfold Readings.emitted.
  destruct (ScaleWebSocketServer.broadcast _ _ _) as [[[]|e] ws];
    [|discriminate].
  intros [= <- <-]. reflexivity.
Qed.

(** The frame [P0002W+002.000U1200.00T2400.00], which settles the scenario
    at 2.001, and the same frame with the total 1.00. *)
Lemma frame_total_ignored_witness :
  let data := AclasPS6XParser.mkFrame "0002" 2 1200 2400 in
  let data' := AclasPS6XParser.mkFrame "0002" 2 1200 1 in
  ScaleMiddleware.process_reading (Readings.calm 0) data Readings.after_two
  = ScaleMiddleware.process_reading (Readings.calm 0) data' Readings.after_two
  /\ forall (reading : ScaleReading) (mw' : ScaleMiddleware.t),
       ScaleMiddleware.process_reading (Readings.calm 0) data
         Readings.after_two
       = (Py.Ok (Some reading), mw') ->
       total_price reading
       = Py.round
           (StabilityBuffer.get_stable_weight (ScaleMiddleware.stability mw')
            * unit_price reading) 2.
Proof. cbv zeta. apply frame_total_ignored; reflexivity. Defined.

(** ** [get_recent] *)

Section GetRecent.
Import TransactionLogger Logs.

Lemma read_transactions_readable lines : forall transactions,
  forallb readable lines = true ->
  read_transactions lines transactions = Some (transactions ++ decoded lines).
Proof.
  induction lines as [|[|[v| |e]] lines IH]; intros transactions Hall;
    cbn [forallb readable andb] in Hall; try discriminate Hall.
  - cbn. now rewrite app_nil_r.
  - cbn [read_transactions]. now apply IH.
  - cbn [read_transactions]. rewrite IH by exact Hall.
    unfold decoded. cbn [omap list_omap]. now rewrite <- app_assoc.
Qed.

Lemma read_transactions_corrupt lines o : forall transactions,
  In (Text o) lines -> (forall v, o <> Json.Loaded v) ->
  read_transactions lines transactions = None.
Proof.
  induction lines as [|line lines IH]; intros transactions Hin Ho;
    [destruct Hin|].
  destruct Hin as [->|Hin].
  - cbn [read_transactions]. destruct o as [v| |e]; [now destruct (Ho v)|..];
      reflexivity.
  - cbn [read_transactions].
    destruct line as [|[v| |e]]; try reflexivity; now apply IH.
Qed.

End GetRecent.

(** On a log whose lines are blank or decode, [get_recent] skips the blank
    lines and returns the last [count] transactions, oldest first, all of
    them when there are fewer. With [count] zero it returns the whole log,
    not the empty list, and with a negative [count] everything after the
    first [-count] transactions. *)
Theorem get_recent_window (count : Z)
    (lines : list TransactionLogger.LogLine) :
  forallb Logs.readable lines = true ->
  TransactionLogger.get_recent count (TransactionLogger.Lines lines)
  = if 0 <? count then Readings.last_n (Z.to_nat count) (Logs.decoded lines)
    else drop (Z.to_nat (- count)) (Logs.decoded lines).
Proof.
  intros Hall. unfold TransactionLogger.get_recent.
  rewrite read_transactions_readable by exact Hall. cbn [app].
  destruct (Z.ltb_spec 0 count) as [Hpos|Hneg].
  - apply slice_from_last. lia.
  - unfold Py.slice_from. destruct (Z.ltb_spec (- count) 0); [lia|].
    destruct (Z.le_gt_cases (- count)
                (Z.of_nat (length (Logs.decoded lines)))) as [Hle|Hgt].
    + f_equal. lia.
    + rewrite !drop_ge by lia. reflexivity.
Qed.

(** Three transactions and a blank line, asked for none: all three come
    back. *)
Lemma get_recent_window_witness :
  TransactionLogger.get_recent 0
    (TransactionLogger.Lines
       [TransactionLogger.Text (Json.Loaded (Json.VInt 1));
        TransactionLogger.Blank;
        TransactionLogger.Text (Json.Loaded (Json.VInt 2));
        TransactionLogger.Text (Json.Loaded (Json.VInt 3))])
  = [Json.VInt 1; Json.VInt 2; Json.VInt 3].
Proof.
  refine (eq_trans (get_recent_window 0 _ _) _); reflexivity.
Defined.

(** One line that does not decode hides the whole log: wherever it stands
    and whatever the other lines hold, [get_recent] returns the empty
    list. *)
Theorem get_recent_corrupt_line (count : Z)
    (lines : list TransactionLogger.LogLine) (loads : Json.Loads) :
  In (TransactionLogger.Text loads) lines ->
  (forall v, loads <> Json.Loaded v) ->
  TransactionLogger.get_recent count (TransactionLogger.Lines lines) = [].
Proof.
  intros Hin Ho. unfold TransactionLogger.get_recent.
  now rewrite (read_transactions_corrupt lines loads).
Qed.

(** A line cut short between two transactions. *)
Lemma get_recent_corrupt_line_witness :
  TransactionLogger.get_recent 100
    (TransactionLogger.Lines
       [TransactionLogger.Text (Json.Loaded (Json.VInt 1));
        TransactionLogger.Text Json.JSONDecodeError;
        TransactionLogger.Text (Json.Loaded (Json.VInt 3))])
  = [].
Proof.
  apply (get_recent_corrupt_line 100 _ Json.JSONDecodeError);
    [right; left; reflexivity|discriminate].
Defined.

(** ** A window wider than the buffer *)

Section Starved.
Import ScaleMiddleware Readings.

(** The state after a method that emits nothing: configuration, log and
    server as they were, and at most ten readings. *)
Lemma process_reading_starved env data mw :
  10 < stability_readings (config mw) ->
  (length (StabilityBuffer.readings (stability mw)) <= 10)%nat ->
  exists mw',
    process_reading env data mw = (Py.Ok None, mw')
    /\ config mw' = config mw /\ logger mw' = logger mw
    /\ ws_server mw' = ws_server mw
    /\ (length (StabilityBuffer.readings (stability mw')) <= 10)%nat.
Proof.
  intros Hn Hlen.
  destruct (AclasPS6XParser.weight data <=? 0)%float eqn:Hw.
  - exists mw. rewrite process_reading_nonpositive by exact Hw. now repeat split.
  - unfold process_reading. rewrite bind_run, settle_run by exact Hw.
    cbv zeta.
    pose proof (add_reading_bound (AclasPS6XParser.weight data)
                  (stability mw) Hlen) as Hb.
    unfold StabilityBuffer.is_stable.
    destruct (Z.ltb_spec
                (Z.of_nat (length (StabilityBuffer.readings
                   (StabilityBuffer.add_reading (AclasPS6XParser.weight data)
                      (stability mw)))))
                (stability_readings (config mw))) as [_|Hge]; [|lia].
    eexists. split; [reflexivity|]. now repeat split.
Qed.

Lemma read_and_process_starved tk l :
  10 < stability_readings (config (self l)) ->
  (length (StabilityBuffer.readings (stability (self l))) <= 10)%nat ->
  exists l',
    read_and_process tk l = (Py.Ok tt, l')
    /\ config (self l') = config (self l)
    /\ logger (self l') = logger (self l)
    /\ ws_server (self l') = ws_server (self l)
    /\ (length (StabilityBuffer.readings (stability (self l'))) <= 10)%nat.
Proof.
  intros Hn Hlen. unfold read_and_process. rewrite bind_run.
  unfold on_self, zoom.
  pose proof (read_async_keeps (readline tk) (self l)) as [Hk Hb].
  cbv zeta in Hk, Hb. destruct Hk as (Hc & _).
  assert (Hrest : logger (snd (read_async (readline tk) (self l)))
                  = logger (self l)
                  /\ ws_server (snd (read_async (readline tk) (self l)))
                     = ws_server (self l)).
  { unfold read_async. rewrite bind_run. cbv [get].
    destruct (port_open (self l)); cbn [negb]; [|now split].
    destruct (readline tk) as [[|b data]|]; now split. }
  destruct Hrest as [Hlog Hws].
  destruct (read_async_returns (readline tk) (self l))
    as (data & mw1 & Hrun & _).
  rewrite Hrun in *. cbn [snd] in *.
  destruct data as [data|].
  - rewrite bind_run. cbn [self reconnect_delay slept].
    destruct (process_reading_starved (env tk) data mw1)
      as (mw2 & Hrun2 & Hc2 & Hlog2 & Hws2 & Hlen2);
      [now rewrite Hc|now rewrite Hb|].
    rewrite Hrun2. eexists. split; [reflexivity|].
    cbn [self]. repeat split; congruence.
  - eexists. split; [reflexivity|]. cbn [self].
    repeat split; congruence.
Qed.

Lemma loop_body_starved tk l :
  10 < stability_readings (config (self l)) ->
  (length (StabilityBuffer.readings (stability (self l))) <= 10)%nat ->
  exists r l',
    loop_body tk l = (r, l')
    /\ (r = Py.Ok tt \/ exists e, connect tk = ConnectRaises e
                                  /\ r = Py.Raise e)
    /\ config (self l') = config (self l)
    /\ logger (self l') = logger (self l)
    /\ ws_server (self l') = ws_server (self l)
    /\ (length (StabilityBuffer.readings (stability (self l'))) <= 10)%nat.
Proof.
  intros Hn Hlen. unfold loop_body. rewrite bind_run. cbv [get].
  destruct (port_open (self l)); cbn [negb].
  - destruct (read_and_process_starved tk l Hn Hlen)
      as (l' & -> & Hc & Hlog & Hws & Hlen').
    exists (Py.Ok tt), l'. split; [reflexivity|]. split; [now left|].
    now repeat split.
  - destruct (connect tk) as [| |e].
    + rewrite !bind_run. cbv [on_self zoom set_reconnect_delay modify].
      rewrite bind_run. cbn [self reconnect_delay slept].
      match goal with
      | |- context [read_and_process tk ?l0] =>
          destruct (read_and_process_starved tk l0)
            as (l' & Hrun & Hc & Hlog & Hws & Hlen');
            [exact Hn|exact Hlen|]
      end.
      rewrite Hrun. exists (Py.Ok tt), l'. split; [reflexivity|].
      split; [now left|].
      cbn [self set_port_open config logger ws_server stability] in *.
      now repeat split.
    + rewrite bind_run. cbv [sleep set_reconnect_delay modify].
      eexists _, _. split; [reflexivity|]. split; [now left|].
      now repeat split.
    + exists (Py.Raise e), l. split; [reflexivity|].
      split; [right; now exists e|]. now repeat split.
Qed.

End Starved.

(** A configuration that asks for more than ten stable readings silences
    the middleware: the buffer never holds more than ten, so no reading
    ever settles. From a buffer of at most ten readings, whatever the turns
    of the loop meet, nothing is written to the log or sent to a client,
    and nothing is raised on the way, unless [connect] itself raises. *)
Theorem wide_window_never_settles (ticks : list ScaleMiddleware.Tick)
    (l : ScaleMiddleware.Loop) :
  10 < ScaleMiddleware.stability_readings
         (ScaleMiddleware.config (ScaleMiddleware.self l)) ->
  (length (StabilityBuffer.readings
             (ScaleMiddleware.stability (ScaleMiddleware.self l))) <= 10)%nat ->
  let run := ScaleMiddleware.loop_turns ticks l in
  ScaleMiddleware.logger (ScaleMiddleware.self (snd run))
  = ScaleMiddleware.logger (ScaleMiddleware.self l)
  /\ ScaleMiddleware.ws_server (ScaleMiddleware.self (snd run))
     = ScaleMiddleware.ws_server (ScaleMiddleware.self l)
  /\ (fst run = Py.Ok tt
      \/ exists e,
           Exists (fun tk => ScaleMiddleware.connect tk
                             = ScaleMiddleware.ConnectRaises e) ticks
           /\ fst run = Py.Raise e).
Proof.
  cbv zeta. revert l. induction ticks as [|tk ticks IH]; intros l Hn Hlen.
  - repeat split. now left.
  - cbn [ScaleMiddleware.loop_turns]. rewrite bind_run.
    destruct (loop_body_starved tk l Hn Hlen)
      as (r & l1 & -> & [->|(e & He & ->)] & Hc & Hlog & Hws & Hlen1).
    + destruct (IH l1) as (Hlog2 & Hws2 & Hr);
        [now rewrite Hc|exact Hlen1|].
      split; [congruence|]. split; [congruence|].
      destruct Hr as [Hr|(e & He & Hr)]; [now left|].
      right. exists e. split; [now apply Exists_cons_tl|exact Hr].
    + cbn [fst snd]. split; [exact Hlog|]. split; [exact Hws|].
      right. exists e. split; [now apply Exists_cons_hd|reflexivity].
Qed.

(** Twelve turns that each read the line [W1.5], with eleven readings
    asked for. *)
Lemma wide_window_never_settles_witness :
  let ticks :=
    repeat
      (ScaleMiddleware.mkTick ScaleMiddleware.Connected
         (ScaleMiddleware.Line (list_byte_of_string "W1.5"))
         (Readings.calm 0)) 12 in
  let l :=
    ScaleMiddleware.mkLoop
      (ScaleMiddleware.set_port_open true
         (Readings.fresh (Readings.config_readings 11))) 1 [] in
  let run := ScaleMiddleware.loop_turns ticks l in
  ScaleMiddleware.logger (ScaleMiddleware.self (snd run))
  = ScaleMiddleware.logger (ScaleMiddleware.self l)
  /\ ScaleMiddleware.ws_server (ScaleMiddleware.self (snd run))
     = ScaleMiddleware.ws_server (ScaleMiddleware.self l)
  /\ (fst run = Py.Ok tt
      \/ exists e,
           Exists (fun tk => ScaleMiddleware.connect tk
                             = ScaleMiddleware.ConnectRaises e) ticks
           /\ fst run = Py.Raise e).
Proof.
  cbv zeta. apply wide_window_never_settles.
  - reflexivity.
  - simpl. lia.
Defined.

(** ** The sign of a weight *)

Section Signs.
Import Frames.

Lemma shr_1_nonneg mrs : 0 <= shr_m mrs -> 0 <= shr_m (shr_1 mrs).
Proof.
  destruct mrs as [[|[p|p|]|p] r s]; cbn; lia.
Qed.

Lemma iter_shr_1_nonneg p : forall mrs,
  0 <= shr_m mrs -> 0 <= shr_m (SpecFloat.iter_pos shr_1 p mrs).
Proof.
  induction p as [p IH|p IH|]; intros mrs H; cbn [SpecFloat.iter_pos].
  - apply IH, IH. now apply shr_1_nonneg.
  - now apply IH, IH.
  - now apply shr_1_nonneg.
Qed.

Lemma shr_fexp_nonneg m e l :
  0 <= m -> 0 <= shr_m (fst (shr_fexp prec emax m e l)).
Proof.
  intros Hm. unfold shr_fexp, shr.
  assert (H0 : 0 <= shr_m (shr_record_of_loc m l))
    by now destruct l as [|[]].
  destruct (fexp prec emax (Zdigits2 m + e) - e) as [|p|p]; cbn [fst];
    try exact H0.
  now apply iter_shr_1_nonneg.
Qed.

Lemma round_nearest_even_nonneg m l :
  0 <= m -> 0 <= round_nearest_even m l.
Proof.
  intros Hm. destruct l as [|[]]; cbn; try lia. destruct (Z.even m); lia.
Qed.

(** Rounding a mantissa that is not negative gives a number that is not
    below zero, and is a number. *)
Lemma binary_round_aux_nonneg mx ex lx :
  0 <= mx ->
  SFleb (S754_zero false) (binary_round_aux prec emax false mx ex lx) = true.
Proof.
  intros Hm. unfold binary_round_aux.
  pose proof (shr_fexp_nonneg mx ex lx Hm) as H1.
  destruct (shr_fexp prec emax mx ex lx) as [mrs' e']. cbn [fst] in H1.
  pose proof (shr_fexp_nonneg _ e' loc_Exact
                (round_nearest_even_nonneg _ (loc_of_shr_record mrs') H1))
    as H2.
  destruct (shr_fexp prec emax _ e' loc_Exact) as [mrs'' e''].
  cbn [fst] in H2.
  destruct (shr_m mrs'') as [|m|m]; [reflexivity| |lia].
  now destruct (e'' <=? emax - prec).
Qed.

Lemma binary_round_nonneg mx ex :
  SFleb (S754_zero false) (binary_round prec emax false mx ex) = true.
Proof.
  unfold binary_round. destruct (shl_align _ _ _) as [mz ez].
  now apply binary_round_aux_nonneg.
Qed.

Lemma float_of_pos_ratio_nonneg n d :
  SFleb (S754_zero false) (Prim2SF (Py.float_of_pos_ratio n d)) = true.
Proof.
  unfold Py.float_of_pos_ratio. destruct (n =? 0); [reflexivity|].
  cbv zeta. destruct (Py.scaled n d _) as [a0 b0].
  destruct (Py.scaled n d _) as [a b].
  rewrite Z_ldexp_spec, of_uint63_spec.
  pose proof (Uint63.to_Z_bounded
                (Uint63.of_Z (Py.round_half_even_div a b))) as [Hk _].
  destruct (Uint63Axioms.to_Z _) as [|k|k]; [reflexivity| |lia].
  cbn [binary_normalize].
  pose proof (binary_round_nonneg k 0) as Hr.
  destruct (binary_round prec emax false k 0) as [[]|[]| |[] m e];
    try discriminate Hr; try reflexivity.
  cbn [SFldexp]. apply binary_round_nonneg.
Qed.

Lemma opp_nonneg_leb x :
  SFleb (S754_zero false) (Prim2SF x) = true -> (- x <=? 0)%float = true.
Proof.
  intros H. rewrite leb_spec, opp_spec.
  change (Prim2SF 0) with (S754_zero false).
  now destruct (Prim2SF x) as [[]|[]| |[] m e].
Qed.

Lemma digits_value_zeros ds :
  forallb (Ascii.eqb "0") ds = true -> Py.digits_value ds = 0.
Proof.
  unfold Py.digits_value.
  assert (H : forall acc, forallb (Ascii.eqb "0") ds = true ->
                          fold_left (fun acc c => 10 * acc + Py.digit_value c)
                            ds acc
                          = acc * 10 ^ Z.of_nat (length ds)).
  { induction ds as [|c ds IH]; intros acc Hall.
    - cbn. lia.
    - cbn [forallb] in Hall. apply andb_prop in Hall as [Hc Hall].
      apply Ascii.eqb_eq in Hc. subst c. cbn [fold_left length].
      rewrite IH by exact Hall. change (Py.digit_value "0") with 0.
      rewrite Nat2Z.inj_succ, Z.pow_succ_r by lia. ring. }
  intros Hall. now rewrite H.
Qed.

Lemma signed_value_rejected s :
  sign s = Minus
  \/ forallb (Ascii.eqb "0")
       (int_digits (magnitude s) ++ frac_digits (magnitude s)) = true ->
  (signed_value s <=? 0)%float = true.
Proof.
  intros [Hs|Hz]; unfold signed_value.
  - rewrite Hs. apply opp_nonneg_leb, float_of_pos_ratio_nonneg.
  - unfold number_value. rewrite (digits_value_zeros _ Hz).
    now destruct (sign s).
Qed.

End Signs.

(** A frame whose weight token carries a minus sign, or has no digit but
    zeros, never reaches the buffer: [process_reading] returns at once and
    leaves buffer, log and clients as they were. *)
Theorem negative_or_zero_weight_dropped (env : ScaleMiddleware.Env)
    (data : AclasPS6XParser.Frame) (s : Frames.Signed)
    (mw : ScaleMiddleware.t) :
  AclasPS6XParser.weight data = Frames.signed_value s ->
  Frames.sign s = Frames.Minus
  \/ forallb (Ascii.eqb "0")
       (Frames.int_digits (Frames.magnitude s)
        ++ Frames.frac_digits (Frames.magnitude s)) = true ->
  ScaleMiddleware.process_reading env data mw = (Py.Ok None, mw).
Proof.
  intros Hw Hs. apply process_reading_nonpositive.
  rewrite Hw. now apply signed_value_rejected.
Qed.

(** The weight token [-001.234] of a PLU frame, after two settled
    samples. *)
Lemma negative_or_zero_weight_dropped_witness :
  ScaleMiddleware.process_reading (Readings.calm 0)
    (Formats.plu_frame ∅
       (Formats.mkPlu (list_ascii_of_string "0001")
          (Frames.mkSigned Frames.Minus
             (Frames.mkNumber (list_ascii_of_string "001") true
                (list_ascii_of_string "234")))))
    Readings.after_two
  = (Py.Ok None, Readings.after_two).
Proof.
  apply (negative_or_zero_weight_dropped _ _
           (Frames.mkSigned Frames.Minus
              (Frames.mkNumber (list_ascii_of_string "001") true
                 (list_ascii_of_string "234"))));
    [reflexivity|now left].
Defined.

(** * The text of a reading

    The JSON line of a reading and what reading it back gives. The proofs
    of this part compute with characters. *)

#[local] Arguments Ascii.eqb : clear simpl.
#[local] Arguments Py.isdigit : clear simpl.
#[local] Arguments Py.isspace : clear simpl.

(** ** Conversion of a fraction to binary64 *)

Section Conversion.
Import Decimals.

Lemma rhe_mid a b m :
  0 < b -> (2 * m - 1) * b < 2 * a -> 2 * a < (2 * m + 1) * b ->
  Py.round_half_even_div a b = m.
Proof.
  intros Hb Hlo Hhi. unfold Py.round_half_even_div.
  pose proof (Z.div_mod a b ltac:(lia)) as Hdm.
  pose proof (Z.mod_pos_bound a b Hb) as Hr.
  set (q := a / b) in *. set (r := a mod b) in *.
  assert (Hq : q = m \/ q = m - 1 \/ q < m - 1 \/ m < q) by lia.
  destruct (Z.compare_spec (2 * r) b) as [He|Hl|Hg].
  - exfalso. nia.
  - nia.
  - nia.
Qed.

Lemma rhe_up a b k :
  0 < b -> Z.even k = true -> a < k * b -> (2 * k - 1) * b <= 2 * a ->
  Py.round_half_even_div a b = k.
Proof.
  intros Hb Hk Hhi Hlo. unfold Py.round_half_even_div.
  pose proof (Z.div_mod a b ltac:(lia)) as Hdm.
  pose proof (Z.mod_pos_bound a b Hb) as Hr.
  set (q := a / b) in *. set (r := a mod b) in *.
  assert (Hq : q = k - 1) by nia.
  destruct (Z.compare_spec (2 * r) b) as [He|Hl|Hg].
  - replace (Z.even q) with false; [lia|].
    subst q. rewrite Hq. rewrite Z.even_sub, Hk. reflexivity.
  - exfalso. nia.
  - lia.
Qed.

(** The rounded quotient is within half a unit of the exact one. *)
Lemma rhe_error a b :
  0 < b ->
  let k := Py.round_half_even_div a b in
  (2 * k - 1) * b <= 2 * a /\ 2 * a <= (2 * k + 1) * b.
Proof.
  intros Hb. unfold Py.round_half_even_div.
  pose proof (Z.div_mod a b ltac:(lia)) as Hdm.
  pose proof (Z.mod_pos_bound a b Hb) as Hr.
  set (q := a / b) in *. set (r := a mod b) in *.
  destruct (Z.compare_spec (2 * r) b) as [He|Hl|Hg]; cbv zeta.
  - destruct (Z.even q); nia.
  - nia.
  - nia.
Qed.

Lemma pow_add b x y : 0 <= x -> 0 <= y -> b ^ (x + y) = b ^ x * b ^ y.
Proof. intros. now apply Z.pow_add_r. Qed.

Lemma pow_pos b x : 0 < b -> 0 <= x -> 0 < b ^ x.
Proof. intros. now apply Z.pow_pos_nonneg. Qed.

(** [times_pow] multiplies numerator and denominator of
    [n * b^(k + x) / (d * b^k)] by a common factor. *)
Lemma times_pow_uniform b x k n d :
  0 < b -> - k <= x -> 0 <= k ->
  exists c, 0 < c
    /\ n * b ^ (k + x) = fst (Py.times_pow b x (n, d)) * c
    /\ d * b ^ k = snd (Py.times_pow b x (n, d)) * c.
Proof.
  intros Hb Hx Hk. unfold Py.times_pow.
  destruct (Z.leb_spec 0 x) as [H0|H0]; cbn [fst snd].
  - exists (b ^ k). split; [now apply pow_pos|]. split; [|reflexivity].
    rewrite pow_add by lia. ring.
  - exists (b ^ (k + x)). split; [apply pow_pos; lia|]. split; [reflexivity|].
    replace k with (- x + (k + x)) at 1 by lia.
    rewrite pow_add by lia. ring.
Qed.

Lemma scaled_uniform n d e :
  -1074 <= e ->
  exists c, 0 < c
    /\ n * 2 ^ 1074 = fst (Py.scaled n d e) * c
    /\ d * 2 ^ (e + 1074) = snd (Py.scaled n d e) * c.
Proof.
  intros He. unfold Py.scaled.
  destruct (Z.leb_spec 0 e) as [H0|H0]; cbn [fst snd].
  - exists (2 ^ 1074). split; [now apply pow_pos|]. split; [reflexivity|].
    rewrite pow_add by lia. ring.
  - exists (2 ^ (e + 1074)). split; [apply pow_pos; lia|].
    split; [|reflexivity].
    replace 1074 with (- e + (e + 1074)) at 1 by lia.
    rewrite pow_add by lia. ring.
Qed.

Lemma scaled_pos n d e :
  0 < n -> 0 < d -> 0 < fst (Py.scaled n d e) /\ 0 < snd (Py.scaled n d e).
Proof.
  intros Hn Hd. unfold Py.scaled.
  destruct (Z.leb_spec 0 e); cbn [fst snd].
  - pose proof (pow_pos 2 e ltac:(lia) ltac:(lia)). split; nia.
  - pose proof (pow_pos 2 (- e) ltac:(lia) ltac:(lia)). split; nia.
Qed.

Lemma div_scaled n d e :
  0 < n -> 0 < d -> -1074 <= e ->
  fst (Py.scaled n d e) / snd (Py.scaled n d e)
  = (n * 2 ^ 1074) / (d * 2 ^ (e + 1074)).
Proof.
  intros Hn Hd He.
  destruct (scaled_uniform n d e He) as (c & Hc & -> & ->).
  pose proof (scaled_pos n d e Hn Hd) as [_ Hb].
  rewrite Z.div_mul_cancel_r; lia.
Qed.

(** The exponent chosen for [n / d] puts the quotient below [2^53], and at
    or above [2^52] unless the exponent is the least one. *)
Lemma exponent_of_ratio_spec n d :
  0 < n -> 0 < d ->
  let e := exponent_of_ratio n d in
  -1074 <= e
  /\ n * 2 ^ 1074 < 2 ^ 53 * (d * 2 ^ (e + 1074))
  /\ (-1074 < e -> 2 ^ 52 * (d * 2 ^ (e + 1074)) <= n * 2 ^ 1074).
Proof.
  intros Hn Hd. unfold exponent_of_ratio.
  pose proof (Z.log2_spec n Hn) as [Hn1 Hn2].
  pose proof (Z.log2_spec d Hd) as [Hd1 Hd2].
  pose proof (Z.log2_nonneg n) as Hln. pose proof (Z.log2_nonneg d) as Hld.
  set (ln := Z.log2 n) in *. set (ld := Z.log2 d) in *.
  set (e0 := Z.max (-1074) (ln - ld - 53)).
  assert (He0 : -1074 <= e0) by (subst e0; lia).
  pose proof (div_scaled n d e0 Hn Hd He0) as Hdiv.
  destruct (Py.scaled n d e0) as [a0 b0'] eqn:Hsc. cbn [fst snd] in Hdiv.
  rewrite Hdiv. clear Hdiv Hsc a0 b0'.
  set (a := n * 2 ^ 1074). set (b0 := d * 2 ^ (e0 + 1074)).
  pose proof (pow_pos 2 (e0 + 1074) ltac:(lia) ltac:(lia)) as Hp0.
  assert (Hb0 : 0 < b0) by (subst b0; nia).
  assert (Hup : a < 2 ^ 54 * b0).
  { subst a b0.
    assert (n * 2 ^ 1074 < 2 ^ (ln + 1075)).
    { replace (ln + 1075) with (Z.succ ln + 1074) by lia.
      rewrite pow_add by lia.
      pose proof (pow_pos 2 1074 ltac:(lia) ltac:(lia)). nia. }
    assert (2 ^ (ln + 1075) <= 2 ^ 54 * (2 ^ ld * 2 ^ (e0 + 1074))).
    { rewrite <- pow_add by lia. rewrite <- (pow_add 2 54) by lia.
      apply Z.pow_le_mono_r; subst e0; lia. }
    nia. }
  assert (Hlow : -1074 < e0 -> 2 ^ 52 * b0 <= a).
  { intros Hlt. assert (Heq : e0 = ln - ld - 53) by (subst e0; lia).
    subst a b0.
    assert (2 ^ 52 * (2 ^ Z.succ ld * 2 ^ (e0 + 1074)) = 2 ^ ln * 2 ^ 1074).
    { rewrite <- pow_add by lia. rewrite <- (pow_add 2 52) by lia.
      rewrite <- pow_add by lia. f_equal. lia. }
    pose proof (pow_pos 2 1074 ltac:(lia) ltac:(lia)).
    nia. }
  destruct (Z.leb_spec (2 ^ 53) (a / b0)) as [Hq|Hq].
  - assert (2 ^ 53 * b0 <= a).
    { pose proof (Z.mul_div_le a b0 Hb0). nia. }
    replace (e0 + 1 + 1074) with (1 + (e0 + 1074)) by lia.
    rewrite pow_add by lia. change (2 ^ 1) with 2.
    fold b0. repeat split; [lia | nia | intros _; nia].
  - assert (a < 2 ^ 53 * b0).
    { pose proof (Z.div_mod a b0 ltac:(lia)).
      pose proof (Z.mod_pos_bound a b0 Hb0). nia. }
    fold b0. repeat split; [lia | lia | exact Hlow].
Qed.


(** [float_of_pos_ratio] by the exponent it chooses. *)
Lemma float_of_pos_ratio_eq n d :
  Py.float_of_pos_ratio n d
  = if n =? 0 then 0%float else
    let e := exponent_of_ratio n d in
    let '(a, b) := Py.scaled n d e in
    Z.ldexp (of_uint63 (Uint63.of_Z (Py.round_half_even_div a b))) e.
Proof.
  unfold Py.float_of_pos_ratio, exponent_of_ratio.
  destruct (n =? 0); [reflexivity|]. cbv zeta.
  now destruct (Py.scaled n d (Z.max (-1074) (Z.log2 n - Z.log2 d - 53))).
Qed.

(** The significand [2^53] with an exponent is the significand [2^52] with
    the next one. *)
Lemma ldexp_renorm e :
  Z.ldexp (of_uint63 (Uint63.of_Z (2 ^ 53))) (e - 1)
  = Z.ldexp (of_uint63 (Uint63.of_Z (2 ^ 52))) e.
Proof.
  apply Prim2SF_inj. rewrite !Z_ldexp_spec.
  change (Prim2SF (of_uint63 (Uint63.of_Z (2 ^ 53))))
    with (S754_finite false 4503599627370496 1).
  change (Prim2SF (of_uint63 (Uint63.of_Z (2 ^ 52))))
    with (S754_finite false 4503599627370496 0).
  cbn [SFldexp]. f_equal. lia.
Qed.

(** A fraction [n / d] within half a unit in the last place of [m * 2^e]
    (a quarter of a unit from below at the start of a binade) converts to
    that number. *)
Lemma float_of_pos_ratio_near m e n d :
  canonical m e -> 0 < n -> 0 < d ->
  (2 * Z.pos m - 1) * (d * 2 ^ (e + 1074)) < 2 * (n * 2 ^ 1074) ->
  2 * (n * 2 ^ 1074) < (2 * Z.pos m + 1) * (d * 2 ^ (e + 1074)) ->
  (Z.pos m = 2 ^ 52 -> -1074 < e ->
   (4 * Z.pos m - 1) * (d * 2 ^ (e + 1074)) <= 4 * (n * 2 ^ 1074)) ->
  Py.float_of_pos_ratio n d = SF2Prim (S754_finite false m e).
Proof.
  intros (He & Hm & Hnorm) Hn Hd Hlo Hhi Hedge.
  rewrite float_of_pos_ratio_eq.
  destruct (Z.eqb_spec n 0) as [->|_]; [lia|]. cbv zeta.
  pose proof (exponent_of_ratio_spec n d Hn Hd) as (HE & Hup & Hdown).
  cbv zeta in HE, Hup, Hdown.
  set (E := exponent_of_ratio n d) in *.
  destruct (scaled_uniform n d E HE) as (c & Hc & Ha & Hb).
  pose proof (scaled_pos n d E Hn Hd) as [_ Hsb].
  destruct (Py.scaled n d E) as [sa sb]. cbn [fst snd] in Ha, Hb, Hsb.
  set (a := n * 2 ^ 1074) in *.
  pose proof (pow_pos 2 (e + 1074) ltac:(lia) ltac:(lia)) as Hpe.
  pose proof (pow_pos 2 (E + 1074) ltac:(lia) ltac:(lia)) as HpE.
  set (w := d * 2 ^ (e + 1074)) in *.
  assert (Hw : 0 < w) by (subst w; nia).
  (* the exponent is that of [m * 2^e], or one less at the start of a binade *)
  assert (HEle : E <= e).
  { destruct (Z.le_gt_cases E e) as [|Hgt]; [assumption|exfalso].
    assert (2 * w <= d * 2 ^ (E + 1074)).
    { replace (E + 1074) with ((E - e - 1) + (1 + (e + 1074))) by lia.
      rewrite (pow_add 2 (E - e - 1)), (pow_add 2 1) by lia.
      change (2 ^ 1) with 2.
      pose proof (pow_pos 2 (E - e - 1) ltac:(lia) ltac:(lia)). subst w. nia. }
    specialize (Hdown ltac:(lia)).
    assert (2 ^ 53 * w <= a) by lia.
    assert ((2 * Z.pos m + 1) * w <= (2 ^ 54 - 1) * w).
    { apply Z.mul_le_mono_nonneg_r; lia. }
    lia. }
  assert (HEge : e - 1 <= E).
  { destruct (Z.le_gt_cases (e - 1) E) as [|Hlt]; [assumption|exfalso].
    assert (4 * (d * 2 ^ (E + 1074)) <= w).
    { subst w. replace (e + 1074) with ((e - E - 2) + (2 + (E + 1074))) by lia.
      rewrite (pow_add 2 (e - E - 2)), (pow_add 2 2) by lia.
      change (2 ^ 2) with 4.
      pose proof (pow_pos 2 (e - E - 2) ltac:(lia) ltac:(lia)). nia. }
    specialize (Hnorm ltac:(lia)).
    assert (2 * a < 2 ^ 52 * w) by lia.
    assert ((2 ^ 53 - 1) * w <= (2 * Z.pos m - 1) * w).
    { apply Z.mul_le_mono_nonneg_r; lia. }
    lia. }
  destruct (Z.eq_dec E e) as [HEe|HEe].
  - rewrite HEe in *. fold w in Hb.
    rewrite (rhe_mid sa sb (Z.pos m)); [|assumption|nia|nia].
    reflexivity.
  - assert (HE1 : E = e - 1) by lia.
    assert (Hw2 : w = 2 * (d * 2 ^ (E + 1074))).
    { subst w. replace (e + 1074) with (1 + (E + 1074)) by lia.
      rewrite pow_add by lia. change (2 ^ 1) with 2. lia. }
    set (wE := d * 2 ^ (E + 1074)) in *.
    assert (Hm52 : Z.pos m = 2 ^ 52).
    { specialize (Hnorm ltac:(lia)).
      destruct (Z.eq_dec (Z.pos m) (2 ^ 52)) as [|Hne]; [assumption|exfalso].
      assert ((2 ^ 53 + 1) * w <= (2 * Z.pos m - 1) * w).
      { apply Z.mul_le_mono_nonneg_r; lia. }
      lia. }
    specialize (Hedge Hm52 ltac:(lia)).
    rewrite Hm52 in Hedge.
    rewrite (rhe_up sa sb (2 ^ 53)); [|assumption|reflexivity|nia|nia].
    rewrite HE1, ldexp_renorm, <- Hm52. reflexivity.
Qed.

End Conversion.

Section Decimal.
Import Decimals.

Lemma digits2_pos_bounds m :
  2 ^ (Z.pos (digits2_pos m) - 1) <= Z.pos m < 2 ^ Z.pos (digits2_pos m).
Proof.
  induction m as [m IH|m IH|]; cbn [digits2_pos].
  - rewrite Pos2Z.inj_succ. replace (Z.succ (Z.pos (digits2_pos m)) - 1)
      with (Z.succ (Z.pos (digits2_pos m) - 1)) by lia.
    rewrite !Z.pow_succ_r by lia. lia.
  - rewrite Pos2Z.inj_succ. replace (Z.succ (Z.pos (digits2_pos m)) - 1)
      with (Z.succ (Z.pos (digits2_pos m) - 1)) by lia.
    rewrite !Z.pow_succ_r by lia. lia.
  - cbn. lia.
Qed.

Lemma canonical_of_valid x s m e :
  Prim2SF x = S754_finite s m e -> canonical m e.
Proof.
  intros Hx. pose proof (Prim2SF_valid x) as Hv. rewrite Hx in Hv.
  unfold SpecFloat.valid_binary, bounded, canonical_mantissa, fexp in Hv.
  apply andb_prop in Hv as [Hc Hb].
  apply Z.eqb_eq in Hc. apply Z.leb_le in Hb.
  change (SpecFloat.emin prec emax) with (-1074) in Hc.
  change (emax - prec) with 971 in Hb. change prec with 53 in Hc.
  pose proof (digits2_pos_bounds m) as [Hlo Hhi].
  set (dg := Z.pos (digits2_pos m)) in *.
  assert (Hdg : 0 < dg) by (subst dg; lia).
  unfold canonical. split; [lia|]. split.
  - assert (dg <= 53) by lia.
    assert (2 ^ dg <= 2 ^ 53) by (apply Z.pow_le_mono_r; lia). lia.
  - intros He. assert (dg = 53) by lia.
    replace (dg - 1) with 52 in Hlo by lia. exact Hlo.
Qed.

Lemma times_pow_pos b x n d :
  0 < b -> 0 < n -> 0 < d ->
  0 < fst (Py.times_pow b x (n, d)) /\ 0 < snd (Py.times_pow b x (n, d)).
Proof.
  intros Hb Hn Hd. unfold Py.times_pow.
  destruct (Z.leb_spec 0 x); cbn [fst snd].
  - pose proof (pow_pos b x Hb ltac:(lia)). split; nia.
  - pose proof (pow_pos b (- x) Hb ltac:(lia)). split; nia.
Qed.

(** A decimal [K * 10^X] within half a unit in the last place of
    [m * 2^e] converts to that number. *)
Lemma float_of_decimal_near m e K X :
  canonical m e -> 0 < K -> -1000 <= X <= 1000 ->
  (2 * Z.pos m - 1) * (2 ^ (e + 1074) * 10 ^ 1000)
    < 2 * (K * 10 ^ (1000 + X) * 2 ^ 1074) ->
  2 * (K * 10 ^ (1000 + X) * 2 ^ 1074)
    < (2 * Z.pos m + 1) * (2 ^ (e + 1074) * 10 ^ 1000) ->
  (Z.pos m = 2 ^ 52 -> -1074 < e ->
   (4 * Z.pos m - 1) * (2 ^ (e + 1074) * 10 ^ 1000)
     <= 4 * (K * 10 ^ (1000 + X) * 2 ^ 1074)) ->
  Py.float_of_decimal K X = SF2Prim (S754_finite false m e).
Proof.
  intros Hc HK HX Hlo Hhi Hedge. unfold Py.float_of_decimal.
  destruct (times_pow_uniform 10 X 1000 K 1) as (c & Hcpos & Hn & Hd);
    [lia..|].
  pose proof (times_pow_pos 10 X K 1 ltac:(lia) HK ltac:(lia)) as [HN HD].
  destruct (Py.times_pow 10 X (K, 1)) as [N D]. cbn [fst snd] in *.
  rewrite Z.mul_1_l in Hd. rewrite Hn, Hd in *.
  set (G := 2 ^ (e + 1074)) in *. set (P := 2 ^ 1074) in *.
  apply float_of_pos_ratio_near; try assumption; fold G; fold P.
  - apply (Z.mul_lt_mono_pos_r c); [assumption|].
    replace ((2 * Z.pos m - 1) * (D * G) * c)
      with ((2 * Z.pos m - 1) * (G * (D * c))) by ring.
    replace (2 * (N * P) * c) with (2 * (N * c * P)) by ring. exact Hlo.
  - apply (Z.mul_lt_mono_pos_r c); [assumption|].
    replace ((2 * Z.pos m + 1) * (D * G) * c)
      with ((2 * Z.pos m + 1) * (G * (D * c))) by ring.
    replace (2 * (N * P) * c) with (2 * (N * c * P)) by ring. exact Hhi.
  - intros H52 He. specialize (Hedge H52 He).
    apply (Z.mul_le_mono_pos_r _ _ c); [assumption|].
    replace ((4 * Z.pos m - 1) * (D * G) * c)
      with ((4 * Z.pos m - 1) * (G * (D * c))) by ring.
    replace (4 * (N * P) * c) with (4 * (N * c * P)) by ring. exact Hedge.
Qed.

(** [decimal_scaled] is the fraction [m * 2^(e+1074) * 10^(1000-j)] over
    [2^1074 * 10^1000], up to a common factor. *)
Lemma decimal_scaled_uniform m e j :
  0 < m -> -1074 <= e -> -1000 <= j <= 1000 ->
  exists c, 0 < c
    /\ 0 < snd (Py.decimal_scaled m e j)
    /\ m * 2 ^ (e + 1074) * 10 ^ (1000 - j) = fst (Py.decimal_scaled m e j) * c
    /\ 2 ^ 1074 * 10 ^ 1000 = snd (Py.decimal_scaled m e j) * c.
Proof.
  intros Hm He Hj. unfold Py.decimal_scaled.
  destruct (times_pow_uniform 2 e 1074 m 1) as (c1 & Hc1 & Hn1 & Hd1);
    [lia..|].
  pose proof (times_pow_pos 2 e m 1 ltac:(lia) Hm ltac:(lia)) as [Hp1 Hq1].
  destruct (Py.times_pow 2 e (m, 1)) as [n1 d1]. cbn [fst snd] in *.
  destruct (times_pow_uniform 10 (- j) 1000 n1 d1) as (c2 & Hc2 & Hn2 & Hd2);
    [lia..|].
  pose proof (times_pow_pos 10 (- j) n1 d1 ltac:(lia) Hp1 Hq1) as [Hp2 Hq2].
  destruct (Py.times_pow 10 (- j) (n1, d1)) as [a b]. cbn [fst snd] in *.
  exists (c1 * c2). split; [nia|]. split; [assumption|].
  replace (1000 + - j) with (1000 - j) in Hn2 by lia.
  replace (1074 + e) with (e + 1074) in Hn1 by lia.
  rewrite Z.mul_1_l in Hd1. split.
  - rewrite Hn1. transitivity (c1 * (n1 * 10 ^ (1000 - j))); [ring|].
    rewrite Hn2. ring.
  - rewrite Hd1. transitivity (c1 * (d1 * 10 ^ 1000)); [ring|].
    rewrite Hd2. ring.
Qed.

Lemma below_spec m e p :
  0 < m -> -1074 <= e -> -1000 <= p <= 1000 ->
  Py.below m e p = true
  <-> m * 2 ^ (e + 1074) * 10 ^ (1000 - p) < 2 ^ 1074 * 10 ^ 1000.
Proof.
  intros Hm He Hp. unfold Py.below.
  destruct (decimal_scaled_uniform m e p Hm He Hp) as (c & Hc & Hb & -> & ->).
  destruct (Py.decimal_scaled m e p) as [a b]. cbn [fst snd] in *.
  rewrite Z.ltb_lt. split; intros H; nia.
Qed.

End Decimal.

Section Seventeen.
Import Decimals.

Lemma find_point_spec fuel m e p0 :
  Py.below m e (p0 - 1) = false ->
  Py.below m e (p0 + Z.of_nat fuel) = true ->
  let p := Py.find_point fuel m e p0 in
  p0 <= p <= p0 + Z.of_nat fuel
  /\ Py.below m e p = true /\ Py.below m e (p - 1) = false.
Proof.
  revert p0. induction fuel as [|fuel IH]; intros p0 Hlo Hhi; cbn [Py.find_point].
  - rewrite Z.add_0_r in Hhi. cbv zeta. repeat split; [lia|lia|assumption..].
  - destruct (Py.below m e p0) eqn:Hb.
    + cbv zeta. repeat split; [lia|lia|assumption..].
    + destruct (IH (p0 + 1)) as (Hr & Ht & Hf).
      * now replace (p0 + 1 - 1) with p0 by lia.
      * now replace (p0 + 1 + Z.of_nat fuel) with (p0 + Z.of_nat (S fuel)) by lia.
      * cbv zeta. repeat split; [lia|lia|assumption..].
Qed.

Lemma below_high m e p :
  canonical m e -> 316 <= p <= 1000 -> Py.below (Z.pos m) e p = true.
Proof.
  intros (He & Hm & _) Hp. apply below_spec; [lia..|].
  assert (H1 : 2 ^ (e + 1074) <= 2 ^ 2045) by (apply Z.pow_le_mono_r; lia).
  assert (H2 : 10 ^ (1000 - p) <= 10 ^ 684) by (apply Z.pow_le_mono_r; lia).
  pose proof (pow_pos 2 (e + 1074) ltac:(lia) ltac:(lia)) as H3.
  pose proof (pow_pos 10 (1000 - p) ltac:(lia) ltac:(lia)) as H4.
  assert (H5 : 2 ^ 53 * 2 ^ 2045 * 10 ^ 684 <= 2 ^ 1074 * 10 ^ 1000)
    by (apply Z.leb_le; vm_compute; reflexivity).
  set (G := 2 ^ (e + 1074)) in *. set (T := 10 ^ (1000 - p)) in *.
  set (A := 2 ^ 2045) in *. set (B := 10 ^ 684) in *.
  set (C := 2 ^ 1074 * 10 ^ 1000) in *. set (F := 2 ^ 53) in *.
  assert (Z.pos m * G * T < F * A * B); [|lia].
  assert (Z.pos m * G < F * A) by nia.
  assert (0 < F * A) by nia.
  nia.
Qed.

Lemma below_low m e :
  canonical m e -> Py.below (Z.pos m) e (-324) = false.
Proof.
  intros (He & Hm & _).
  destruct (Py.below (Z.pos m) e (-324)) eqn:Hb; [exfalso|reflexivity].
  apply below_spec in Hb; [|lia..].
  pose proof (pow_pos 2 (e + 1074) ltac:(lia) ltac:(lia)) as H3.
  assert (H5 : 2 ^ 1074 * 10 ^ 1000 <= 10 ^ (1000 - -324))
    by (apply Z.leb_le; vm_compute; reflexivity).
  set (G := 2 ^ (e + 1074)) in *. set (T := 10 ^ (1000 - -324)) in *.
  set (C := 2 ^ 1074 * 10 ^ 1000) in *.
  assert (0 < C) by (subst C; apply Z.ltb_lt; vm_compute; reflexivity).
  nia.
Qed.

(** [decimal_point] finds the position of the decimal point. *)
Lemma decimal_point_spec m e :
  canonical m e ->
  let p := Py.decimal_point (Z.pos m) e in
  -324 <= p <= 316
  /\ Py.below (Z.pos m) e p = true /\ Py.below (Z.pos m) e (p - 1) = false.
Proof.
  intros Hc. pose proof Hc as (He & Hm & _). unfold Py.decimal_point.
  set (p0 := (Z.log2 (Z.pos m) + e) * 30103 / 100000).
  assert (Hp0 : -324 <= p0 <= 308).
  { pose proof (Z.log2_nonneg (Z.pos m)).
    assert (Z.log2 (Z.pos m) < 53) by (apply Z.log2_lt_pow2; lia).
    subst p0. split.
    - apply Z.div_le_lower_bound; lia.
    - apply Z.lt_succ_r. apply Z.div_lt_upper_bound; lia. }
  set (start := if Py.below (Z.pos m) e (p0 - 1) then -323 else p0).
  assert (Hs : -324 <= start <= 308 /\ Py.below (Z.pos m) e (start - 1) = false).
  { subst start. destruct (Py.below (Z.pos m) e (p0 - 1)) eqn:Hb.
    - split; [lia|]. now apply below_low.
    - split; [lia|exact Hb]. }
  destruct Hs as [Hs1 Hs2].
  destruct (find_point_spec 640 (Z.pos m) e start Hs2) as (Hr & Ht & Hf).
  { apply below_high; [assumption|lia]. }
  cbv zeta. split; [|split; assumption].
  split; [lia|].
  destruct (Z.le_gt_cases (Py.find_point 640 (Z.pos m) e start) 316)
    as [|Hgt]; [assumption|exfalso].
  rewrite below_high in Hf; [discriminate|assumption|lia].
Qed.


(** Seventeen significant digits identify a binary64 number: the nearest
    decimal of seventeen digits is near enough. *)
Lemma seventeen_digits_near m e :
  canonical m e ->
  let j := Py.decimal_point (Z.pos m) e - 17 in
  let k := Py.round_half_even_div (fst (Py.decimal_scaled (Z.pos m) e j))
             (snd (Py.decimal_scaled (Z.pos m) e j)) in
  k <= 10 ^ 17 /\ -341 <= j <= 299 /\ near m e k j.
Proof.
  intros Hc. pose proof Hc as (He & Hm & _).
  destruct (decimal_point_spec m e Hc) as (Hp & Ht & Hf). cbv zeta in *.
  set (p := Py.decimal_point (Z.pos m) e) in *.
  apply below_spec in Ht; [|lia..].
  assert (Hf' : 2 ^ 1074 * 10 ^ 1000
                <= Z.pos m * 2 ^ (e + 1074) * 10 ^ (1000 - (p - 1))).
  { destruct (Z.le_gt_cases (2 ^ 1074 * 10 ^ 1000)
                (Z.pos m * 2 ^ (e + 1074) * 10 ^ (1000 - (p - 1))))
      as [|Hlt]; [assumption|exfalso].
    apply below_spec in Hlt; [|lia..]. congruence. }
  clear Hf.
  destruct (decimal_scaled_uniform (Z.pos m) e (p - 17))
    as (c & Hcp & Hb & Ha & Hw); [lia..|].
  pose proof (rhe_error (fst (Py.decimal_scaled (Z.pos m) e (p - 17)))
                (snd (Py.decimal_scaled (Z.pos m) e (p - 17))) Hb) as Hr.
  cbv zeta in Hr.
  set (k := Py.round_half_even_div _ _) in *.
  destruct (Py.decimal_scaled (Z.pos m) e (p - 17)) as [a b].
  cbn [fst snd] in *. destruct Hr as [Hr1 Hr2].
  assert (Hj : -341 <= p - 17 <= 299) by lia.
  unfold near.
  (* the powers, as unknowns *)
  replace (1000 - (p - 17)) with ((1000 - p) + 17) in Ha by lia.
  replace (1000 - (p - 1)) with ((1000 - p) + 1) in Hf' by lia.
  rewrite (pow_add 10 (1000 - p)) in Ha, Hf' by lia.
  assert (HY : 10 ^ (1000 + (p - 17)) * (10 ^ (1000 - p) * 10 ^ 17)
               = 10 ^ 1000 * 10 ^ 1000).
  { rewrite <- !pow_add by lia. f_equal. lia. }
  pose proof (pow_pos 2 (e + 1074) ltac:(lia) ltac:(lia)) as HG.
  pose proof (pow_pos 10 (1000 - p) ltac:(lia) ltac:(lia)) as HTp.
  pose proof (pow_pos 10 (1000 + (p - 17)) ltac:(lia) ltac:(lia)) as HYp.
  pose proof (pow_pos 10 1000 ltac:(lia) ltac:(lia)) as HD.
  pose proof (pow_pos 2 1074 ltac:(lia) ltac:(lia)) as HP.
  assert (HS17 : 10 ^ 17 = 10 * 10 ^ 16) by reflexivity.
  assert (HS16 : 2 ^ 53 <= 10 ^ 16) by (apply Z.leb_le; reflexivity).
  change (10 ^ 1) with 10 in Hf'.
  set (G := 2 ^ (e + 1074)) in *. set (Tp := 10 ^ (1000 - p)) in *.
  set (Yp := 10 ^ (1000 + (p - 17))) in *. set (D := 10 ^ 1000) in *.
  set (P := 2 ^ 1074) in *. set (M := Z.pos m) in *.
  set (S17 := 10 ^ 17) in *. set (S16 := 10 ^ 16) in *.
  set (B53 := 2 ^ 53) in *. 
  assert (HM0 : 0 < M) by (subst M; lia).
  assert (H52' : M = 2 ^ 52 -> 2 * M = B53) by (subst B53; lia).
  clearbody G Tp Yp D P M S17 S16 B53.
  assert (HMb : M < S16) by lia.
  assert (HS16p : 0 < S16) by lia.
  set (U := M * G * (Tp * S17)).
  set (W := P * D) in *.
  assert (HW : 0 < W) by (subst W; nia).
  assert (HU1 : W * S16 <= U).
  { subst U. rewrite HS17.
    replace (M * G * (Tp * (10 * S16))) with (M * G * (Tp * 10) * S16) by ring.
    apply Z.mul_le_mono_nonneg_r; lia. }
  assert (HU2 : U < W * S17).
  { subst U. replace (M * G * (Tp * S17)) with (M * G * Tp * S17) by ring.
    apply Z.mul_lt_mono_pos_r; [lia|assumption]. }
  assert (Hac : a * c = U) by (subst U; lia).
  assert (Hbc : b * c = W) by lia.
  assert (Hk1 : (2 * k - 1) * W <= 2 * U).
  { rewrite <- Hac, <- Hbc.
    replace ((2 * k - 1) * (b * c)) with ((2 * k - 1) * b * c) by ring.
    replace (2 * (a * c)) with (2 * a * c) by ring.
    apply Z.mul_le_mono_nonneg_r; lia. }
  assert (Hk2 : 2 * U <= (2 * k + 1) * W).
  { rewrite <- Hac, <- Hbc.
    replace ((2 * k + 1) * (b * c)) with ((2 * k + 1) * b * c) by ring.
    replace (2 * (a * c)) with (2 * a * c) by ring.
    apply Z.mul_le_mono_nonneg_r; lia. }
  set (GT := G * (Tp * S17)).
  assert (HGT : 0 < GT) by (subst GT; nia).
  assert (HUM : U = M * GT) by (subst U GT; ring).
  assert (HWG : W < GT).
  { assert (W * S16 < S16 * GT); [|nia].
    rewrite HUM in HU1. nia. }
  assert (Hkpos : 0 < k).
  { assert (W < 2 * U) by nia. nia. }
  assert (Hk17 : k <= S17).
  { assert ((2 * k - 1) * W < 2 * S17 * W) by nia. nia. }
  split; [exact Hk17|]. split; [assumption|].
  (* the three inequalities, multiplied by [Tp * S17] *)
  assert (HT : 0 < Tp * S17) by nia.
  assert (HYT : k * Yp * P * (Tp * S17) = k * W * D).
  { transitivity (k * P * (Yp * (Tp * S17))); [ring|]. rewrite HY.
    subst W. ring. }
  split; [exact Hkpos|]. split; [|split].
  - apply (Z.mul_lt_mono_pos_r (Tp * S17)); [assumption|].
    replace (2 * (k * Yp * P) * (Tp * S17))
      with (2 * (k * Yp * P * (Tp * S17))) by ring. rewrite HYT.
    replace ((2 * M - 1) * (G * D) * (Tp * S17))
      with ((2 * (M * GT) - GT) * D) by (subst GT; ring).
    rewrite <- HUM.
    replace (2 * (k * W * D)) with (2 * k * W * D) by ring.
    apply Z.mul_lt_mono_pos_r; [assumption|]. lia.
  - apply (Z.mul_lt_mono_pos_r (Tp * S17)); [assumption|].
    replace (2 * (k * Yp * P) * (Tp * S17))
      with (2 * (k * Yp * P * (Tp * S17))) by ring. rewrite HYT.
    replace ((2 * M + 1) * (G * D) * (Tp * S17))
      with ((2 * (M * GT) + GT) * D) by (subst GT; ring).
    rewrite <- HUM.
    replace (2 * (k * W * D)) with (2 * k * W * D) by ring.
    apply Z.mul_lt_mono_pos_r; [assumption|]. lia.
  - intros H52 _. specialize (H52' H52).
    assert (H2W : 2 * W <= GT).
    { assert (2 * (W * S16) <= S16 * GT); [|nia].
      rewrite HUM in HU1.
      assert (2 * (W * S16) <= B53 * GT) by nia.
      assert (B53 * GT <= S16 * GT) by (apply Z.mul_le_mono_nonneg_r; lia).
      lia. }
    apply (Z.mul_le_mono_pos_r _ _ (Tp * S17)); [assumption|].
    replace (4 * (k * Yp * P) * (Tp * S17))
      with (4 * (k * Yp * P * (Tp * S17))) by ring. rewrite HYT.
    replace ((4 * M - 1) * (G * D) * (Tp * S17))
      with ((4 * (M * GT) - GT) * D) by (subst GT; ring).
    rewrite <- HUM.
    replace (4 * (k * W * D)) with (4 * k * W * D) by ring.
    apply Z.mul_le_mono_nonneg_r; lia.
Qed.

End Seventeen.

(** ** Digits *)

Section Digits.
Import Decimals.

Lemma digits_value_acc ds : forall acc,
  fold_left (fun acc c => 10 * acc + Py.digit_value c) ds acc
  = acc * 10 ^ Z.of_nat (length ds) + Py.digits_value ds.
Proof.
  unfold Py.digits_value.
  induction ds as [|c ds IH]; intros acc; cbn [fold_left length].
  - cbn. lia.
  - rewrite IH, (IH (10 * 0 + Py.digit_value c)).
    rewrite Nat2Z.inj_succ, Z.pow_succ_r by lia. ring.
Qed.

Lemma digits_value_app a b :
  Py.digits_value (a ++ b)
  = Py.digits_value a * 10 ^ Z.of_nat (length b) + Py.digits_value b.
Proof.
  unfold Py.digits_value at 1. rewrite fold_left_app.
  fold (Py.digits_value a). apply digits_value_acc.
Qed.

Lemma digits_value_cons c ds :
  Py.digits_value (c :: ds)
  = Py.digit_value c * 10 ^ Z.of_nat (length ds) + Py.digits_value ds.
Proof. exact (digits_value_app [c] ds). Qed.

Lemma digits_value_of_zeros n : Py.digits_value (Py.zeros n) = 0.
Proof.
  induction n as [|n IH]; [reflexivity|].
  change (Py.zeros (S n)) with ("0"%char :: Py.zeros n).
  rewrite digits_value_cons, IH. reflexivity.
Qed.

Lemma digits_value_nonneg ds :
  forallb Py.isdigit ds = true -> 0 <= Py.digits_value ds.
Proof.
  induction ds as [|c ds IH] using rev_ind; intros H; [reflexivity|].
  rewrite forallb_app in H. apply andb_prop in H as [H1 H2].
  rewrite digits_value_app. cbn [length Z.of_nat Pos.of_succ_nat].
  cbn [forallb] in H2. rewrite andb_true_r in H2.
  assert (0 <= Py.digit_value c).
  { unfold Py.isdigit in H2. unfold Py.digit_value.
    apply andb_prop in H2 as [H2 _]. apply N.leb_le in H2. lia. }
  specialize (IH H1). change (Py.digits_value [c]) with (10 * 0 + Py.digit_value c).
  lia.
Qed.

Lemma forallb_zeros n : forallb Py.isdigit (Py.zeros n) = true.
Proof. induction n as [|n IH]; [reflexivity|exact IH]. Qed.

Lemma length_zeros n : length (Py.zeros n) = n.
Proof. apply length_replicate. Qed.

Lemma digit_char_spec d :
  0 <= d < 10 ->
  Py.isdigit (Py.digit_char d) = true
  /\ Py.digit_value (Py.digit_char d) = d
  /\ (0 < d -> Ascii.eqb (Py.digit_char d) "0" = false).
Proof.
  intros Hd.
  assert (H : d = 0 \/ d = 1 \/ d = 2 \/ d = 3 \/ d = 4 \/ d = 5 \/ d = 6
              \/ d = 7 \/ d = 8 \/ d = 9) by lia.
  repeat (destruct H as [->|H]); try subst d;
    (split; [reflexivity|split; [reflexivity|intros H0; try lia; reflexivity]]).
Qed.

(** [digits_of_fuel] puts the decimal digits of [k] in front of [acc]. *)
Lemma digits_of_fuel_spec fuel : forall k acc,
  0 <= k < 2 ^ Z.of_nat (S fuel) ->
  exists ds,
    Py.digits_of_fuel (S fuel) k acc = ds ++ acc
    /\ digits_ok ds = true
    /\ Py.digits_value ds = k
    /\ (0 < k -> exists c ds', ds = c :: ds' /\ Ascii.eqb c "0" = false).
Proof.
  induction fuel as [|fuel IH]; intros k acc Hk.
  - change (2 ^ Z.of_nat 1) with 2 in Hk.
    cbn [Py.digits_of_fuel].
    destruct (Z.ltb_spec k 10) as [_|]; [|lia].
    rewrite Z.mod_small by lia.
    destruct (digit_char_spec k ltac:(lia)) as (H1 & H2 & H3).
    exists [Py.digit_char k]. repeat split.
    + unfold digits_ok. cbn. now rewrite H1.
    + unfold Py.digits_value. cbn. lia.
    + intros H0. exists (Py.digit_char k), []. split; [reflexivity|auto].
  - remember (S fuel) as f eqn:Hf.
    cbn [Py.digits_of_fuel].
    pose proof (Z.mod_pos_bound k 10 ltac:(lia)) as Hmod.
    destruct (digit_char_spec (k mod 10) Hmod) as (H1 & H2 & H3).
    destruct (Z.ltb_spec k 10) as [Hlt|Hge].
    + rewrite Z.mod_small in * by lia.
      exists [Py.digit_char k]. repeat split.
      * unfold digits_ok. cbn. now rewrite H1.
      * unfold Py.digits_value. cbn. lia.
      * intros H0. exists (Py.digit_char k), []. split; [reflexivity|auto].
    + destruct (IH (k / 10) (Py.digit_char (k mod 10) :: acc))
        as (ds & Hds & Hok & Hv & Hhd).
      { split; [apply Z.div_pos; lia|].
        apply Z.div_lt_upper_bound; [lia|].
        rewrite Nat2Z.inj_succ, Z.pow_succ_r in Hk by lia. subst f. lia. }
      subst f. rewrite Hds.
      exists (ds ++ [Py.digit_char (k mod 10)]).
      split; [now rewrite <- app_assoc|].
      unfold digits_ok in *. apply andb_prop in Hok as [Hall Hlen].
      split; [|split].
      * rewrite forallb_app, Hall. cbn. rewrite H1.
        rewrite length_app. cbn. now rewrite Nat.add_1_r.
      * rewrite digits_value_app, Hv. unfold Py.digits_value at 1. cbn.
        rewrite H2. pose proof (Z.div_mod k 10 ltac:(lia)). lia.
      * intros _. destruct Hhd as (c & ds' & -> & Hc).
        { apply Z.div_str_pos. lia. }
        exists c, (ds' ++ [Py.digit_char (k mod 10)]). now split.
Qed.

Lemma digits_of_spec k :
  0 <= k ->
  digits_ok (Py.digits_of k) = true
  /\ Py.digits_value (Py.digits_of k) = k
  /\ (0 < k -> exists c ds, Py.digits_of k = c :: ds
                             /\ Ascii.eqb c "0" = false).
Proof.
  intros Hk. unfold Py.digits_of.
  destruct (digits_of_fuel_spec (Z.to_nat (Z.log2 k)) k []) as (ds & -> & H).
  { split; [assumption|].
    rewrite Nat2Z.inj_succ, Z2Nat.id by apply Z.log2_nonneg.
    destruct (Z.eq_dec k 0) as [->|]; [reflexivity|].
    apply Z.log2_spec. lia. }
  now rewrite app_nil_r.
Qed.

Lemma digits_ok_inv ds :
  digits_ok ds = true ->
  forallb Py.isdigit ds = true /\ (0 < length ds)%nat.
Proof.
  unfold digits_ok. intros H. apply andb_prop in H as [H1 H2].
  split; [assumption|]. destruct ds; [discriminate|cbn; lia].
Qed.

Lemma digits_ok_intro ds :
  forallb Py.isdigit ds = true -> (0 < length ds)%nat -> digits_ok ds = true.
Proof.
  intros H1 H2. unfold digits_ok. rewrite H1.
  destruct ds; [cbn in H2; lia|reflexivity].
Qed.

(** [strip10] keeps the value of [k * 10^z]. *)
Lemma strip10_spec fuel : forall k z,
  0 < k ->
  let r := Py.strip10 fuel k z in
  0 < fst r /\ z <= snd r <= z + Z.of_nat fuel
  /\ k = fst r * 10 ^ (snd r - z).
Proof.
  induction fuel as [|fuel IH]; intros k z Hk; cbn [Py.strip10].
  - cbn [fst snd]. rewrite Z.sub_diag. cbn. lia.
  - destruct (Z.eqb_spec (k mod 10) 0) as [H0|H0].
    + pose proof (Z.div_mod k 10 ltac:(lia)) as Hdm.
      destruct (IH (k / 10) (z + 1)) as (H1 & H2 & H3); [lia|].
      cbv zeta. split; [assumption|]. split; [lia|].
      set (r := Py.strip10 fuel (k / 10) (z + 1)) in *.
      replace (snd r - z) with (Z.succ (snd r - (z + 1))) by lia.
      rewrite Z.pow_succ_r by lia. lia.
    + cbn [fst snd]. rewrite Z.sub_diag. cbn. lia.
Qed.

End Digits.

(** ** Literals *)

Section Literals.
Import Decimals.

Lemma isdigit_not_sign c :
  Py.isdigit c = true ->
  Ascii.eqb c "." = false /\ Ascii.eqb c "e" = false /\ Ascii.eqb c "E" = false
  /\ Ascii.eqb c "-" = false /\ Ascii.eqb c "+" = false.
Proof.
  intros Hc. destruct c as [[] [] [] [] [] [] [] []];
    try discriminate Hc; repeat split; reflexivity.
Qed.

Lemma span_digits_all ds :
  forallb Py.isdigit ds = true -> Py.span_digits ds = (ds, []).
Proof.
  intros Hds. rewrite <- (app_nil_r ds) at 1.
  apply span_digits_app; [assumption|exact I].
Qed.

(** [float] reads a literal as the value it denotes. *)
Lemma float_of_str_render l :
  literal_ok l = true ->
  Py.float_of_literal (Py.render l) = Py.Ok (literal_value l).
Proof.
  unfold literal_ok. intros H.
  apply andb_prop in H as [H Hex]. apply andb_prop in H as [Hip Hfp].
  apply digits_ok_inv in Hip as [Hip Hipn].
  unfold Py.render, literal_value, literal_digits, literal_scale.
  destruct l as [neg ip fp ex]. cbn [Py.minus Py.int_part Py.frac_part Py.exponent] in *.
  destruct ip as [|c ip]; [cbn in Hipn; lia|].
  pose proof Hip as Hip'. cbn [forallb] in Hip'.
  apply andb_prop in Hip' as [Hc _].
  unfold Py.float_of_literal.
  set (tail_ex := match ex with
                  | Some (neg0, ds) =>
                      "e"%char :: (if neg0 then "-"%char else "+"%char) :: ds
                  | None => []
                  end).
  (* the exponent part *)
  assert (Hexp : Py.split_exponent tail_ex
                 = (match ex with
                    | Some (neg0, ds) =>
                        if neg0 then - Py.digits_value ds
                        else Py.digits_value ds
                    | None => 0
                    end, [])).
  { subst tail_ex. destruct ex as [[neg0 ds]|]; [|reflexivity].
    apply digits_ok_inv in Hex as [Hds Hdn].
    destruct ds as [|d ds]; [cbn in Hdn; lia|].
    cbn [Py.split_exponent]. change (Ascii.eqb "e" "e") with true.
    cbn [orb].
    replace (Py.split_sign ((if neg0 then "-"%char else "+"%char) :: d :: ds))
      with (neg0, d :: ds) by (destruct neg0; reflexivity).
    rewrite span_digits_all by assumption. reflexivity. }
  assert (Hstop_ex : Re.stops Py.isdigit tail_ex).
  { subst tail_ex. destruct ex as [[neg0 ds]|]; [reflexivity|exact I]. }
  (* the fraction *)
  set (tail_fp := match fp with
                  | Some fp0 => "."%char :: fp0
                  | None => []
                  end ++ tail_ex).
  assert (Hfrac : Py.split_fraction tail_fp = (default [] fp, tail_ex)).
  { subst tail_fp. destruct fp as [fp0|]; cbn [default app].
    - apply digits_ok_inv in Hfp as [Hfp _].
      cbn [Py.split_fraction]. now apply span_digits_app.
    - subst tail_ex. destruct ex as [[neg0 ds]|]; reflexivity. }
  assert (Hstop_fp : Re.stops Py.isdigit tail_fp).
  { subst tail_fp. destruct fp as [fp0|]; [reflexivity|exact Hstop_ex]. }
  assert (Hsign : Py.split_sign
                    ((if neg then ["-"%char] else []) ++ (c :: ip) ++ tail_fp)
                  = (neg, (c :: ip) ++ tail_fp)).
  { destruct neg; [reflexivity|]. cbn [app]. now apply split_sign_digit. }
  rewrite Hsign, span_digits_app, Hfrac, Hexp by assumption.
  cbn [app]. reflexivity.
Qed.

Lemma literal_value_negate l :
  Py.minus l = false ->
  literal_value (Py.negate l) = (- literal_value l)%float.
Proof.
  intros Hm. unfold literal_value, literal_digits, literal_scale, Py.negate.
  cbn [Py.minus Py.int_part Py.frac_part Py.exponent]. now rewrite Hm.
Qed.

(** On the literals that [float_of_str] reads, those without exponent,
    [float_of_literal] gives the same number. *)
Lemma float_of_literal_plain s x :
  Py.float_of_str s = Py.Ok x -> Py.float_of_literal s = Py.Ok x.
Proof.
  unfold Py.float_of_str, Py.float_of_literal.
  destruct (Py.split_sign s) as [neg s1].
  destruct (Py.span_digits s1) as [ip s2].
  destruct (Py.split_fraction s2) as [fp s3].
  destruct s3 as [|c s3]; [|discriminate].
  cbn [Py.split_exponent].
  destruct (ip ++ fp) as [|d ds] eqn:Hds; [discriminate|].
  intros H. rewrite <- H. do 2 f_equal.
  assert (Hv : Py.float_of_decimal (Py.digits_value (d :: ds))
                 (0 - Z.of_nat (length fp))
               = Py.float_of_pos_ratio (Py.digits_value (d :: ds))
                   (10 ^ Z.of_nat (length fp))).
  { unfold Py.float_of_decimal, Py.times_pow.
    destruct (Z.leb_spec 0 (0 - Z.of_nat (length fp))) as [Hle|Hlt].
    - replace (0 - Z.of_nat (length fp)) with 0 by lia.
      replace (Z.of_nat (length fp)) with 0 by lia.
      now rewrite Z.pow_0_r, Z.mul_1_r.
    - replace (- (0 - Z.of_nat (length fp))) with (Z.of_nat (length fp))
        by lia.
      now rewrite Z.mul_1_l. }
  now rewrite Hv.
Qed.

End Literals.

(** ** The literal that [repr] prints *)

Section Repr.
Import Decimals.

Lemma forallb_take {A} (f : A -> bool) n l :
  forallb f l = true -> forallb f (take n l) = true.
Proof.
  intros H. rewrite <- (take_drop n l), forallb_app in H.
  now apply andb_prop in H as [H _].
Qed.

Lemma forallb_drop {A} (f : A -> bool) n l :
  forallb f l = true -> forallb f (drop n l) = true.
Proof.
  intros H. rewrite <- (take_drop n l), forallb_app in H.
  now apply andb_prop in H as [_ H].
Qed.

(** The exponent of a literal: two digits at least. *)
Lemma exponent_digits e :
  0 <= e ->
  let ex := Py.digits_of e in
  let ds := if (length ex <? 2)%nat then "0"%char :: ex else ex in
  digits_ok ds = true /\ Py.digits_value ds = e.
Proof.
  intros He. destruct (digits_of_spec e He) as (Hok & Hv & _). cbv zeta.
  destruct (length (Py.digits_of e) <? 2)%nat; [|now split].
  apply digits_ok_inv in Hok as [Hall Hlen]. split.
  - apply digits_ok_intro; [exact Hall|cbn; lia].
  - rewrite digits_value_cons, Hv. reflexivity.
Qed.

Lemma format_short_spec ds decpt :
  digits_ok ds = true ->
  -1000 <= decpt - Z.of_nat (length ds) <= 1000 ->
  let l := Py.format_short ds decpt in
  literal_ok l = true
  /\ Py.minus l = false
  /\ ((exists c ds', ds = c :: ds' /\ Ascii.eqb c "0" = false) ->
      json_float l = true)
  /\ -1000 <= literal_scale l <= 1000
  /\ literal_digits l * 10 ^ (1000 + literal_scale l)
     = Py.digits_value ds * 10 ^ (1000 + (decpt - Z.of_nat (length ds))).
Proof.
  intros Hok Hrange. pose proof Hok as Hok'.
  apply digits_ok_inv in Hok' as [Hall Hlen].
  unfold Py.format_short.
  destruct ((decpt <=? -4) || (16 <? decpt)) eqn:Hexp.
  - (* with an exponent *)
    destruct ds as [|d0 rest]; [cbn in Hlen; lia|].
    destruct (exponent_digits (Z.abs (decpt - 1)) ltac:(lia)) as [Hex Hev].
    cbv zeta in Hex, Hev. cbv zeta.
    set (ex := if (length (Py.digits_of (Z.abs (decpt - 1))) <? 2)%nat
               then "0"%char :: Py.digits_of (Z.abs (decpt - 1))
               else Py.digits_of (Z.abs (decpt - 1))) in *.
    cbn [take drop]. rewrite drop_0. change (take 0 rest) with (@nil ascii).
    cbn [forallb] in Hall. apply andb_prop in Hall as [Hd0 Hrest].
    assert (Hscale :
      (if decpt - 1 <? 0 then - Py.digits_value ex else Py.digits_value ex)
      = decpt - 1).
    { rewrite Hev. destruct (Z.ltb_spec (decpt - 1) 0); lia. }
    unfold literal_ok, json_float, literal_scale, literal_digits.
    cbn [Py.minus Py.int_part Py.frac_part Py.exponent].
    rewrite Hex, Hscale.
    destruct rest as [|d1 rest]; cbn [from_option id Py.int_part Py.frac_part].
    + repeat split; try reflexivity.
      * unfold digits_ok. cbn. now rewrite Hd0.
      * cbn [length] in *. lia.
      * cbn [length] in *. lia.
      * cbn [length app] in *. f_equal. f_equal. lia.
    + repeat split; try reflexivity.
      * unfold digits_ok at 1. cbn [forallb length Nat.eqb negb].
        rewrite Hd0. cbn [andb]. rewrite andb_true_r.
        now apply digits_ok_intro; [|cbn; lia].
      * cbn [length] in *. lia.
      * cbn [length] in *. lia.
      * cbn [length app] in *. f_equal. f_equal. lia.
  - apply orb_false_elim in Hexp as [H1 H2].
    apply Z.leb_gt in H1. apply Z.ltb_ge in H2.
    destruct (Z.leb_spec decpt 0) as [Hle|Hgt].
    + (* zeros after the point *)
      cbv zeta.
      unfold literal_ok, json_float, literal_scale, literal_digits.
      cbn [Py.minus Py.int_part Py.frac_part Py.exponent from_option id].
      repeat split; try reflexivity.
      * cbn [digits_ok forallb length Nat.eqb negb andb].
        change (digits_ok ["0"%char]) with true. cbn [andb].
        rewrite andb_true_r.
        apply digits_ok_intro.
        -- now rewrite forallb_app, forallb_zeros, Hall.
        -- rewrite length_app. lia.
      * rewrite length_app, length_zeros. lia.
      * rewrite length_app, length_zeros. lia.
      * change (["0"%char] ++ Py.zeros (Z.to_nat (- decpt)) ++ ds)
          with ("0"%char :: Py.zeros (Z.to_nat (- decpt)) ++ ds).
        rewrite digits_value_cons, digits_value_app, digits_value_of_zeros.
        rewrite length_app, length_zeros.
        change (Py.digit_value "0") with 0. rewrite !Z.mul_0_l, !Z.add_0_l.
        f_equal. f_equal. lia.
    + destruct (Z.leb_spec (Z.of_nat (length ds)) decpt) as [Hge|Hlt].
      * (* zeros before the point *)
        cbv zeta.
        unfold literal_ok, json_float, literal_scale, literal_digits.
        cbn [Py.minus Py.int_part Py.frac_part Py.exponent from_option id].
        set (g := (Z.to_nat decpt - length ds)%nat).
        assert (Hg : Z.of_nat g = decpt - Z.of_nat (length ds)) by (subst g; lia).
        repeat split; try reflexivity.
        -- change (digits_ok ["0"%char]) with true. rewrite !andb_true_r.
           apply digits_ok_intro.
           ++ now rewrite forallb_app, forallb_zeros, Hall.
           ++ rewrite length_app. lia.
        -- intros (c & ds' & -> & Hc). cbn [app].
           destruct (ds' ++ Py.zeros g); [reflexivity|].
           now rewrite Hc.
        -- cbn [length]. lia.
        -- cbn [length]. lia.
        -- rewrite digits_value_app, digits_value_app, digits_value_of_zeros.
           rewrite length_zeros. cbn [length].
           change (Py.digits_value ["0"%char]) with 0.
           change (Z.of_nat 1) with 1. rewrite Hg.
           replace (1000 + (0 - 1)) with 999 by lia.
           replace (1000 + (decpt - Z.of_nat (length ds)))
             with ((decpt - Z.of_nat (length ds)) + 1 + 999) by lia.
           rewrite (pow_add 10 (decpt - Z.of_nat (length ds) + 1)) by lia.
           rewrite (pow_add 10 (decpt - Z.of_nat (length ds))) by lia.
           change (10 ^ 1) with 10. ring.
      * (* the point inside the digits *)
        cbv zeta.
        unfold literal_ok, json_float, literal_scale, literal_digits.
        cbn [Py.minus Py.int_part Py.frac_part Py.exponent from_option id].
        assert (Hn : (0 < Z.to_nat decpt < length ds)%nat) by lia.
        repeat split; try reflexivity.
        -- rewrite andb_true_r. apply andb_true_intro. split.
           ++ apply digits_ok_intro; [now apply forallb_take|].
              rewrite length_take. lia.
           ++ apply digits_ok_intro; [now apply forallb_drop|].
              rewrite length_drop. lia.
        -- intros (c & ds' & -> & Hc).
           destruct (Z.to_nat decpt) as [|n]; [lia|]. cbn [take].
           destruct (take n ds'); [reflexivity|]. now rewrite Hc.
        -- rewrite length_drop. lia.
        -- rewrite length_drop. lia.
        -- rewrite take_drop. f_equal. f_equal. rewrite length_drop. lia.
Qed.

End Repr.

Section Shortest.
Import Decimals.

(** The literal of [k * 10^j] denotes that decimal. *)
Lemma literal_of_spec k j :
  0 < k -> -900 <= j <= 900 ->
  let l := Py.literal_of k j in
  literal_ok l = true /\ Py.minus l = false /\ json_float l = true
  /\ -1000 <= literal_scale l <= 1000
  /\ literal_digits l * 10 ^ (1000 + literal_scale l) = k * 10 ^ (1000 + j).
Proof.
  intros Hk Hj. unfold Py.literal_of.
  pose proof (strip10_spec 18 k j Hk) as (Hk' & Hj' & Hkk). cbv zeta in *.
  destruct (Py.strip10 18 k j) as [k' j']. cbn [fst snd] in *.
  destruct (digits_of_spec k' ltac:(lia)) as (Hok & Hv & Hhd).
  specialize (Hhd Hk').
  set (ds := Py.digits_of k') in *.
  destruct (format_short_spec ds (j' + Z.of_nat (length ds)) Hok)
    as (H1 & H2 & H3 & H4 & H5); [lia|].
  cbv zeta in *. repeat split; try assumption; try lia.
  - now apply H3.
  - rewrite H5, Hv, Hkk.
    replace (j' + Z.of_nat (length ds) - Z.of_nat (length ds)) with j' by lia.
    replace (1000 + j') with ((j' - j) + (1000 + j)) by lia.
    rewrite pow_add by lia. ring.
Qed.

(** A literal near enough to [m * 2^e] is read back as that number. *)
Lemma literal_of_near m e k j :
  canonical m e -> near m e k j -> -900 <= j <= 900 ->
  literal_value (Py.literal_of k j) = SF2Prim (S754_finite false m e).
Proof.
  intros Hc (Hk & Hlo & Hhi & Hedge) Hj.
  destruct (literal_of_spec k j Hk Hj) as (_ & Hm & _ & Hs & Heq).
  cbv zeta in *. unfold literal_value. rewrite Hm.
  pose proof (pow_pos 10 (1000 + j) ltac:(lia) ltac:(lia)).
  pose proof (pow_pos 10 (1000 + literal_scale (Py.literal_of k j))
                ltac:(lia) ltac:(lia)).
  apply float_of_decimal_near; try assumption.
  - apply (Z.mul_pos_cancel_r _ (10 ^ (1000 + literal_scale (Py.literal_of k j))));
      [assumption|].
    rewrite Heq. now apply Z.mul_pos_pos.
  - now rewrite Heq.
  - now rewrite Heq.
  - now rewrite Heq.
Qed.

(** The decimals next to [m * 2^e] are positive. *)
Lemma neighbours_spec m e n k j :
  canonical m e -> (1 <= n <= 17)%nat ->
  In (k, j) (Py.neighbours (Z.pos m) e (Py.decimal_point (Z.pos m) e) n) ->
  0 < k /\ -900 <= j <= 900.
Proof.
  intros Hc Hn Hin. pose proof Hc as (He & Hm & _).
  destruct (decimal_point_spec m e Hc) as (Hp & _ & Hf). cbv zeta in *.
  set (p := Py.decimal_point (Z.pos m) e) in *.
  unfold Py.neighbours in Hin.
  set (j0 := p - Z.of_nat n) in *.
  destruct (decimal_scaled_uniform (Z.pos m) e j0) as (c & Hcp & Hb & Ha & Hw);
    [lia..|].
  assert (Hf' : 2 ^ 1074 * 10 ^ 1000
                <= Z.pos m * 2 ^ (e + 1074) * 10 ^ (1000 - (p - 1))).
  { destruct (Z.le_gt_cases (2 ^ 1074 * 10 ^ 1000)
                (Z.pos m * 2 ^ (e + 1074) * 10 ^ (1000 - (p - 1))))
      as [|Hlt]; [assumption|exfalso].
    apply below_spec in Hlt; [|lia..]. congruence. }
  clear Hf.
  pose proof (rhe_error (fst (Py.decimal_scaled (Z.pos m) e j0))
                (snd (Py.decimal_scaled (Z.pos m) e j0)) Hb) as Hr.
  cbv zeta in Hr.
  destruct (Py.decimal_scaled (Z.pos m) e j0) as [a b]. cbn [fst snd] in *.
  assert (Hab : b <= a).
  { assert (b * c <= a * c); [|nia].
    rewrite <- Ha, <- Hw. etransitivity; [exact Hf'|].
    apply Z.mul_le_mono_nonneg_l.
    - pose proof (pow_pos 2 (e + 1074) ltac:(lia) ltac:(lia)). nia.
    - apply Z.pow_le_mono_r; lia. }
  assert (Hq : 1 <= a / b) by (apply Z.div_le_lower_bound; lia).
  assert (Hj0 : -900 <= j0 <= 900) by lia.
  cbn [In] in Hin.
  destruct Hin as [Heq|[Heq|[Heq|[]]]]; injection Heq as <- <-;
    (split; [|exact Hj0]); lia.
Qed.

(** [repr] prints a literal that is read back as the number. *)
Lemma shortest_spec m e :
  canonical m e ->
  let l := Py.shortest m e in
  literal_ok l = true /\ Py.minus l = false /\ json_float l = true
  /\ literal_value l = SF2Prim (S754_finite false m e).
Proof.
  intros Hc. unfold Py.shortest.
  set (x := SF2Prim (S754_finite false m e)).
  set (p := Py.decimal_point (Z.pos m) e).
  set (literals := fun n : nat =>
         map (fun '(k, j) => Py.literal_of k j)
           (Py.neighbours (Z.pos m) e p n)).
  assert (Hall : forall l, In l (flat_map literals (seq 1 17)) ->
                 literal_ok l = true /\ Py.minus l = false
                 /\ json_float l = true).
  { intros l Hl. apply in_flat_map in Hl as (n & Hn & Hl).
    apply in_seq in Hn. subst literals. cbv beta in Hl.
    apply in_map_iff in Hl as ([k j] & <- & Hkj).
    destruct (neighbours_spec m e n k j Hc ltac:(lia) Hkj) as [Hk Hj].
    destruct (literal_of_spec k j Hk Hj) as (H1 & H2 & H3 & _).
    now repeat split. }
  (* the nearest decimal of seventeen digits is among them, and is read back *)
  pose proof (seventeen_digits_near m e Hc) as (_ & Hj17 & Hnear).
  cbv zeta in Hj17, Hnear. fold p in Hj17, Hnear.
  set (k17 := Py.round_half_even_div (fst (Py.decimal_scaled (Z.pos m) e (p - 17)))
                (snd (Py.decimal_scaled (Z.pos m) e (p - 17)))) in *.
  assert (Hin17 : In (Py.literal_of k17 (p - 17))
                    (flat_map literals (seq 1 17))).
  { apply in_flat_map. exists 17%nat. split; [apply in_seq; lia|].
    subst literals. cbv beta. apply in_map_iff. exists (k17, p - 17).
    split; [reflexivity|]. unfold Py.neighbours.
    change (Z.of_nat 17) with 17. subst k17.
    destruct (Py.decimal_scaled (Z.pos m) e (p - 17)) as [a b]. now left. }
  assert (Hp17 : Py.parses_to x (Py.literal_of k17 (p - 17)) = true).
  { unfold Py.parses_to.
    destruct (Hall _ Hin17) as (Hok & _).
    rewrite (float_of_str_render _ Hok).
    rewrite (literal_of_near m e k17 (p - 17) Hc Hnear ltac:(lia)).
    now apply FloatAxioms.Leibniz.eqb_spec. }
  destruct (find (Py.parses_to x) (flat_map literals (seq 1 17)))
    as [l|] eqn:Hfind.
  - apply find_some in Hfind as [Hl Hpl].
    destruct (Hall l Hl) as (Hok & Hmin & Hjs).
    cbv zeta. repeat split; try assumption.
    unfold Py.parses_to in Hpl. rewrite (float_of_str_render l Hok) in Hpl.
    now apply FloatAxioms.Leibniz.eqb_spec in Hpl.
  - exfalso. pose proof (find_none _ _ Hfind _ Hin17) as Hn.
    congruence.
Qed.

End Shortest.

Section FloatRepr.
Import Decimals.

Lemma literal_ok_negate l : literal_ok (Py.negate l) = literal_ok l.
Proof. reflexivity. Qed.

Lemma json_float_negate l : json_float (Py.negate l) = json_float l.
Proof. reflexivity. Qed.

(** [repr] of a finite float is a literal of JSON whose value is the
    float. *)
Lemma float_repr_literal x :
  finite x = true ->
  exists l, Py.float_repr x = Py.render l
    /\ literal_ok l = true /\ json_float l = true /\ literal_value l = x.
Proof.
  unfold finite, Py.float_repr. intros Hfin.
  pose proof (SF2Prim_Prim2SF x) as Hx.
  destruct (Prim2SF x) as [s|s| |s m e] eqn:Hsf; try discriminate Hfin.
  - exists (Py.mkLiteral s ["0"%char] (Some ["0"%char]) None).
    rewrite <- Hx. destruct s; repeat split; reflexivity.
  - pose proof (canonical_of_valid x s m e Hsf) as Hc.
    destruct (shortest_spec m e Hc) as (Hok & Hmin & Hjs & Hv).
    cbv zeta in *.
    exists (if s then Py.negate (Py.shortest m e) else Py.shortest m e).
    split; [reflexivity|]. rewrite <- Hx. destruct s.
    + rewrite literal_ok_negate, json_float_negate, literal_value_negate
        by assumption.
      rewrite Hv. repeat split; assumption.
    + repeat split; assumption.
Qed.

(** [float(repr(x))] is [x]. *)
Lemma float_of_str_repr x :
  finite x = true -> Py.float_of_literal (Py.float_repr x) = Py.Ok x.
Proof.
  intros Hfin. destruct (float_repr_literal x Hfin) as (l & -> & Hok & _ & <-).
  now apply float_of_str_render.
Qed.

Lemma stops_number_end rest :
  number_end rest = true -> Re.stops Py.isdigit rest.
Proof.
  destruct rest as [|c rest]; [intros; exact I|]. cbn.
  intros H. repeat (apply andb_prop in H as [H ?]).
  now apply negb_true_iff in H.
Qed.

(** The scanner of JSON numbers reads a literal up to its end. *)
Lemma scan_number_render l rest :
  literal_ok l = true -> json_float l = true -> number_end rest = true ->
  Json.scan_number (Py.render l ++ rest)
  = Some (Json.VFloat (literal_value l), rest).
Proof.
  intros Hok Hjs Hend.
  pose proof (float_of_str_render l Hok) as Hfloat.
  unfold literal_ok in Hok.
  apply andb_prop in Hok as [Hok Hex]. apply andb_prop in Hok as [Hip Hfp].
  apply digits_ok_inv in Hip as [Hip Hipn].
  unfold json_float in Hjs. apply andb_prop in Hjs as [Hzero Hfe].
  unfold Json.scan_number.
  assert (Hlen : take (length (Py.render l ++ rest) - length rest)
                   (Py.render l ++ rest) = Py.render l).
  { rewrite length_app, Nat.add_sub. apply take_app_length. }
  revert Hlen Hfloat. unfold Py.render.
  destruct l as [neg ip fp ex].
  cbn [Py.minus Py.int_part Py.frac_part Py.exponent] in *.
  destruct ip as [|c ip]; [cbn in Hipn; lia|].
  pose proof Hip as Hip'. cbn [forallb] in Hip'.
  apply andb_prop in Hip' as [Hc Hips].
  destruct (isdigit_not_sign c Hc) as (Hc1 & Hc2 & Hc3 & Hc4 & Hc5).
  set (text_ex := match ex with
                  | Some (neg0, ds) =>
                      "e"%char :: (if neg0 then "-"%char else "+"%char) :: ds
                  | None => []
                  end).
  set (text_fp := match fp with
                  | Some fp0 => "."%char :: fp0
                  | None => []
                  end).
  intros Hlen Hfloat.
  rewrite <- !app_assoc.
  rewrite <- !app_assoc in Hlen.
  set (s := (if neg then ["-"%char] else [])
            ++ (c :: ip) ++ text_fp ++ text_ex ++ rest) in *.
  (* the exponent *)
  assert (Hexp : Json.skip_exponent (text_ex ++ rest)
                 = (match ex with Some _ => true | None => false end, rest)).
  { subst text_ex. destruct ex as [[neg0 ds]|].
    - apply digits_ok_inv in Hex as [Hds Hdn].
      destruct ds as [|d ds]; [cbn in Hdn; lia|].
      change (("e"%char :: (if neg0 then "-"%char else "+"%char) :: d :: ds)
              ++ rest)
        with ("e"%char :: (if neg0 then "-"%char else "+"%char)
              :: (d :: ds) ++ rest).
      cbn [Json.skip_exponent]. change (Ascii.eqb "e" "e") with true.
      cbn [orb].
      replace (Py.split_sign
                 ((if neg0 then "-"%char else "+"%char) :: (d :: ds) ++ rest))
        with (neg0, (d :: ds) ++ rest) by (destruct neg0; reflexivity).
      cbn [snd]. rewrite span_digits_app;
        [reflexivity|assumption|now apply stops_number_end].
    - cbn [app]. destruct rest as [|r rest']; [reflexivity|].
      cbn [number_end] in Hend. cbn [Json.skip_exponent].
      repeat (apply andb_prop in Hend as [Hend ?]).
      repeat match goal with
             | H : negb _ = true |- _ => apply negb_true_iff in H; rewrite ?H
             end.
      reflexivity. }
  assert (Hstop_ex : Re.stops Py.isdigit (text_ex ++ rest)).
  { subst text_ex. destruct ex as [[neg0 ds]|]; [reflexivity|].
    now apply stops_number_end. }
  assert (Hnodot : match text_ex ++ rest with
                   | [] => True
                   | c0 :: _ => Ascii.eqb c0 "." = false
                   end).
  { subst text_ex. destruct ex as [[neg0 ds]|]; [reflexivity|]. cbn [app].
    destruct rest as [|r rest']; [exact I|]. cbn [number_end] in Hend.
    repeat (apply andb_prop in Hend as [Hend ?]).
    repeat match goal with
           | H : negb _ = true |- _ => apply negb_true_iff in H
           end.
    assumption. }
  (* the fraction *)
  assert (Hfrac : Json.skip_fraction (text_fp ++ text_ex ++ rest)
                  = (match fp with Some _ => true | None => false end,
                     text_ex ++ rest)).
  { subst text_fp. destruct fp as [fp0|].
    - apply digits_ok_inv in Hfp as [Hfp0 Hfn].
      destruct fp0 as [|d fp0]; [cbn in Hfn; lia|].
      change (("."%char :: d :: fp0) ++ text_ex ++ rest)
        with ("."%char :: (d :: fp0) ++ text_ex ++ rest).
      cbn [Json.skip_fraction]. change (Ascii.eqb "." ".") with true.
      now rewrite span_digits_app.
    - cbn [app]. destruct (text_ex ++ rest) as [|c0 tl]; [reflexivity|].
      cbn [Json.skip_fraction]. now rewrite Hnodot. }
  assert (Hstop_fp : Re.stops Py.isdigit (text_fp ++ text_ex ++ rest)).
  { subst text_fp. destruct fp as [fp0|]; [reflexivity|exact Hstop_ex]. }
  (* the sign and the integer part *)
  assert (Hint : (let '(neg1, s1) :=
                    match s with
                    | c0 :: r => if Ascii.eqb c0 "-" then (true, r) else (false, s)
                    | [] => (false, s)
                    end in
                  match s1 with
                  | c0 :: r => if Ascii.eqb c0 "0" then ([c0], r)
                               else Py.span_digits s1
                  | [] => ([], s1)
                  end)
                 = (c :: ip, text_fp ++ text_ex ++ rest)).
  { assert (Hs1 : match s with
                  | c0 :: r => if Ascii.eqb c0 "-" then (true, r) else (false, s)
                  | [] => (false, s)
                  end = (neg, (c :: ip) ++ text_fp ++ text_ex ++ rest)).
    { subst s. destruct neg; [reflexivity|]. cbn [app]. now rewrite Hc4. }
    rewrite Hs1. cbn [app].
    destruct (Ascii.eqb c "0") eqn:Hc0.
    - destruct ip as [|c' ip]; [reflexivity|].
      cbn beta iota in Hzero. discriminate Hzero.
    - change (c :: ip ++ text_fp ++ text_ex ++ rest)
        with ((c :: ip) ++ text_fp ++ text_ex ++ rest).
      now apply span_digits_app. }
  destruct (match s with
            | c0 :: r => if Ascii.eqb c0 "-" then (true, r) else (false, s)
            | [] => (false, s)
            end) as [neg1 s1].
  cbv zeta in Hint. cbn beta iota in Hint.
  destruct (match s1 with
            | c0 :: r => if Ascii.eqb c0 "0" then ([c0], r)
                         else Py.span_digits s1
            | [] => ([], s1)
            end) as [ip1 s2].
  injection Hint as -> ->.
  rewrite Hfrac, Hexp, Hfe, Hlen, Hfloat. reflexivity.
Qed.

End FloatRepr.

(** ** JSON texts *)

Section JsonText.
Import Decimals.

(** An escaped character is read back as the character. *)
Lemma scanstring_escape_char c s :
  Json.scanstring (Json.escape c ++ s)
  = ('(text, rest) ← Json.scanstring s; Py.Ok (c :: text, rest)).
Proof. destruct c as [[] [] [] [] [] [] [] []]; reflexivity. Qed.

Lemma scanstring_escape s rest :
  Json.scanstring (flat_map Json.escape s ++ Json.quote :: rest)
  = Py.Ok (s, rest).
Proof.
  induction s as [|c s IH]; [reflexivity|].
  cbn [flat_map]. rewrite <- app_assoc, scanstring_escape_char, IH.
  reflexivity.
Qed.

(** A string value is read back. *)
Lemma scan_once_string fuel s rest :
  Json.scan_once (S fuel) (Json.encode (Json.TStr s) ++ rest)
  = Py.Ok (Json.VStr s, rest).
Proof.
  cbn [Json.encode]. unfold Json.encode_basestring_ascii.
  rewrite <- app_comm_cons, <- app_assoc. cbn [app Json.scan_once].
  change (Ascii.eqb Json.quote Json.quote) with true. cbn iota.
  rewrite scanstring_escape. cbn.
  now rewrite string_of_list_ascii_of_string.
Qed.

(** A text that begins like a number is read by the number scanner. *)
Lemma scan_once_number fuel c s r :
  (Py.isdigit c || Ascii.eqb c "-") = true ->
  Json.scan_number (c :: s) = Some r ->
  Json.scan_once (S fuel) (c :: s) = Py.Ok r.
Proof.
  intros Hc Hnum.
  destruct c as [[] [] [] [] [] [] [] []]; try discriminate Hc;
    cbn [Json.scan_once];
    match goal with
    | |- context [Ascii.eqb ?a Json.quote] =>
        change (Ascii.eqb a Json.quote) with false
    end;
    match goal with
    | |- context [Ascii.eqb ?a "{"] => change (Ascii.eqb a "{") with false
    end;
    match goal with
    | |- context [Ascii.eqb ?a "["] => change (Ascii.eqb a "[") with false
    end;
    cbn iota;
    match goal with
    | |- context [Json.after_prefix ?p ?t] =>
        change (Json.after_prefix (list_ascii_of_string "null") t)
          with (@None (list ascii));
        change (Json.after_prefix (list_ascii_of_string "true") t)
          with (@None (list ascii));
        change (Json.after_prefix (list_ascii_of_string "false") t)
          with (@None (list ascii))
    end;
    cbn iota; rewrite Hnum; reflexivity.
Qed.

Lemma render_head l :
  literal_ok l = true ->
  exists c s, Py.render l = c :: s
    /\ (Py.isdigit c || Ascii.eqb c "-") = true /\ Json.is_ws c = false.
Proof.
  unfold literal_ok. intros H.
  apply andb_prop in H as [H _]. apply andb_prop in H as [Hip _].
  apply digits_ok_inv in Hip as [Hip Hn].
  unfold Py.render. destruct l as [neg ip fp ex].
  cbn [Py.minus Py.int_part Py.frac_part Py.exponent] in *.
  destruct neg.
  - eexists _, _. split; [reflexivity|]. now split.
  - destruct ip as [|c ip]; [cbn in Hn; lia|].
    cbn [forallb] in Hip. apply andb_prop in Hip as [Hc _].
    eexists c, _. split; [reflexivity|]. rewrite Hc. split; [reflexivity|].
    destruct c as [[] [] [] [] [] [] [] []]; try discriminate Hc; reflexivity.
Qed.

(** A float value is read back, up to the end of the number. *)
Lemma scan_once_float fuel x rest :
  number_end rest = true ->
  Json.scan_once (S fuel) (Json.encode (Json.TFloat x) ++ rest)
  = Py.Ok (Json.VFloat x, rest).
Proof.
  intros Hend. cbn [Json.encode]. unfold Json.floatstr.
  destruct (finite x) eqn:Hfin.
  - destruct (float_repr_literal x Hfin) as (l & Hrepr & Hok & Hjs & Hv).
    replace (match Prim2SF x with
             | S754_infinity true => list_ascii_of_string "-Infinity"
             | S754_infinity false => list_ascii_of_string "Infinity"
             | S754_nan => list_ascii_of_string "NaN"
             | _ => Py.float_repr x
             end) with (Py.float_repr x)
      by (unfold finite in Hfin; destruct (Prim2SF x); try reflexivity;
          discriminate Hfin).
    rewrite Hrepr.
    pose proof (scan_number_render l rest Hok Hjs Hend) as Hnum.
    destruct (render_head l Hok) as (c & s & Hs & Hc & _).
    rewrite Hs in *. rewrite <- app_comm_cons in *.
    rewrite (scan_once_number fuel c (s ++ rest) _ Hc Hnum).
    now rewrite Hv.
  - pose proof (SF2Prim_Prim2SF x) as Hx. unfold finite in Hfin.
    destruct (Prim2SF x) as [s|[]| |s m e]; try discriminate Hfin;
      rewrite <- Hx; reflexivity.
Qed.

Lemma scan_once_scalar fuel v rest :
  scalar v = true -> number_end rest = true ->
  Json.scan_once (S fuel) (Json.encode v ++ rest)
  = Py.Ok (Json.denote v, rest).
Proof.
  destruct v; try discriminate; intros _ Hend.
  - now apply scan_once_float.
  - apply scan_once_string.
Qed.

Lemma skip_ws_scalar v rest :
  scalar v = true ->
  Json.skip_ws (Json.encode v ++ rest) = Json.encode v ++ rest.
Proof.
  destruct v; try discriminate; intros _.
  - cbn [Json.encode]. unfold Json.floatstr.
    destruct (finite x) eqn:Hfin.
    + destruct (float_repr_literal x Hfin) as (l & Hrepr & Hok & _).
      replace (match Prim2SF x with
               | S754_infinity true => list_ascii_of_string "-Infinity"
               | S754_infinity false => list_ascii_of_string "Infinity"
               | S754_nan => list_ascii_of_string "NaN"
               | _ => Py.float_repr x
               end) with (Py.float_repr x)
        by (unfold finite in Hfin; destruct (Prim2SF x); try reflexivity;
            discriminate Hfin).
      rewrite Hrepr. destruct (render_head l Hok) as (c & s & -> & _ & Hws).
      cbn [app Json.skip_ws]. now rewrite Hws.
    + unfold finite in Hfin.
      destruct (Prim2SF x) as [s|[]| |s m e]; try discriminate Hfin;
        reflexivity.
  - reflexivity.
Qed.

End JsonText.

(** ** The line of a reading *)

Section LogLine.
Import Decimals.

Lemma number_end_comma s : number_end (","%char :: s) = true.
Proof. reflexivity. Qed.

Lemma number_end_brace s : number_end ("}"%char :: s) = true.
Proof. reflexivity. Qed.

Lemma scan_members_eq fuel s pairs :
  Json.scan_members (S fuel) s pairs
  = match s with
    | c :: r =>
        if Ascii.eqb c Json.quote then
          '(key, r1) ← Json.scanstring r;
          match Json.skip_ws r1 with
          | c2 :: r2 =>
              if Ascii.eqb c2 ":" then
                '(v, r3) ← Json.scan_once fuel (Json.skip_ws r2);
                let pairs := <[string_of_list_ascii key := v]> pairs in
                match Json.skip_ws r3 with
                | c4 :: r4 =>
                    if Ascii.eqb c4 "}" then Py.Ok (Json.VDict pairs, r4)
                    else if Ascii.eqb c4 ","
                    then Json.scan_members fuel (Json.skip_ws r4) pairs
                    else Py.Raise Py.ValueError
                | [] => Py.Raise Py.ValueError
                end
              else Py.Raise Py.ValueError
          | [] => Py.Raise Py.ValueError
          end
        else Py.Raise Py.ValueError
    | [] => Py.Raise Py.ValueError
    end.
Proof. reflexivity. Qed.

Lemma skip_ws_blank s : Json.skip_ws (" "%char :: s) = Json.skip_ws s.
Proof. reflexivity. Qed.

Lemma skip_ws_colon s : Json.skip_ws (":"%char :: s) = ":"%char :: s.
Proof. reflexivity. Qed.

Lemma skip_ws_comma s : Json.skip_ws (","%char :: s) = ","%char :: s.
Proof. reflexivity. Qed.

Lemma result_bind_ok {A B} (a : A) (f : A -> Py.result B) :
  (Py.Ok a ≫= f) = f a.
Proof. reflexivity. Qed.

(** One item: the key, the colon, the value, and what follows decides. *)
Lemma scan_members_item fuel kv tail pairs :
  scalar (snd kv) = true -> number_end tail = true ->
  Json.scan_members (S (S fuel)) (item_text kv ++ tail) pairs
  = match Json.skip_ws tail with
    | c :: r =>
        if Ascii.eqb c "}"
        then Py.Ok (Json.VDict (<[fst kv := Json.denote (snd kv)]> pairs), r)
        else if Ascii.eqb c ","
        then Json.scan_members (S fuel) (Json.skip_ws r)
               (<[fst kv := Json.denote (snd kv)]> pairs)
        else Py.Raise Py.ValueError
    | [] => Py.Raise Py.ValueError
    end.
Proof.
  intros Hv Hend. destruct kv as [k v]. cbn [fst snd] in *.
  unfold item_text, Json.encode_basestring_ascii. cbn [fst snd].
  rewrite <- !app_comm_cons, <- !app_assoc.
  rewrite scan_members_eq. cbn beta iota.
  change (Ascii.eqb Json.quote Json.quote) with true. cbn beta iota.
  rewrite <- !app_comm_cons. change ([] ++ ?x) with x.
  rewrite scanstring_escape, result_bind_ok.
  rewrite skip_ws_colon. change (Ascii.eqb ":" ":") with true. cbn beta iota.
  rewrite skip_ws_blank, skip_ws_scalar by assumption.
  rewrite scan_once_scalar by assumption.
  rewrite result_bind_ok. cbv zeta.
  now rewrite string_of_list_ascii_of_string.
Qed.

(** The items of a [dict] of strings and floats, joined by commas, are read
    back one after the other. *)
Lemma scan_members_join d : forall fuel pairs rest,
  d <> [] -> forallb (fun kv => scalar (snd kv)) d = true ->
  (length d < fuel)%nat ->
  Json.scan_members fuel (Json.join (map item_text d) ++ "}"%char :: rest) pairs
  = Py.Ok (Json.VDict (dict_of d pairs), rest).
Proof.
  induction d as [|kv d IH]; intros fuel pairs rest Hne Hall Hfuel;
    [congruence|].
  cbn [forallb] in Hall. apply andb_prop in Hall as [Hv Hall].
  destruct fuel as [|[|fuel]]; [cbn in Hfuel; lia..|].
  destruct d as [|kv' d].
  - cbn [map Json.join]. rewrite scan_members_item by (auto; reflexivity).
    reflexivity.
  - change (Json.join (map item_text (kv :: kv' :: d)))
      with (item_text kv ++ ","%char :: " "%char
            :: Json.join (map item_text (kv' :: d))).
    rewrite <- app_assoc, <- !app_comm_cons.
    rewrite scan_members_item by (auto; reflexivity).
    rewrite skip_ws_comma.
    change (Ascii.eqb "," "}") with false.
    change (Ascii.eqb "," ",") with true. cbn beta iota.
    rewrite skip_ws_blank.
    assert (Hhead : Json.skip_ws
                      (Json.join (map item_text (kv' :: d)) ++ "}"%char :: rest)
                    = Json.join (map item_text (kv' :: d)) ++ "}"%char :: rest).
    { destruct d; reflexivity. }
    rewrite Hhead. apply IH; [discriminate|assumption|cbn [length] in *; lia].
Qed.

Lemma scan_once_brace fuel s :
  Json.scan_once (S fuel) ("{"%char :: s)
  = match Json.skip_ws s with
    | c1 :: r1 =>
        if Ascii.eqb c1 "}" then Py.Ok (Json.VDict ∅, r1)
        else Json.scan_members fuel (c1 :: r1) ∅
    | [] => Py.Raise Py.ValueError
    end.
Proof. reflexivity. Qed.

(** A [dict] of strings and floats is read back from its text, whatever
    blanks follow it. *)
Lemma decode_encode_dict d blanks :
  d <> [] -> forallb (fun kv => scalar (snd kv)) d = true ->
  Json.skip_ws blanks = [] ->
  (length d < length (Json.encode (Json.TDict d)))%nat ->
  Json.decode (Json.encode (Json.TDict d) ++ blanks)
  = Py.Ok (Json.VDict (dict_of d ∅)).
Proof.
  intros Hne Hall Hblanks Hlen. unfold Json.decode.
  cbn [Json.encode] in *.
  change (map _ d) with (map item_text d) in *.
  rewrite <- app_comm_cons, <- app_assoc.
  assert (Hhead : exists s, Json.join (map item_text d) ++ ["}"%char] ++ blanks
                            = Json.quote :: s).
  { destruct d as [|kv [|kv' d]]; [congruence|..]; eexists; reflexivity. }
  destruct Hhead as (s & Hs).
  change (Json.skip_ws ("{"%char :: ?x)) with ("{"%char :: x).
  cbv zeta. rewrite scan_once_brace, Hs.
  change (Json.skip_ws (Json.quote :: s)) with (Json.quote :: s).
  cbn beta iota. change (Ascii.eqb Json.quote "}") with false. cbn beta iota.
  rewrite <- Hs. change (["}"%char] ++ blanks) with ("}"%char :: blanks).
  rewrite scan_members_join; [|assumption..|].
  - rewrite result_bind_ok. now rewrite Hblanks.
  - cbn [length] in *. rewrite length_app in *. cbn [length] in *. lia.
Qed.

End LogLine.

(** ** The round trip *)

Section OneLine.
Import Decimals.

Lemma escape_printable c : forallb printable (Json.escape c) = true.
Proof.
  destruct c as [b0 b1 b2 b3 b4 b5 b6 b7].
  destruct b0, b1, b2, b3, b4, b5, b6, b7; reflexivity.
Qed.

Lemma isdigit_printable c : Py.isdigit c = true -> printable c = true.
Proof.
  destruct c as [b0 b1 b2 b3 b4 b5 b6 b7].
  destruct b0, b1, b2, b3, b4, b5, b6, b7; intros H;
    solve [reflexivity | discriminate H].
Qed.

Lemma digits_printable ds :
  forallb Py.isdigit ds = true -> forallb printable ds = true.
Proof.
  induction ds as [|c ds IH]; [reflexivity|]. cbn [forallb].
  intros H. apply andb_prop in H as [Hc Hds].
  now rewrite (isdigit_printable c Hc), IH.
Qed.

Lemma basestring_printable s :
  forallb printable (Json.encode_basestring_ascii s) = true.
Proof.
  unfold Json.encode_basestring_ascii. cbn [forallb].
  rewrite forallb_app. cbn [forallb].
  replace (forallb printable (flat_map Json.escape s)) with true;
    [reflexivity|].
  symmetry. induction s as [|c s IH]; [reflexivity|].
  cbn [flat_map]. now rewrite forallb_app, escape_printable, IH.
Qed.

Lemma render_printable l :
  literal_ok l = true -> forallb printable (Py.render l) = true.
Proof.
  unfold literal_ok, Py.render. intros H.
  apply andb_prop in H as [H He]. apply andb_prop in H as [Hi Hf].
  apply digits_ok_inv in Hi as [Hi _]. apply digits_printable in Hi.
  rewrite !forallb_app, Hi.
  assert (Hfrac : forallb printable
                    match Py.frac_part l with
                    | Some fp => "."%char :: fp
                    | None => []
                    end = true).
  { destruct (Py.frac_part l) as [fp|]; [|reflexivity].
    apply digits_ok_inv in Hf as [Hf _]. apply digits_printable in Hf.
    cbn [forallb]. now rewrite Hf. }
  assert (Hexp : forallb printable
                   match Py.exponent l with
                   | Some (neg, ds) =>
                       "e"%char :: (if neg then "-"%char else "+"%char) :: ds
                   | None => []
                   end = true).
  { destruct (Py.exponent l) as [[neg ds]|]; [|reflexivity].
    apply digits_ok_inv in He as [He _]. apply digits_printable in He.
    cbn [forallb]. rewrite He. now destruct neg. }
  rewrite Hfrac, Hexp. now destruct (Py.minus l).
Qed.

Lemma floatstr_printable x : forallb printable (Json.floatstr x) = true.
Proof.
  destruct (finite x) eqn:Hfin.
  - destruct (float_repr_literal x Hfin) as (l & Hl & Hok & _).
    replace (Json.floatstr x) with (Py.float_repr x).
    + rewrite Hl. now apply render_printable.
    + unfold Json.floatstr, finite in *.
      now destruct (Prim2SF x) as [s|s| |s m e].
  - unfold Json.floatstr, finite in *.
    destruct (Prim2SF x) as [s|s| |s m e]; try discriminate Hfin;
      [now destruct s|reflexivity].
Qed.

Lemma item_printable kv :
  scalar (snd kv) = true -> forallb printable (item_text kv) = true.
Proof.
  intros Hkv. unfold item_text. rewrite forallb_app, basestring_printable.
  cbn [forallb andb]. destruct (snd kv); try discriminate Hkv.
  - apply floatstr_printable.
  - apply basestring_printable.
Qed.

Lemma join_printable d :
  forallb (fun kv => scalar (snd kv)) d = true ->
  forallb printable (Json.join (map item_text d)) = true.
Proof.
  induction d as [|kv d IH]; [reflexivity|]. cbn [forallb].
  intros H. apply andb_prop in H as [Hkv Hd].
  destruct d as [|kv' d].
  - now apply item_printable.
  - change (Json.join (map item_text (kv :: kv' :: d)))
      with (item_text kv ++ ","%char :: " "%char
            :: Json.join (map item_text (kv' :: d))).
    rewrite forallb_app, item_printable by assumption.
    cbn [forallb andb]. now apply IH.
Qed.

(** The text of a [dict] of strings and floats has no character outside
    [' '..'~']. *)
Lemma encode_printable d :
  forallb (fun kv => scalar (snd kv)) d = true ->
  forallb printable (Json.encode (Json.TDict d)) = true.
Proof.
  intros Hd. cbn [Json.encode]. change (map _ d) with (map item_text d).
  cbn [forallb]. rewrite forallb_app, join_printable by assumption.
  reflexivity.
Qed.

End OneLine.

Section RoundTrip.
Import Decimals.

Lemma join_length d : (length d <= length (Json.join (map item_text d)))%nat.
Proof.
  induction d as [|kv d IH]; [reflexivity|].
  destruct d as [|kv' d].
  - cbn. lia.
  - change (Json.join (map item_text (kv :: kv' :: d)))
      with (item_text kv ++ ","%char :: " "%char
            :: Json.join (map item_text (kv' :: d))).
    rewrite length_app. cbn [length] in *. lia.
Qed.

(** A [dict] of strings and floats is read back from its text. *)
Lemma decode_dumps_dict d blanks :
  d <> [] -> forallb (fun kv => scalar (snd kv)) d = true ->
  Json.skip_ws blanks = [] ->
  Json.decode (Json.encode (Json.TDict d) ++ blanks)
  = Py.Ok (Json.VDict (dict_of d ∅)).
Proof.
  intros Hne Hall Hblanks. apply decode_encode_dict; try assumption.
  cbn [Json.encode]. change (map _ d) with (map item_text d).
  cbn [length]. rewrite length_app. pose proof (join_length d). lia.
Qed.

(** The [dict] that [asdict] makes of a reading holds its five fields. *)
Lemma asdict_record reading :
  exists d, asdict reading = Json.TDict d /\ d <> []
    /\ forallb (fun kv => scalar (snd kv)) d = true
    /\ Json.VDict (dict_of d ∅) = record reading
    /\ Json.denote (asdict reading) = record reading.
Proof.
  eexists. split; [reflexivity|]. split; [discriminate|].
  split; [reflexivity|]. split; reflexivity.
Qed.

(** The text of a reading, whatever blanks follow it, is read back as the
    [dict] of the reading. *)
Lemma decode_line reading blanks :
  Json.skip_ws blanks = [] ->
  Json.decode (list_ascii_of_string (to_json reading) ++ blanks)
  = Py.Ok (record reading).
Proof.
  intros Hblanks. unfold to_json, Json.dumps.
  rewrite list_ascii_of_string_of_list_ascii.
  destruct (asdict_record reading) as (d & -> & Hne & Hall & Hd & _).
  rewrite decode_dumps_dict by assumption. now rewrite Hd.
Qed.

Lemma lstrip_keeps l c :
  Py.isspace c = false -> Py.lstrip (l ++ [c]) <> [].
Proof.
  intros Hc. induction l as [|a l IH]; cbn [app Py.lstrip].
  - now rewrite Hc.
  - destruct (Py.isspace a); [exact IH|discriminate].
Qed.

Lemma strip_keeps c s : Py.isspace c = false -> Py.strip (c :: s) <> [].
Proof.
  intros Hc. unfold Py.strip, Py.rstrip. cbn [Py.lstrip]. rewrite Hc.
  cbn [rev]. intros H. apply (f_equal (@rev ascii)) in H.
  rewrite rev_involutive in H. now apply lstrip_keeps in H.
Qed.

Lemma list_ascii_of_string_app a b :
  list_ascii_of_string (a ++ b)%string
  = list_ascii_of_string a ++ list_ascii_of_string b.
Proof.
  induction a as [|c a IH]; [reflexivity|].
  change (c :: list_ascii_of_string (a ++ b)%string
          = c :: (list_ascii_of_string a ++ list_ascii_of_string b)).
  now f_equal.
Qed.

Lemma to_json_head reading :
  exists s, list_ascii_of_string (to_json reading) = "{"%char :: s.
Proof.
  unfold to_json, Json.dumps. rewrite list_ascii_of_string_of_list_ascii.
  eexists. reflexivity.
Qed.

Lemma loads_to_json reading :
  Json.loads (to_json reading) = Json.Loaded (record reading).
Proof.
  unfold Json.loads.
  rewrite <- (app_nil_r (list_ascii_of_string (to_json reading))).
  now rewrite decode_line.
Qed.

Lemma loads_dumps_fields product_id weight unit_price total_price timestamp :
  Json.loads
    (Json.dumps (fields product_id weight unit_price total_price timestamp))
  = Json.Loaded
      (fields_read product_id weight unit_price total_price timestamp).
Proof.
  unfold Json.loads, Json.dumps.
  rewrite list_ascii_of_string_of_list_ascii.
  rewrite <- (app_nil_r (Json.encode _)).
  unfold fields. now rewrite decode_dumps_dict.
Qed.

Lemma to_json_printable reading :
  forallb printable (list_ascii_of_string (to_json reading)) = true.
Proof.
  unfold to_json, Json.dumps. rewrite list_ascii_of_string_of_list_ascii.
  now apply encode_printable.
Qed.

(** The line that [log] writes for a reading is not blank, and holds the
    reading. *)
Lemma line_of_to_json reading :
  TransactionLogger.line_of (to_json reading)
  = TransactionLogger.Text (Json.Loaded (record reading)).
Proof.
  unfold TransactionLogger.line_of. cbv zeta.
  rewrite list_ascii_of_string_app.
  change (list_ascii_of_string (String "010" EmptyString))
    with ["010"%char].
  destruct (to_json_head reading) as (s & Hs).
  destruct (Py.strip (list_ascii_of_string (to_json reading) ++ ["010"%char]))
    as [|c t] eqn:Hstrip.
  - exfalso. rewrite Hs in Hstrip. now apply strip_keeps in Hstrip.
  - f_equal. unfold Json.loads. rewrite list_ascii_of_string_app.
    change (list_ascii_of_string (String "010" EmptyString))
      with ["010"%char].
    now rewrite decode_line.
Qed.

Lemma read_transactions_written readings : forall transactions,
  TransactionLogger.read_transactions
    (map (fun reading => TransactionLogger.line_of (to_json reading)) readings)
    transactions
  = Some (transactions ++ map record readings).
Proof.
  induction readings as [|reading readings IH]; intros transactions.
  - cbn. now rewrite app_nil_r.
  - cbn [map TransactionLogger.read_transactions].
    rewrite line_of_to_json, IH. now rewrite <- app_assoc.
Qed.

Lemma slice_from_count {A} (l : list A) (count : Z) :
  Py.slice_from l (- count)
  = if 0 <? count then Readings.last_n (Z.to_nat count) l
    else drop (Z.to_nat (- count)) l.
Proof.
  destruct (Z.ltb_spec 0 count) as [Hpos|Hneg].
  - apply slice_from_last. lia.
  - unfold Py.slice_from. destruct (Z.ltb_spec (- count) 0); [lia|].
    destruct (Z.le_gt_cases (- count) (Z.of_nat (length l))) as [Hle|Hgt].
    + f_equal. lia.
    + rewrite !drop_ge by lia. reflexivity.
Qed.

End RoundTrip.

(** C9: the text that [to_json] makes of a reading, the line that [log]
    writes, is read back by [json.loads] as the [dict] of the reading, its
    five fields with the values they had: the two texts character by
    character, and the three floats as the same binary64 numbers, whatever
    their values and hence also when they were rounded to three or two
    decimals. The same holds of any five values of these types, so whatever
    text the field [timestamp] holds. The text has no character outside
    [' '..'~'], so no line break: it is one line of the file. So
    [get_recent] returns, of the readings that [log] has written, the last
    [count], and after a write the reading just written comes last. *)
Theorem log_line_round_trip :
  (forall reading : ScaleReading,
     Json.loads (to_json reading) = Json.Loaded (Decimals.record reading))
  /\ (forall (product_id : string) (weight unit_price total_price : float)
             (timestamp : string),
        Json.loads
          (Json.dumps
             (Decimals.fields product_id weight unit_price total_price
                timestamp))
        = Json.Loaded
            (Decimals.fields_read product_id weight unit_price total_price
               timestamp))
  /\ (forall reading : ScaleReading,
        forallb Decimals.printable (list_ascii_of_string (to_json reading))
        = true)
  /\ (forall (self : TransactionLogger.t) (count : Z),
        TransactionLogger.get_recent count (TransactionLogger.file_of self)
        = let written := map Decimals.record (TransactionLogger.lines self) in
          if 0 <? count then Readings.last_n (Z.to_nat count) written
          else drop (Z.to_nat (- count)) written)
  /\ (forall (self : TransactionLogger.t) (reading : ScaleReading),
        TransactionLogger.get_recent 1
          (TransactionLogger.file_of
             (snd (TransactionLogger.log None reading self)))
        = [Decimals.record reading]).
Proof.
  assert (Hget : forall (self : TransactionLogger.t) (count : Z),
            TransactionLogger.get_recent count (TransactionLogger.file_of self)
            = Py.slice_from
                (map Decimals.record (TransactionLogger.lines self))
                (- count)).
  { intros self count.
    unfold TransactionLogger.get_recent, TransactionLogger.file_of.
    now rewrite read_transactions_written. }
  split; [exact loads_to_json|]. split; [exact loads_dumps_fields|].
  split; [exact to_json_printable|].
  split; [intros self count; rewrite Hget; apply slice_from_count|].
  intros self reading. rewrite Hget, log_run.
  cbn [snd TransactionLogger.lines]. rewrite map_app. cbn [map].
  rewrite slice_from_last by lia. unfold Readings.last_n.
  rewrite length_app. cbn [length].
  replace (length (map Decimals.record (TransactionLogger.lines self)) + 1
           - Z.to_nat 1)%nat
    with (length (map Decimals.record (TransactionLogger.lines self)))
    by lia.
  now rewrite drop_app_length.
Qed.

(** The line of the reading of the frame [P0002W+002.500U1200.00T3000.00],
    made at noon of the first day of 2024. *)
Example to_json_scenario :
  to_json (mkReading "0002" 2.5 1200 3000 63839707200000000)
  = Decimals.double_quoted
      "{'product_id': '0002', 'weight': 2.5, 'unit_price': 1200.0, 'total_price': 3000.0, 'timestamp': '2024-01-01T12:00:00'}".
Proof. vm_compute. reflexivity. Qed.
